(** * chipsec/chipset.py: platform identification, configuration store and
      register access, as a shallow embedding.

    The Python methods of class [Chipset] become functions in a state and
    exception monad over the [Chipset] object.  Every call that leaves the
    module (the OS helper, the HAL components [pci], [mmio], [msr], [io],
    [iobar], [msgbus], the importer, the file system and the XML parser) is
    a node of an interaction tree whose reply is chosen by the environment.
    Calls on [logger()] write to the log only and are left out. *)

From Stdlib Require Import ZArith Ascii String List Lia FunctionalExtensionality.
From stdpp Require Import gmap strings list fin_maps sorting.

#[local] Open Scope string_scope.
#[local] Open Scope list_scope.
#[local] Open Scope Z_scope.
#[local] Set Warnings "-register-all".

(** ** Python values and exceptions *)

(** The values that occur in attribute dictionaries: XML attributes are
    strings, [read_register_dict] stores integers, and the ['FIELDS'] entry
    of a register is a dictionary of dictionaries. *)
Inductive pyval : Type :=
  | PStr (s : string)
  | PInt (z : Z)
  | PDict (d : gmap string pyval).

(** Exceptions raised outside this module and passed through it. *)
Inductive hal_error : Type :=
  | ImportError
  | OtherError (tag : string).

Inductive exn : Type :=
  | KeyError (k : string)
  | ValueError
  | TypeError
  | IndexError
  | AttributeError
  | UnknownChipsetError (vid did rid : Z)
  | DeviceNotFoundError (name : string)
  | RegisterTypeNotFoundError (rtype : pyval)
  | External (e : hal_error).

Inductive result (A : Type) : Type :=
  | Ok (a : A)
  | Exc (e : exn).
Arguments Ok {A} a.
Arguments Exc {A} e.

(** ** Builtins *)

Module Py.

(** Truth value of an object in a condition; [None] stands for Python's
    [None] (the default of [dict.get]). *)
Definition truthy (v : option pyval) : bool :=
  match v with
  | None => false
  | Some (PStr s) => negb (String.eqb s "")
  | Some (PInt z) => negb (z =? 0)
  | Some (PDict d) => negb (bool_decide (d = ∅))
  end.

(** [d[k]] on a dictionary. *)
Definition getitem {V} (d : gmap string V) (k : string) : result V :=
  match d !! k with
  | Some v => Ok v
  | None => Exc (KeyError k)
  end.

(** [l[i]] on a list, with Python's negative indices. *)
Definition list_getitem {V} (l : list V) (i : Z) : result V :=
  let n := Z.of_nat (length l) in
  let j := if i <? 0 then i + n else i in
  if (0 <=? j) && (j <? n) then
    match l !! Z.to_nat j with Some v => Ok v | None => Exc IndexError end
  else Exc IndexError.

(** [a << n] and [a >> n]: a negative shift count is a [ValueError]. *)
Definition shl (a n : Z) : result Z :=
  if n <? 0 then Exc ValueError else Ok (Z.shiftl a n).
Definition shr (a n : Z) : result Z :=
  if n <? 0 then Exc ValueError else Ok (Z.shiftr a n).

(** Whitespace skipped by [int()] around the digits: tab, line feed,
    vertical tab, form feed, carriage return and the space. *)
Definition is_space (c : ascii) : bool :=
  let n := nat_of_ascii c in
  ((9 <=? n) && (n <=? 13) || (n =? 32))%nat.

Definition digit_val (base : Z) (c : ascii) : option Z :=
  let n := Z.of_nat (nat_of_ascii c) in
  let v := if (48 <=? n) && (n <=? 57) then n - 48
           else if (97 <=? n) && (n <=? 122) then n - 87
           else if (65 <=? n) && (n <=? 90) then n - 55
           else base in
  if v <? base then Some v else None.

(** Digits with single underscores between them; [after_digit] tells
    whether the previous character was a digit. *)
Fixpoint parse_digits (base acc : Z) (after_digit : bool) (l : list ascii)
  : option Z :=
  match l with
  | [] => if after_digit then Some acc else None
  | c :: l' =>
      if Ascii.eqb c "_" then
        if after_digit then parse_digits base acc false l' else None
      else
        match digit_val base c with
        | Some v => parse_digits base (acc * base + v) true l'
        | None => None
        end
  end.

Fixpoint lstrip (l : list ascii) : list ascii :=
  match l with
  | c :: l' => if is_space c then lstrip l' else l
  | [] => []
  end.

Definition strip (l : list ascii) : list ascii :=
  rev (lstrip (rev (lstrip l))).

Definition parse_prefix (base : Z) (l : list ascii) : option Z :=
  match l with
  | "0"%char :: x :: l' =>
      if (base =? 16) && (Ascii.eqb x "x" || Ascii.eqb x "X") then
        match l' with
        | "_"%char :: l'' => parse_digits base 0 false l''
        | _ => parse_digits base 0 false l'
        end
      else parse_digits base 0 false l
  | _ => parse_digits base 0 false l
  end.

(** [int(s, base)] on a string of ASCII text, Python 3 syntax: surrounding
    whitespace, a sign, for base 16 the prefix [0x], digits.  Digits and
    spaces outside ASCII, which an XML attribute could carry, are not
    modelled: such a string is refused here. *)
Definition int_of_string (base : Z) (s : string) : option Z :=
  match strip (list_ascii_of_string s) with
  | "-"%char :: l => Z.opp <$> parse_prefix base l
  | "+"%char :: l => parse_prefix base l
  | l => parse_prefix base l
  end.

(** [int(x, 16)]: only a string can be given with an explicit base. *)
Definition int16 (x : pyval) : result Z :=
  match x with
  | PStr s =>
      match int_of_string 16 s with Some z => Ok z | None => Exc ValueError end
  | _ => Exc TypeError
  end.

(** [int(x)]. *)
Definition int10 (x : pyval) : result Z :=
  match x with
  | PStr s =>
      match int_of_string 10 s with Some z => Ok z | None => Exc ValueError end
  | PInt z => Ok z
  | PDict _ => Exc TypeError
  end.

Definition hex_digit (v : Z) : ascii :=
  ascii_of_nat (Z.to_nat (if v <? 10 then v + 48 else v + 87)).

Fixpoint hex_digits (fuel : nat) (z : Z) (acc : list ascii) : list ascii :=
  match fuel with
  | O => acc
  | S fuel' =>
      if z <? 16 then hex_digit z :: acc
      else hex_digits fuel' (z / 16) (hex_digit (z mod 16) :: acc)
  end.

(** [hex(z)]. *)
Definition hex (z : Z) : string :=
  let body := "0x" +:+ string_of_list_ascii
                         (hex_digits (S (Z.to_nat (Z.log2 (Z.abs z)))) (Z.abs z) [])
  in if z <? 0 then "-" +:+ body else body.

Definition lower_ascii (c : ascii) : ascii :=
  let n := nat_of_ascii c in
  if ((65 <=? n) && (n <=? 90))%nat then ascii_of_nat (n + 32) else c.

(** [s.lower()] on ASCII text; a character outside ASCII is left as it
    is. *)
Fixpoint lower (s : string) : string :=
  match s with
  | EmptyString => EmptyString
  | String c s' => String (lower_ascii c) (lower s')
  end.

(** [s.startswith(p)]. *)
Definition startswith (s p : string) : bool := String.prefix p s.

Fixpoint split_go (sep : ascii) (cur : list ascii) (l : list ascii)
  : list string :=
  match l with
  | [] => [string_of_list_ascii (rev cur)]
  | c :: l' =>
      if Ascii.eqb c sep then
        string_of_list_ascii (rev cur) :: split_go sep [] l'
      else split_go sep (c :: cur) l'
  end.

(** [s.split(sep)] for a separator of one character. *)
Definition split (sep : ascii) (s : string) : list string :=
  split_go sep [] (list_ascii_of_string s).

Fixpoint basename_go (cur : list ascii) (l : list ascii) : list ascii :=
  match l with
  | [] => rev cur
  | c :: l' =>
      if Ascii.eqb c "/" then basename_go [] l' else basename_go (c :: cur) l'
  end.

(** [os.path.basename] (POSIX). *)
Definition basename (p : string) : string :=
  string_of_list_ascii (basename_go [] (list_ascii_of_string p)).

(** [os.path.join(root, x)] for a relative name [x] (POSIX). *)
Definition path_join (root x : string) : string :=
  if String.eqb root "" then x
  else if startswith (string_of_list_ascii (rev (list_ascii_of_string root))) "/"
       then root +:+ x
       else root +:+ "/" +:+ x.

(** [fnmatch.fnmatchcase] for patterns made of literal characters, [?]
    and [*] (no bracket classes). *)
Fixpoint glob (pat : list ascii) : list ascii -> bool :=
  match pat with
  | [] => fun name => match name with [] => true | _ => false end
  | p :: pat' =>
      if Ascii.eqb p "*" then
        fix star (name : list ascii) : bool :=
          glob pat' name ||
          match name with [] => false | _ :: name' => star name' end
      else if Ascii.eqb p "?" then
        fun name => match name with [] => false | _ :: name' => glob pat' name' end
      else
        fun name =>
          match name with
          | [] => false
          | c :: name' => Ascii.eqb c p && glob pat' name'
          end
  end.

(** [fnmatch.fnmatch(name, pat)] (POSIX, where [normcase] is the
    identity). *)
Definition fnmatch (name pat : string) : bool :=
  glob (list_ascii_of_string pat) (list_ascii_of_string name).

End Py.
Arguments Py.getitem {V} d k : simpl never.

(** ** The store and the outside world *)

(** The configuration object [self.Cfg]: one dictionary per category, the
    bus bindings, and the flag set by [init_xml_configuration]. *)
Record Cfg_t : Type := mkCfg {
  CONFIG_PCI : gmap string (gmap string pyval);
  MMIO_BARS : gmap string (gmap string pyval);
  IO_BARS : gmap string (gmap string pyval);
  MEMORY_RANGES : gmap string (gmap string pyval);
  REGISTERS : gmap string (gmap string pyval);
  CONTROLS : gmap string (gmap string pyval);
  BUS : gmap string (list pyval);
  XML_CONFIG_LOADED : bool
}.

(** An [xml.etree.ElementTree] element. *)
Inductive Element : Type :=
  | Elem (tag : string) (attrib : gmap string pyval) (children : list Element).

(** The calls that leave the module. *)
Inductive hal_op : Type :=
  | helper_start (start_driver : bool)
  | helper_stop (start_driver : bool)
  | helper_use_native_api
  | pci_read_byte (b d f o : Z)
  | pci_read_word (b d f o : Z)
  | pci_read_dword (b d f o : Z)
  | pci_write_byte (b d f o v : Z)
  | pci_write_word (b d f o v : Z)
  | pci_write_dword (b d f o v : Z)
  | pci_enumerate_devices
  | mmio_read_mmcfg_reg (b d f o size : Z)
  | mmio_write_mmcfg_reg (b d f o size v : Z)
  | mmio_read_MMIO_BAR_reg (bar : pyval) (o size : Z)
  | mmio_write_MMIO_BAR_reg (bar : pyval) (o v size : Z)
  | msr_read_msr (cpu_thread msr : Z)
  | msr_write_msr (cpu_thread msr eax edx : Z)
  | io_read_port (port size : Z)
  | io_write_port (port v size : Z)
  | iobar_read_IO_BAR_reg (bar : pyval) (o size : Z)
  | iobar_write_IO_BAR_reg (bar : pyval) (o size v : Z)
  | msgbus_reg_read (port o : Z)
  | msgbus_reg_write (port o v : Z)
  | mm_msgbus_reg_read (port o : Z)
  | mm_msgbus_reg_write (port o v : Z)
  | import_cfg (code : string)
  | os_walk_cfg
  | os_path_exists (p : string)
  | ET_parse (p : string).

(** What each call returns: [enumerate_devices] a list of
    [(bus, dev, fun, vid, did)], [read_msr] the pair [(eax, edx)],
    [import_cfg] the object built by the platform module, [os_walk_cfg] the
    [(root, files)] pairs of [os.walk] over the [chipsec/cfg] directory,
    [ET_parse] the root element of the document. *)
Definition reply_type (c : hal_op) : Type :=
  match c with
  | helper_start _ | helper_stop _ => unit
  | helper_use_native_api => bool
  | pci_read_byte _ _ _ _ | pci_read_word _ _ _ _ | pci_read_dword _ _ _ _ => Z
  | pci_write_byte _ _ _ _ _ | pci_write_word _ _ _ _ _
  | pci_write_dword _ _ _ _ _ => unit
  | pci_enumerate_devices => list (Z * Z * Z * Z * Z)
  | mmio_read_mmcfg_reg _ _ _ _ _ => Z
  | mmio_write_mmcfg_reg _ _ _ _ _ _ => unit
  | mmio_read_MMIO_BAR_reg _ _ _ => Z
  | mmio_write_MMIO_BAR_reg _ _ _ _ => unit
  | msr_read_msr _ _ => (Z * Z)%type
  | msr_write_msr _ _ _ _ => unit
  | io_read_port _ _ => Z
  | io_write_port _ _ _ => unit
  | iobar_read_IO_BAR_reg _ _ _ => Z
  | iobar_write_IO_BAR_reg _ _ _ _ => unit
  | msgbus_reg_read _ _ => Z
  | msgbus_reg_write _ _ _ => unit
  | mm_msgbus_reg_read _ _ => Z
  | mm_msgbus_reg_write _ _ _ => unit
  | import_cfg _ => Cfg_t
  | os_walk_cfg => list (string * list string)
  | os_path_exists _ => bool
  | ET_parse _ => Element
  end.

Inductive reply (X : Type) : Type :=
  | Returned (x : X)
  | Raised (e : hal_error).
Arguments Returned {X} x.
Arguments Raised {X} e.

(** ** Programs *)

(** A program either has finished or performs a call and continues with
    the reply. *)
Inductive prog (A : Type) : Type :=
  | Ret (a : A)
  | Call (c : hal_op) (k : reply (reply_type c) → prog A).
Arguments Ret {A} a.
Arguments Call {A} c k.

Fixpoint prog_bind {A B} (t : prog A) (f : A → prog B) : prog B :=
  match t with
  | Ret a => f a
  | Call c k => Call c (λ r, prog_bind (k r) f)
  end.

(** A method over a state [S]: it returns or raises, and the state it has
    reached is kept in both cases. *)
Definition M (S A : Type) : Type := S → prog (result A * S).

Definition ret {S A} (a : A) : M S A := λ s, Ret (Ok a, s).
Definition raise {S A} (e : exn) : M S A := λ s, Ret (Exc e, s).
Definition bind {S A B} (m : M S A) (f : A → M S B) : M S B :=
  λ s, prog_bind (m s)
         (λ rs, match rs.1 with
                | Ok a => f a rs.2
                | Exc e => Ret (Exc e, rs.2)
                end).


(** Sequencing, for methods and for expressions that may raise. *)
Class Bind (F : Type → Type) : Type :=
  bind_ : ∀ {A B : Type}, F A → (A → F B) → F B.
Arguments bind_ {F _ A B} _ _ : simpl never.

Declare Scope py_scope.
Notation "m ≫= f" := (bind_ m f) (at level 60, right associativity) : py_scope.
Notation "x ← y ; z" := (bind_ y (λ x : _, z))
  (at level 20, y at level 100, z at level 200, only parsing) : py_scope.
Notation "' x ← y ; z" := (bind_ y (λ x : _, z))
  (at level 20, x pattern, y at level 100, z at level 200, only parsing) : py_scope.
Notation "x ;; z" := (bind_ x (λ _, z))
  (at level 100, z at level 200, only parsing, right associativity) : py_scope.
#[local] Open Scope py_scope.

#[global] Instance M_bind {S} : Bind (M S) := @bind S.
#[global] Instance option_bind : Bind option :=
  λ A B o f, match o with Some a => f a | None => None end.

Definition get {S} : M S S := λ s, Ret (Ok s, s).
Definition gets {S A} (f : S → A) : M S A := λ s, Ret (Ok (f s), s).
Definition modify {S} (f : S → S) : M S unit := λ s, Ret (Ok tt, f s).
Definition lift {S A} (r : result A) : M S A := λ s, Ret (r, s).

(** A call into the outside world; what it raises propagates. *)
Definition call {S} (c : hal_op) : M S (reply_type c) :=
  λ s, Call c (λ r, match r with
                    | Returned x => Ret (Ok x, s)
                    | Raised e => Ret (Exc (External e), s)
                    end).

(** [try: m  except: h]. *)
Definition try_except {S A} (m : M S A) (h : exn → M S A) : M S A :=
  λ s, prog_bind (m s)
         (λ rs, match rs.1 with
                | Ok a => Ret (Ok a, rs.2)
                | Exc e => h e rs.2
                end).

(** [for x in l: body]. *)
Fixpoint for_each {S X} (l : list X) (body : X → M S unit) : M S unit :=
  match l with
  | [] => ret tt
  | x :: l' => bind (body x) (λ _, for_each l' body)
  end.

#[global] Instance result_bind : Bind result :=
  λ A B r f, match r with Ok a => f a | Exc e => Exc e end.

(** A list comprehension whose element expression may raise. *)
Fixpoint map_result {X Y} (f : X → result Y) (l : list X) : result (list Y) :=
  match l with
  | [] => Ok []
  | x :: l' => y ← f x; ys ← map_result f l'; Ok (y :: ys)
  end.

(** [always t Q]: whatever the outside world replies, [t] ends in a
    result that satisfies [Q]. *)
Fixpoint always {A} (t : prog A) (Q : A → Prop) : Prop :=
  match t with
  | Ret a => Q a
  | Call c k => ∀ r, always (k r) Q
  end.

(** An outside world with a state of its own. *)
Definition world (W : Type) : Type := ∀ c : hal_op, W → reply (reply_type c) * W.

Fixpoint run {A W} (h : world W) (t : prog A) (w : W) : A * W :=
  match t with
  | Ret a => (a, w)
  | Call c k => let rw := h c w in run h (k rw.1) rw.2
  end.

(** The calls a program performs in a given world, in order. *)
Fixpoint calls {A W} (h : world W) (t : prog A) (w : W) : list hal_op :=
  match t with
  | Ret _ => []
  | Call c k => let rw := h c w in c :: calls h (k rw.1) rw.2
  end.

(** Updates of one attribute of [self.Cfg]. *)
Definition upd_CONFIG_PCI (f : gmap string (gmap string pyval) → gmap string (gmap string pyval)) (s : Cfg_t) : Cfg_t :=
  mkCfg (f (CONFIG_PCI s)) (MMIO_BARS s) (IO_BARS s) (MEMORY_RANGES s) (REGISTERS s) (CONTROLS s) (BUS s) (XML_CONFIG_LOADED s).
Definition upd_MMIO_BARS (f : gmap string (gmap string pyval) → gmap string (gmap string pyval)) (s : Cfg_t) : Cfg_t :=
  mkCfg (CONFIG_PCI s) (f (MMIO_BARS s)) (IO_BARS s) (MEMORY_RANGES s) (REGISTERS s) (CONTROLS s) (BUS s) (XML_CONFIG_LOADED s).
Definition upd_IO_BARS (f : gmap string (gmap string pyval) → gmap string (gmap string pyval)) (s : Cfg_t) : Cfg_t :=
  mkCfg (CONFIG_PCI s) (MMIO_BARS s) (f (IO_BARS s)) (MEMORY_RANGES s) (REGISTERS s) (CONTROLS s) (BUS s) (XML_CONFIG_LOADED s).
Definition upd_MEMORY_RANGES (f : gmap string (gmap string pyval) → gmap string (gmap string pyval)) (s : Cfg_t) : Cfg_t :=
  mkCfg (CONFIG_PCI s) (MMIO_BARS s) (IO_BARS s) (f (MEMORY_RANGES s)) (REGISTERS s) (CONTROLS s) (BUS s) (XML_CONFIG_LOADED s).
Definition upd_REGISTERS (f : gmap string (gmap string pyval) → gmap string (gmap string pyval)) (s : Cfg_t) : Cfg_t :=
  mkCfg (CONFIG_PCI s) (MMIO_BARS s) (IO_BARS s) (MEMORY_RANGES s) (f (REGISTERS s)) (CONTROLS s) (BUS s) (XML_CONFIG_LOADED s).
Definition upd_CONTROLS (f : gmap string (gmap string pyval) → gmap string (gmap string pyval)) (s : Cfg_t) : Cfg_t :=
  mkCfg (CONFIG_PCI s) (MMIO_BARS s) (IO_BARS s) (MEMORY_RANGES s) (REGISTERS s) (f (CONTROLS s)) (BUS s) (XML_CONFIG_LOADED s).
Definition upd_BUS (f : gmap string (list pyval) → gmap string (list pyval)) (s : Cfg_t) : Cfg_t :=
  mkCfg (CONFIG_PCI s) (MMIO_BARS s) (IO_BARS s) (MEMORY_RANGES s) (REGISTERS s) (CONTROLS s) (f (BUS s)) (XML_CONFIG_LOADED s).
Definition upd_XML_CONFIG_LOADED (f : bool → bool) (s : Cfg_t) : Cfg_t :=
  mkCfg (CONFIG_PCI s) (MMIO_BARS s) (IO_BARS s) (MEMORY_RANGES s) (REGISTERS s) (CONTROLS s) (BUS s) (f (XML_CONFIG_LOADED s)).

(** Modelled from the spec: class [Cfg] of chipsec/cfg/common.py is not
    among the sources; the store is "created empty at session start". *)
Definition Cfg_new : Cfg_t := mkCfg ∅ ∅ ∅ ∅ ∅ ∅ ∅ false.

(** The attributes of a [Chipset] object. *)
Module self.
Record t : Type := mk {
  vid : Z; did : Z; rid : Z;
  code : string; longname : string; id : Z;
  pch_vid : Z; pch_did : Z; pch_rid : Z;
  pch_code : string; pch_longname : string; pch_id : Z;
  Cfg : Cfg_t
}.
Definition set_vid (x : Z) (s : t) : t :=
  mk x (did s) (rid s) (code s) (longname s) (id s) (pch_vid s) (pch_did s) (pch_rid s) (pch_code s) (pch_longname s) (pch_id s) (Cfg s).
Definition set_did (x : Z) (s : t) : t :=
  mk (vid s) x (rid s) (code s) (longname s) (id s) (pch_vid s) (pch_did s) (pch_rid s) (pch_code s) (pch_longname s) (pch_id s) (Cfg s).
Definition set_rid (x : Z) (s : t) : t :=
  mk (vid s) (did s) x (code s) (longname s) (id s) (pch_vid s) (pch_did s) (pch_rid s) (pch_code s) (pch_longname s) (pch_id s) (Cfg s).
Definition set_code (x : string) (s : t) : t :=
  mk (vid s) (did s) (rid s) x (longname s) (id s) (pch_vid s) (pch_did s) (pch_rid s) (pch_code s) (pch_longname s) (pch_id s) (Cfg s).
Definition set_longname (x : string) (s : t) : t :=
  mk (vid s) (did s) (rid s) (code s) x (id s) (pch_vid s) (pch_did s) (pch_rid s) (pch_code s) (pch_longname s) (pch_id s) (Cfg s).
Definition set_id (x : Z) (s : t) : t :=
  mk (vid s) (did s) (rid s) (code s) (longname s) x (pch_vid s) (pch_did s) (pch_rid s) (pch_code s) (pch_longname s) (pch_id s) (Cfg s).
Definition set_pch_vid (x : Z) (s : t) : t :=
  mk (vid s) (did s) (rid s) (code s) (longname s) (id s) x (pch_did s) (pch_rid s) (pch_code s) (pch_longname s) (pch_id s) (Cfg s).
Definition set_pch_did (x : Z) (s : t) : t :=
  mk (vid s) (did s) (rid s) (code s) (longname s) (id s) (pch_vid s) x (pch_rid s) (pch_code s) (pch_longname s) (pch_id s) (Cfg s).
Definition set_pch_rid (x : Z) (s : t) : t :=
  mk (vid s) (did s) (rid s) (code s) (longname s) (id s) (pch_vid s) (pch_did s) x (pch_code s) (pch_longname s) (pch_id s) (Cfg s).
Definition set_pch_code (x : string) (s : t) : t :=
  mk (vid s) (did s) (rid s) (code s) (longname s) (id s) (pch_vid s) (pch_did s) (pch_rid s) x (pch_longname s) (pch_id s) (Cfg s).
Definition set_pch_longname (x : string) (s : t) : t :=
  mk (vid s) (did s) (rid s) (code s) (longname s) (id s) (pch_vid s) (pch_did s) (pch_rid s) (pch_code s) x (pch_id s) (Cfg s).
Definition set_pch_id (x : Z) (s : t) : t :=
  mk (vid s) (did s) (rid s) (code s) (longname s) (id s) (pch_vid s) (pch_did s) (pch_rid s) (pch_code s) (pch_longname s) x (Cfg s).
Definition upd_Cfg (f : Cfg_t → Cfg_t) (s : t) : t :=
  mk (vid s) (did s) (rid s) (code s) (longname s) (id s) (pch_vid s) (pch_did s) (pch_rid s) (pch_code s) (pch_longname s) (pch_id s) (f (Cfg s)).
End self.
Abbreviation Chipset := self.t.

(** ** The platform catalog *)

Definition CHIPSET_ID_COMMON : Z := -1.
Definition CHIPSET_ID_UNKNOWN : Z := 0.
Definition CHIPSET_ID_SNB : Z := 1.
Definition CHIPSET_ID_JKT : Z := 2.
Definition CHIPSET_ID_IVB : Z := 3.
Definition CHIPSET_ID_IVT : Z := 4.
Definition CHIPSET_ID_HSW : Z := 5.
Definition CHIPSET_ID_BYT : Z := 6.
Definition CHIPSET_ID_BDW : Z := 7.
Definition CHIPSET_ID_QRK : Z := 8.
Definition CHIPSET_ID_AVN : Z := 9.
Definition CHIPSET_ID_HSX : Z := 10.
Definition CHIPSET_ID_SKL : Z := 11.
Definition CHIPSET_ID_BSW : Z := 12.
Definition CHIPSET_ID_KBL : Z := 13.
Definition CHIPSET_ID_CHT : Z := 14.
Definition CHIPSET_ID_BDX : Z := 15.
Definition CHIPSET_ID_CFL : Z := 16.
Definition CHIPSET_ID_APL : Z := 17.
Definition CHIPSET_ID_DNV : Z := 18.
Definition CHIPSET_ID_WHL : Z := 19.
Definition CHIPSET_ID_SKX : Z := 20.
Definition CHIPSET_CODE_COMMON : string := "COMMON".
Definition CHIPSET_CODE_UNKNOWN : string := "".
Definition CHIPSET_CODE_SNB : string := "SNB".
Definition CHIPSET_CODE_JKT : string := "JKT".
Definition CHIPSET_CODE_IVB : string := "IVB".
Definition CHIPSET_CODE_IVT : string := "IVT".
Definition CHIPSET_CODE_HSW : string := "HSW".
Definition CHIPSET_CODE_BYT : string := "BYT".
Definition CHIPSET_CODE_BDW : string := "BDW".
Definition CHIPSET_CODE_QRK : string := "QRK".
Definition CHIPSET_CODE_AVN : string := "AVN".
Definition CHIPSET_CODE_HSX : string := "HSX".
Definition CHIPSET_CODE_SKL : string := "SKL".
Definition CHIPSET_CODE_BSW : string := "BSW".
Definition CHIPSET_CODE_KBL : string := "KBL".
Definition CHIPSET_CODE_CHT : string := "CHT".
Definition CHIPSET_CODE_BDX : string := "BDX".
Definition CHIPSET_CODE_CFL : string := "CFL".
Definition CHIPSET_CODE_APL : string := "APL".
Definition CHIPSET_CODE_DNV : string := "DNV".
Definition CHIPSET_CODE_WHL : string := "WHL".
Definition CHIPSET_CODE_SKX : string := "SKX".
Definition PCH_ID_1xx : Z := 10001.
Definition PCH_ID_2xx : Z := 10002.
Definition PCH_ID_C620 : Z := 10003.
Definition PCH_ID_C60x : Z := 10004.
Definition PCH_ID_C61x : Z := 10005.
Definition PCH_ID_3xx : Z := 10006.
Definition PCH_CODE_PREFIX : string := "PCH_".
Definition PCH_CODE_1xx : string := "PCH_1XX".
Definition PCH_CODE_2xx : string := "PCH_2XX".
Definition PCH_CODE_3xx : string := "PCH_3XX".
Definition PCH_CODE_C620 : string := "PCH_C620".
Definition PCH_CODE_C60x : string := "PCH_C60X".
Definition PCH_CODE_C61x : string := "PCH_C61X".

Definition VID_INTEL : Z := 0x8086.

(** The revision id in the PCI header; imported from chipsec.hal.pci,
    which is not among the sources. *)
Definition PCI_HDR_RID_OFF : Z := 0x08.

(** An entry of [Chipset_Dictionary] or [pch_dictionary]. *)
Record catalog_entry : Type := mk_entry {
  d_name : string; d_id : Z; d_code : string; d_longname : string
}.

(** A dictionary display [{k1: v1, ...}]: a key written twice keeps its
    first place and takes the later value. *)
Definition dict_of_items {K V} `{Countable K} (items : list (K * V)) : gmap K V :=
  foldl (λ m kv, <[kv.1 := kv.2]> m) ∅ items.

Fixpoint keys_in_order {K} `{EqDecision K} (seen : list K) (l : list K) : list K :=
  match l with
  | [] => []
  | k :: l' =>
      if bool_decide (k ∈ seen) then keys_in_order seen l'
      else k :: keys_in_order (k :: seen) l'
  end.

Definition Chipset_Dictionary_items : list (Z * catalog_entry) := [
  (0x0100, mk_entry "Sandy Bridge" CHIPSET_ID_SNB CHIPSET_CODE_SNB "Desktop 2nd Generation Core Processor (Sandy Bridge CPU / Cougar Point PCH)");
  (0x0104, mk_entry "Sandy Bridge" CHIPSET_ID_SNB CHIPSET_CODE_SNB "Mobile 2nd Generation Core Processor (Sandy Bridge CPU / Cougar Point PCH)");
  (0x0108, mk_entry "Sandy Bridge" CHIPSET_ID_SNB CHIPSET_CODE_SNB "Intel Xeon Processor E3-1200 (Sandy Bridge CPU, C200 Series PCH)");
  (0x3C00, mk_entry "Jaketown" CHIPSET_ID_JKT CHIPSET_CODE_JKT "Server 2nd Generation Core Processor (Jaketown CPU / Patsburg PCH)");
  (0x0150, mk_entry "Ivy Bridge" CHIPSET_ID_IVB CHIPSET_CODE_IVB "Desktop 3rd Generation Core Processor (Ivy Bridge CPU / Panther Point PCH)");
  (0x0154, mk_entry "Ivy Bridge" CHIPSET_ID_IVB CHIPSET_CODE_IVB "Mobile 3rd Generation Core Processor (Ivy Bridge CPU / Panther Point PCH)");
  (0x0158, mk_entry "Ivy Bridge" CHIPSET_ID_IVB CHIPSET_CODE_IVB "Intel Xeon Processor E3-1200 v2 (Ivy Bridge CPU, C200/C216 Series PCH)");
  (0x0E00, mk_entry "Ivytown" CHIPSET_ID_IVT CHIPSET_CODE_IVT "Server 3rd Generation Core Procesor (Ivytown CPU / Patsburg PCH)");
  (0x0C00, mk_entry "Haswell" CHIPSET_ID_HSW CHIPSET_CODE_HSW "Desktop 4th Generation Core Processor (Haswell CPU / Lynx Point PCH)");
  (0x0C04, mk_entry "Haswell" CHIPSET_ID_HSW CHIPSET_CODE_HSW "Mobile 4th Generation Core Processor (Haswell M/H / Lynx Point PCH)");
  (0x0C08, mk_entry "Haswell" CHIPSET_ID_HSW CHIPSET_CODE_HSW "Intel Xeon Processor E3-1200 v3 (Haswell CPU, C220 Series PCH)");
  (0x0D00, mk_entry "Haswell" CHIPSET_ID_HSW CHIPSET_CODE_HSW "Desktop 4th Generation Core Processor (Haswell)");
  (0x0D04, mk_entry "Haswell" CHIPSET_ID_HSW CHIPSET_CODE_HSW "Mobile 4th Generation Core Processor (Haswell)");
  (0x0D08, mk_entry "Haswell" CHIPSET_ID_HSW CHIPSET_CODE_HSW "4th Generation Core Processor (Haswell)");
  (0x0A00, mk_entry "Haswell" CHIPSET_ID_HSW CHIPSET_CODE_HSW "4th Generation Core Processor (Haswell U/Y)");
  (0x0A04, mk_entry "Haswell" CHIPSET_ID_HSW CHIPSET_CODE_HSW "4th Generation Core Processor (Haswell U/Y)");
  (0x0A08, mk_entry "Haswell" CHIPSET_ID_HSW CHIPSET_CODE_HSW "4th Generation Core Processor (Haswell U/Y)");
  (0x1600, mk_entry "Broadwell" CHIPSET_ID_BDW CHIPSET_CODE_BDW "Desktop 5th Generation Core Processor (Broadwell CPU / Wildcat Point PCH)");
  (0x1604, mk_entry "Broadwell" CHIPSET_ID_BDW CHIPSET_CODE_BDW "Mobile 5th Generation Core Processor (Broadwell M/H / Wildcat Point PCH)");
  (0x1610, mk_entry "Broadwell" CHIPSET_ID_BDW CHIPSET_CODE_BDW "Desktop 5th Generation Core Processor (Broadwell H / Wildcat Point PCH)");
  (0x1614, mk_entry "Broadwell" CHIPSET_ID_BDW CHIPSET_CODE_BDW "Mobile 5th Generation Core Processor (Broadwell H / Wildcat Point PCH)");
  (0x1904, mk_entry "Skylake" CHIPSET_ID_SKL CHIPSET_CODE_SKL "Mobile 6th Generation Core Processor (Skylake U)");
  (0x190C, mk_entry "Skylake" CHIPSET_ID_SKL CHIPSET_CODE_SKL "Mobile 6th Generation Core Processor (Skylake Y)");
  (0x1900, mk_entry "Skylake" CHIPSET_ID_SKL CHIPSET_CODE_SKL "Mobile 6th Generation Core Processor Dual Core (Skylake H)");
  (0x1910, mk_entry "Skylake" CHIPSET_ID_SKL CHIPSET_CODE_SKL "Mobile 6th Generation Core Processor Quad Core (Skylake H)");
  (0x190F, mk_entry "Skylake" CHIPSET_ID_SKL CHIPSET_CODE_SKL "Desktop 6th Generation Core Processor Dual Core (Skylake CPU / Sunrise Point PCH)");
  (0x191F, mk_entry "Skylake" CHIPSET_ID_SKL CHIPSET_CODE_SKL "Desktop 6th Generation Core Processor Quad Core (Skylake CPU / Sunrise Point PCH)");
  (0x5900, mk_entry "Kabylake" CHIPSET_ID_KBL CHIPSET_CODE_KBL "Mobile 7th Generation Core Processor (Kabylake H)");
  (0x5904, mk_entry "Kabylake" CHIPSET_ID_KBL CHIPSET_CODE_KBL "Mobile 7th Generation Core Processor (Kabylake U)");
  (0x590C, mk_entry "Kabylake" CHIPSET_ID_KBL CHIPSET_CODE_KBL "Mobile 7th Generation Core Processor (Kabylake Y)");
  (0x590F, mk_entry "Kabylake" CHIPSET_ID_KBL CHIPSET_CODE_KBL "Desktop 7th Generation Core Processor (Kabylake S)");
  (0x5910, mk_entry "Kabylake" CHIPSET_ID_KBL CHIPSET_CODE_KBL "Mobile 7th Generation Core Processor (Kabylake H)");
  (0x5914, mk_entry "Kabylake" CHIPSET_ID_KBL CHIPSET_CODE_KBL "Mobile 8th Generation Core Processor (Kabylake U-Quad Core)");
  (0x591F, mk_entry "Kabylake" CHIPSET_ID_KBL CHIPSET_CODE_KBL "Desktop 7th Generation Core Processor (Kabylake S)");
  (0x5918, mk_entry "Kabylake" CHIPSET_ID_KBL CHIPSET_CODE_KBL "Mobile 7th Generation Core Processor (Kabylake H)");
  (0x3E0F, mk_entry "CoffeeLake" CHIPSET_ID_CFL CHIPSET_CODE_CFL "Desktop 8th Generation Core Processor (CoffeeLake S 2 Cores)");
  (0x3E1F, mk_entry "CoffeeLake" CHIPSET_ID_CFL CHIPSET_CODE_CFL "Desktop 8th Generation Core Processor (Coffeelake S 4 Cores)");
  (0x3EC2, mk_entry "CoffeeLake" CHIPSET_ID_CFL CHIPSET_CODE_CFL "Desktop 8th Generation Core Processor (Coffeelake S 6 Cores)");
  (0x3E30, mk_entry "CoffeeLake" CHIPSET_ID_CFL CHIPSET_CODE_CFL "Desktop 8th Generation Core Processor (CoffeeLake S 8 Cores)");
  (0x3ECC, mk_entry "CoffeeLake" CHIPSET_ID_CFL CHIPSET_CODE_CFL "Desktop 8th Generation Core Processor (CoffeeLake U 2 Cores)");
  (0x3ED0, mk_entry "CoffeeLake" CHIPSET_ID_CFL CHIPSET_CODE_CFL "Desktop 8th Generation Core Processor (CoffeeLake U 4 Cores)");
  (0x3E10, mk_entry "CoffeeLake" CHIPSET_ID_CFL CHIPSET_CODE_CFL "Desktop 8th Generation Core Processor (CoffeeLake H 4 Cores)");
  (0x3EC4, mk_entry "CoffeeLake" CHIPSET_ID_CFL CHIPSET_CODE_CFL "Desktop 8th Generation Core Processor (CoffeeLake H 6 Cores)");
  (0x3E18, mk_entry "CoffeeLake" CHIPSET_ID_CFL CHIPSET_CODE_CFL "Desktop 8th Generation Core Processor (CoffeeLake Workstation 4 Cores)");
  (0x3EC6, mk_entry "CoffeeLake" CHIPSET_ID_CFL CHIPSET_CODE_CFL "Desktop 8th Generation Core Processor (CoffeeLake Workstation 6 Cores)");
  (0x3E31, mk_entry "CoffeeLake" CHIPSET_ID_CFL CHIPSET_CODE_CFL "Desktop 8th Generation Core Processor (CoffeeLake Workstation 8 Cores)");
  (0x3E33, mk_entry "CoffeeLake" CHIPSET_ID_CFL CHIPSET_CODE_CFL "Desktop 8th Generation Core Processor (CoffeeLake Server 4 Cores)");
  (0x3ECA, mk_entry "CoffeeLake" CHIPSET_ID_CFL CHIPSET_CODE_CFL "Desktop 8th Generation Core Processor (CoffeeLake Server 6 Cores)");
  (0x3E32, mk_entry "CoffeeLake" CHIPSET_ID_CFL CHIPSET_CODE_CFL "Desktop 8th Generation Core Processor (CoffeeLake Server 8 Cores)");
  (0x3E34, mk_entry "Whiskey Lake" CHIPSET_ID_WHL CHIPSET_CODE_WHL "Mobile 8th Generation Core Processor (Whiskey Lake U 4 Cores)");
  (0x2F00, mk_entry "Haswell Server" CHIPSET_ID_HSX CHIPSET_CODE_HSX "Server 4th Generation Core Processor (Haswell Server CPU / Wellsburg PCH)");
  (0x1618, mk_entry "Broadwell Server" CHIPSET_ID_BDW CHIPSET_CODE_BDW "Intel Xeon Processor E3 v4 (Broadwell CPU)");
  (0x6F00, mk_entry "Broadwell Server" CHIPSET_ID_BDX CHIPSET_CODE_BDX "Intel Xeon Processor E5/E7 v4 (Broadwell Server CPU / Wellsburg PCH)");
  (0x1918, mk_entry "Skylake Server" CHIPSET_ID_SKL CHIPSET_CODE_SKL "Intel Xeon Processor E3 v5 (Skylake CPU / Sunrise Point PCH)");
  (0x2020, mk_entry "Skylake" CHIPSET_ID_SKX CHIPSET_CODE_SKX "Intel Xeon Processor E5/E7 v5 (Skylake)");
  (0x5918, mk_entry "Kabylake" CHIPSET_ID_KBL CHIPSET_CODE_KBL "Intel Xeon Processor E3 v6 (Kabylake CPU)");
  (0x0F00, mk_entry "Baytrail" CHIPSET_ID_BYT CHIPSET_CODE_BYT "Bay Trail SoC");
  (0x1980, mk_entry "Denverton" CHIPSET_ID_DNV CHIPSET_CODE_DNV "Intel Atom Processor C3000 Product Family");
  (0x1F00, mk_entry "Avoton  " CHIPSET_ID_AVN CHIPSET_CODE_AVN "Intel Avoton");
  (0x1F01, mk_entry "Avoton  " CHIPSET_ID_AVN CHIPSET_CODE_AVN "Intel Avoton");
  (0x1F02, mk_entry "Avoton  " CHIPSET_ID_AVN CHIPSET_CODE_AVN "Intel Avoton");
  (0x1F03, mk_entry "Avoton  " CHIPSET_ID_AVN CHIPSET_CODE_AVN "Intel Avoton");
  (0x1F04, mk_entry "Avoton  " CHIPSET_ID_AVN CHIPSET_CODE_AVN "Intel Avoton");
  (0x1F05, mk_entry "Avoton  " CHIPSET_ID_AVN CHIPSET_CODE_AVN "Intel Avoton");
  (0x1F06, mk_entry "Avoton  " CHIPSET_ID_AVN CHIPSET_CODE_AVN "Intel Avoton");
  (0x1F07, mk_entry "Avoton  " CHIPSET_ID_AVN CHIPSET_CODE_AVN "Intel Avoton");
  (0x1F08, mk_entry "Avoton  " CHIPSET_ID_AVN CHIPSET_CODE_AVN "Intel Avoton");
  (0x1F09, mk_entry "Avoton  " CHIPSET_ID_AVN CHIPSET_CODE_AVN "Intel Avoton");
  (0x1F0A, mk_entry "Avoton  " CHIPSET_ID_AVN CHIPSET_CODE_AVN "Intel Avoton");
  (0x1F0B, mk_entry "Avoton  " CHIPSET_ID_AVN CHIPSET_CODE_AVN "Intel Avoton");
  (0x1F0C, mk_entry "Avoton  " CHIPSET_ID_AVN CHIPSET_CODE_AVN "Intel Avoton");
  (0x1F0D, mk_entry "Avoton  " CHIPSET_ID_AVN CHIPSET_CODE_AVN "Intel Avoton");
  (0x1F0E, mk_entry "Avoton  " CHIPSET_ID_AVN CHIPSET_CODE_AVN "Intel Avoton");
  (0x1F0F, mk_entry "Avoton  " CHIPSET_ID_AVN CHIPSET_CODE_AVN "Intel Avoton");
  (0x2280, mk_entry "Braswell/Cherry Trail" CHIPSET_ID_CHT CHIPSET_CODE_CHT "Braswell/Cherry Trail SoC");
  (0x5AF0, mk_entry "Apollo Lake" CHIPSET_ID_APL CHIPSET_CODE_APL "Apollo Lake");
  (0x0958, mk_entry "Galileo " CHIPSET_ID_QRK CHIPSET_CODE_QRK "Intel Quark SoC X1000")
].

Definition pch_dictionary_items : list (Z * catalog_entry) := [
  (0xA143, mk_entry "H110" PCH_ID_1xx PCH_CODE_1xx "Intel H110 (100 series) PCH");
  (0xA144, mk_entry "H170" PCH_ID_1xx PCH_CODE_1xx "Intel H170 (100 series) PCH");
  (0xA145, mk_entry "Z170" PCH_ID_1xx PCH_CODE_1xx "Intel Z170 (100 series) PCH");
  (0xA146, mk_entry "Q170" PCH_ID_1xx PCH_CODE_1xx "Intel Q170 (100 series) PCH");
  (0xA147, mk_entry "Q150" PCH_ID_1xx PCH_CODE_1xx "Intel Q150 (100 series) PCH");
  (0xA148, mk_entry "B150" PCH_ID_1xx PCH_CODE_1xx "Intel B150 (100 series) PCH");
  (0xA14D, mk_entry "CQM170" PCH_ID_1xx PCH_CODE_1xx "Intel CQM170 (100 series) PCH");
  (0xA14E, mk_entry "HM170" PCH_ID_1xx PCH_CODE_1xx "Intel HM170 (100 series) PCH");
  (0xA150, mk_entry "CM236" PCH_ID_1xx PCH_CODE_1xx "Intel CM236 (100 series) PCH");
  (0xA2C4, mk_entry "H270" PCH_ID_2xx PCH_CODE_2xx "Intel H270 (200 series) PCH");
  (0xA2C5, mk_entry "Z270" PCH_ID_2xx PCH_CODE_2xx "Intel Z270 (200 series) PCH");
  (0xA2C6, mk_entry "Q270" PCH_ID_2xx PCH_CODE_2xx "Intel Q270 (200 series) PCH");
  (0xA2C7, mk_entry "Q250" PCH_ID_2xx PCH_CODE_2xx "Intel Q250 (200 series) PCH");
  (0xA2C8, mk_entry "B250" PCH_ID_2xx PCH_CODE_2xx "Intel B250 (200 series) PCH");
  (0xA2C9, mk_entry "Z370" PCH_ID_2xx PCH_CODE_2xx "Intel Z370 (200 series) PCH");
  (0xA2D2, mk_entry "X299" PCH_ID_2xx PCH_CODE_2xx "Intel X299 (200 series) PCH");
  (0xA306, mk_entry "Q370" PCH_ID_3xx PCH_CODE_3xx "Intel Q370 (300 series) PCH");
  (0xA304, mk_entry "H370" PCH_ID_3xx PCH_CODE_3xx "Intel H370 (300 series) PCH");
  (0xA305, mk_entry "Z390" PCH_ID_3xx PCH_CODE_3xx "Intel Z390 (300 series) PCH");
  (0xA308, mk_entry "B360" PCH_ID_3xx PCH_CODE_3xx "Intel B360 (300 series) PCH");
  (0xA303, mk_entry "H310" PCH_ID_3xx PCH_CODE_3xx "Intel H310 (300 series) PCH");
  (0xA30A, mk_entry "C242" PCH_ID_3xx PCH_CODE_3xx "Intel C242 (300 series) PCH");
  (0xA309, mk_entry "C246" PCH_ID_3xx PCH_CODE_3xx "Intel C246 (300 series) PCH");
  (0xA30D, mk_entry "HM370" PCH_ID_3xx PCH_CODE_3xx "Intel HM370 (300 series) PCH");
  (0xA30C, mk_entry "QM370" PCH_ID_3xx PCH_CODE_3xx "Intel QM370 (300 series) PCH");
  (0xA30E, mk_entry "CM246" PCH_ID_3xx PCH_CODE_3xx "Intel CM246 (300 series) PCH");
  (0x9D84, mk_entry "PCH-U" PCH_ID_3xx PCH_CODE_3xx "Intel 300 series On-Package PCH");
  (0x1D41, mk_entry "C600" PCH_ID_C60x PCH_CODE_C60x "Intel C600/X79 series PCH");
  (0x8D40, mk_entry "C610" PCH_ID_C61x PCH_CODE_C61x "Intel Wellsburg (C610/X99 series) PCH");
  (0x8D44, mk_entry "C610-G" PCH_ID_C61x PCH_CODE_C61x "Intel Wellsburg-G (C610/X99 series) PCH");
  (0x8D47, mk_entry "C610-X" PCH_ID_C61x PCH_CODE_C61x "Intel Wellsburg-X (C610/X99 series) PCH");
  (0xA1C1, mk_entry "C621" PCH_ID_C620 PCH_CODE_C620 "Intel C621 (C620 series) PCH");
  (0xA1C2, mk_entry "C622" PCH_ID_C620 PCH_CODE_C620 "Intel C622 (C620 series) PCH");
  (0xA1C3, mk_entry "C624" PCH_ID_C620 PCH_CODE_C620 "Intel C624 (C620 series) PCH");
  (0xA1C4, mk_entry "C625" PCH_ID_C620 PCH_CODE_C620 "Intel C625 (C620 series) PCH");
  (0xA1C5, mk_entry "C626" PCH_ID_C620 PCH_CODE_C620 "Intel C626 (C620 series) PCH");
  (0xA1C6, mk_entry "C627" PCH_ID_C620 PCH_CODE_C620 "Intel C627 (C620 series) PCH");
  (0xA1C7, mk_entry "C628" PCH_ID_C620 PCH_CODE_C620 "Intel C628 (C620 series) PCH");
  (0xA242, mk_entry "C624" PCH_ID_C620 PCH_CODE_C620 "Intel C624 (C620 series) PCH");
  (0xA243, mk_entry "C627" PCH_ID_C620 PCH_CODE_C620 "Intel C627 (C620 series) PCH");
  (0xA244, mk_entry "C621" PCH_ID_C620 PCH_CODE_C620 "Intel C621 (C620 series) PCH");
  (0xA245, mk_entry "C627" PCH_ID_C620 PCH_CODE_C620 "Intel C627 (C620 series) PCH");
  (0xA246, mk_entry "C628" PCH_ID_C620 PCH_CODE_C620 "Intel C628 (C620 series) PCH")
].

Definition Chipset_Dictionary : gmap Z catalog_entry :=
  dict_of_items Chipset_Dictionary_items.
Definition pch_dictionary : gmap Z catalog_entry :=
  dict_of_items pch_dictionary_items.

(** [dict([(D[_did]['code'], _did) for _did in D])]. *)
Definition codes_of (items : list (Z * catalog_entry)) : gmap string Z :=
  dict_of_items
    (omap (λ _did, e ← dict_of_items items !! _did; Some (d_code e, _did))
          (keys_in_order [] items.*1)).

Definition Chipset_Code : gmap string Z := codes_of Chipset_Dictionary_items.
Definition pch_codes : gmap string Z := codes_of pch_dictionary_items.

(** ** Platform identification *)

(** [detect_platform]: each [try] block keeps the assignments made before
    the failing read, so a failure of the revision read leaves the ids just
    read and the initial revision [0xFF]. *)
Definition detect_platform : M Chipset (Z * Z * Z * Z * Z * Z) :=
  '(vid, did, rid) ←
    try_except
      (vid_did ← call (pci_read_dword 0 0 0 0);
       let vid := Z.land vid_did 0xFFFF in
       let did := Z.land (Z.shiftr vid_did 16) 0xFFFF in
       try_except
         (rid ← call (pci_read_byte 0 0 0 PCI_HDR_RID_OFF); ret (vid, did, rid))
         (λ _, ret (vid, did, 0xFF)))
      (λ _, ret (0xFFFF, 0xFFFF, 0xFF));
  '(pch_vid, pch_did, pch_rid) ←
    try_except
      (vid_did ← call (pci_read_dword 0 31 0 0);
       let pch_vid := Z.land vid_did 0xFFFF in
       let pch_did := Z.land (Z.shiftr vid_did 16) 0xFFFF in
       try_except
         (pch_rid ← call (pci_read_byte 0 31 0 PCI_HDR_RID_OFF);
          ret (pch_vid, pch_did, pch_rid))
         (λ _, ret (pch_vid, pch_did, 0xFF)))
      (λ _, ret (0xFFFF, 0xFFFF, 0xFF));
  ret (vid, did, rid, pch_vid, pch_did, pch_rid).

(** ** Loading the configuration documents *)

(** The six categories filled from the documents. *)
Inductive category : Type :=
  | cat_CONFIG_PCI | cat_MMIO_BARS | cat_IO_BARS
  | cat_MEMORY_RANGES | cat_REGISTERS | cat_CONTROLS.

Definition cat_get (c : category) (cfg : Cfg_t) : gmap string (gmap string pyval) :=
  match c with
  | cat_CONFIG_PCI => CONFIG_PCI cfg
  | cat_MMIO_BARS => MMIO_BARS cfg
  | cat_IO_BARS => IO_BARS cfg
  | cat_MEMORY_RANGES => MEMORY_RANGES cfg
  | cat_REGISTERS => REGISTERS cfg
  | cat_CONTROLS => CONTROLS cfg
  end.

Definition cat_upd (c : category)
    (f : gmap string (gmap string pyval) → gmap string (gmap string pyval))
    (cfg : Cfg_t) : Cfg_t :=
  match c with
  | cat_CONFIG_PCI => upd_CONFIG_PCI f cfg
  | cat_MMIO_BARS => upd_MMIO_BARS f cfg
  | cat_IO_BARS => upd_IO_BARS f cfg
  | cat_MEMORY_RANGES => upd_MEMORY_RANGES f cfg
  | cat_REGISTERS => upd_REGISTERS f cfg
  | cat_CONTROLS => upd_CONTROLS f cfg
  end.

(** An element of a document is named by the child indices that lead to
    it from the root; the loader changes attributes in place, so the tree
    is part of its state. *)
Definition path : Type := list nat.

Definition el_tag (e : Element) : string := match e with Elem t _ _ => t end.
Definition el_attrib (e : Element) : gmap string pyval :=
  match e with Elem _ a _ => a end.
Definition el_children (e : Element) : list Element :=
  match e with Elem _ _ cs => cs end.

Fixpoint subelement (p : path) (e : Element) : option Element :=
  match p with
  | [] => Some e
  | i :: p' => c ← el_children e !! i; subelement p' c
  end.

Fixpoint upd_attrib (f : gmap string pyval → gmap string pyval)
    (p : path) (e : Element) : Element :=
  match p with
  | [] => Elem (el_tag e) (f (el_attrib e)) (el_children e)
  | i :: p' => Elem (el_tag e) (el_attrib e) (alter (upd_attrib f p') i (el_children e))
  end.

(** [e.iter(tag)]: the element itself and all elements below it, in
    document order, that carry the tag. *)
Fixpoint iter (tag : string) (e : Element) : list path :=
  match e with
  | Elem t _ cs =>
      (if String.eqb t tag then [[]] else []) ++
      (fix go (i : nat) (cs : list Element) : list path :=
         match cs with
         | [] => []
         | c :: cs' => (cons i <$> iter tag c) ++ go (S i) cs'
         end) 0%nat cs
  end.

(** [e.find(tag)] for a plain tag: the first child that carries it. *)
Definition find (tag : string) (e : Element) : option Element :=
  List.find (λ c, String.eqb (el_tag c) tag) (el_children e).

(** The state while one document is loaded: its tree and the object. *)
Definition Doc : Type := Element * Chipset.

Definition with_tree {A} (root : Element) (m : M Doc A) : M Chipset A :=
  λ s, prog_bind (m (root, s)) (λ rs, Ret (rs.1, rs.2.2)).

(** [_x.attrib] of the element at [p]. *)
Definition attrib_at (p : path) : M Doc (gmap string pyval) :=
  gets (λ ts : Doc, default ∅ (el_attrib <$> subelement p ts.1)).

Definition element_at (p : path) : M Doc Element :=
  gets (λ ts : Doc, default (Elem "" ∅ []) (subelement p ts.1)).

Definition modify_attrib (p : path) (f : gmap string pyval → gmap string pyval)
  : M Doc unit :=
  modify (λ ts : Doc, (upd_attrib f p ts.1, ts.2)).

Definition modify_category (c : category)
    (f : gmap string (gmap string pyval) → gmap string (gmap string pyval))
  : M Doc unit :=
  modify (λ ts : Doc, (ts.1, self.upd_Cfg (cat_upd c f) ts.2)).

(** A name used as a key of the store; the parser yields string
    attributes only. *)
Definition as_str (v : pyval) : result string :=
  match v with PStr s => Ok s | _ => Exc TypeError end.

Definition as_dict (v : pyval) : result (gmap string pyval) :=
  match v with PDict d => Ok d | _ => Exc TypeError end.

(** The body of [for _field in _register.iter('field')]. *)
Definition load_field (q : path) (reg_fields : gmap string pyval)
  : M Doc (gmap string pyval) :=
  a ← attrib_at q;
  _field_name ← lift (Py.getitem a "name" ≫= as_str);
  modify_attrib q (delete "name");;
  a ← attrib_at q;
  (if bool_decide ("desc" ∈ dom a) then ret tt
   else modify_attrib q <["desc" := PStr ""]>);;
  a ← attrib_at q;
  ret (<[_field_name := PDict a]> reg_fields).

Fixpoint load_fields (p : path) (qs : list path) (reg_fields : gmap string pyval)
  : M Doc (gmap string pyval) :=
  match qs with
  | [] => ret reg_fields
  | q :: qs' => reg_fields ← load_field (p ++ q) reg_fields; load_fields p qs' reg_fields
  end.

(** The defaults and the ['FIELDS'] entry that a register gets before it
    is stored. *)
Definition complete_register (p : path) : M Doc unit :=
  a ← attrib_at p;
  (if bool_decide ("size" ∈ dom a) then ret tt
   else modify_attrib p <["size" := PStr "0x4"]>);;
  a ← attrib_at p;
  (if bool_decide ("desc" ∈ dom a) then ret tt
   else modify_attrib p <["desc" := PStr ""]>);;
  _register ← element_at p;
  match find "field" _register with
  | Some _ =>
      reg_fields ← load_fields p (iter "field" _register) ∅;
      modify_attrib p <["FIELDS" := PDict reg_fields]>
  | None => ret tt
  end.

(** The body shared by the six entry loops of [init_cfg_xml]; only the
    register loop completes the entry before it stores it. *)
Definition load_entry (c : category) (p : path) : M Doc unit :=
  a ← attrib_at p;
  _name ← lift (Py.getitem a "name" ≫= as_str);
  modify_attrib p (delete "name");;
  a ← attrib_at p;
  if bool_decide ("undef" ∈ dom a) then
    modify_category c (delete _name)
  else
    (match c with cat_REGISTERS => complete_register p | _ => ret tt end);;
    a ← attrib_at p;
    modify_category c <[_name := a]>.

(** [for _g in _cfg.iter(group): for _e in _g.iter(entry): ...]. *)
Definition load_group (c : category) (group entry : string) (pc : path)
  : M Doc unit :=
  _cfg ← element_at pc;
  for_each (iter group _cfg) (λ pg,
    _g ← element_at (pc ++ pg);
    for_each (iter entry _g) (λ pe, load_entry c (pc ++ pg ++ pe))).

(** Whether a [configuration] section applies to the platform. *)
Definition section_applies (code pch_code : string) (a : gmap string pyval)
  : result bool :=
  match a !! "platform" with
  | None => Ok true
  | Some v =>
      pl ← as_str v;
      Ok (String.eqb code (Py.lower pl) || String.eqb pch_code (Py.lower pl))
  end.

Definition load_section (code pch_code : string) (pc : path) : M Doc unit :=
  a ← attrib_at pc;
  applies ← lift (section_applies code pch_code a);
  if applies then
    load_group cat_CONFIG_PCI "pci" "device" pc;;
    load_group cat_MMIO_BARS "mmio" "bar" pc;;
    load_group cat_IO_BARS "io" "bar" pc;;
    load_group cat_MEMORY_RANGES "memory" "range" pc;;
    load_group cat_REGISTERS "registers" "register" pc;;
    load_group cat_CONTROLS "controls" "control" pc
  else ret tt.

Definition init_cfg_xml (fxml code pch_code : string) : M Chipset unit :=
  there ← call (os_path_exists fxml);
  if there then
    root ← call (ET_parse fxml);
    with_tree root
      (for_each (iter "configuration" root) (load_section code pch_code))
  else ret tt.

(** ** Bus resolution *)

(** The keys of a dictionary as a [for] loop visits them.  Python visits
    them in the order of their insertion, which a [gmap] does not record:
    the keys come here in the order of the map.  What is proved of a loop
    over the keys either does not depend on the order, or is proved of the
    loop for every order of visit ([init_cfg_bus_visiting]). *)
Definition dict_keys {V} (d : gmap string V) : list string := (map_to_list d).*1.

(** The inner loop of [init_cfg_bus]: the buses of the enumerated devices
    that match the declared device, function, vendor and device ids. *)
Fixpoint matching_buses (device_data : gmap string pyval) (xml_vid : pyval)
    (did_list : list Z) (enum_devices : list (Z * Z * Z * Z * Z))
    (bus_list : list pyval) : result (list pyval) :=
  match enum_devices with
  | [] => Ok bus_list
  | (b, d, f, v, di) :: rest =>
      dev ← Py.getitem device_data "dev" ≫= Py.int16;
      fn ← Py.getitem device_data "fun" ≫= Py.int16;
      vid ← Py.int16 xml_vid;
      if (dev =? d) && (fn =? f) && (vid =? v) && bool_decide (di ∈ did_list)
      then matching_buses device_data xml_vid did_list rest
             (bus_list ++ [PStr (Py.hex b)])
      else matching_buses device_data xml_vid did_list rest bus_list
  end.

(** The body of [for config_device in self.Cfg.CONFIG_PCI]. *)
Definition init_cfg_bus_device (enum_devices : list (Z * Z * Z * Z * Z))
    (config_device : string) : M Chipset unit :=
  s ← get;
  device_data ← lift (Py.getitem (CONFIG_PCI (self.Cfg s)) config_device);
  let xml_vid := device_data !! "vid" in
  let xml_did := device_data !! "did" in
  if Py.truthy xml_vid && Py.truthy xml_did then
    dids ← lift (match xml_did with
                 | Some (PStr x) => Ok (Py.split "," x)
                 | _ => Exc AttributeError
                 end);
    did_list ← lift (map_result (λ x, Py.int16 (PStr x)) dids);
    bus_list ← lift (matching_buses device_data (default (PStr "") xml_vid)
                       did_list enum_devices []);
    if bool_decide (bus_list = []) then ret tt
    else modify (self.upd_Cfg (upd_BUS <[config_device := bus_list]>))
  else ret tt.

Definition init_cfg_bus : M Chipset unit :=
  enum_devices ← try_except (call pci_enumerate_devices) (λ _, ret []);
  s ← get;
  for_each (dict_keys (CONFIG_PCI (self.Cfg s))) (init_cfg_bus_device enum_devices).

(** ** Choosing and ordering the documents *)

Definition matches (x pat : string) : bool := Py.fnmatch (Py.basename x) pat.

(** The list [platform_files] of [init_xml_configuration]. *)
Definition platform_files (_cfg_files : list string) : list string :=
  mjoin ((λ plat,
            List.filter
              (λ x, matches x (plat +:+ "*.xml")
                    || Py.startswith (Py.basename x) (Py.lower PCH_CODE_PREFIX))
              _cfg_files)
         <$> (Py.lower <$> dict_keys Chipset_Code)).

(** The list [loaded_files] of [init_xml_configuration] when its loops
    have run. *)
Definition loaded_files (code pch_code : string) (_cfg_files : list string)
  : list string :=
  let common := List.filter (λ x, matches x "common*.xml") _cfg_files in
  let loaded1 :=
    if negb (String.eqb code "") && negb (String.eqb CHIPSET_CODE_UNKNOWN code)
    then common ++ List.filter (λ x, matches x (code +:+ "*.xml")) _cfg_files
    else common in
  let loaded2 :=
    if negb (String.eqb pch_code "") && negb (String.eqb CHIPSET_CODE_UNKNOWN pch_code)
    then loaded1 ++ List.filter (λ x, matches x (pch_code +:+ "*.xml")) _cfg_files
    else loaded1 in
  loaded2 ++
  List.filter
    (λ x, negb (bool_decide (x ∈ loaded2))
          && negb (bool_decide (x ∈ platform_files _cfg_files)))
    _cfg_files.

(** The sorted list of the [*.xml] files below the configuration
    directory. *)
Definition cfg_files_of (walk : list (string * list string)) : list string :=
  merge_sort String.le
    (mjoin ((λ rf : string * list string,
               Py.path_join rf.1 <$> List.filter (λ x, Py.fnmatch x "*.xml") rf.2)
            <$> walk)).

Definition init_xml_configuration : M Chipset unit :=
  walk ← call os_walk_cfg;
  let _cfg_files := cfg_files_of walk in
  s ← get;
  for_each (loaded_files (self.code s) (self.pch_code s) _cfg_files)
    (λ _xml, s ← get; init_cfg_xml _xml (self.code s) (self.pch_code s));;
  init_cfg_bus;;
  modify (self.upd_Cfg (upd_XML_CONFIG_LOADED (λ _, true))).

(** [init_cfg]: the platform module, when there is one, replaces the
    store; only an [ImportError] of that step is caught.  Whatever the XML
    loading raises is dropped. *)
Definition init_cfg : M Chipset unit :=
  s ← get;
  (if negb (String.eqb (self.code s) "") then
     try_except
       (new_cfg ← call (import_cfg (self.code s));
        modify (self.upd_Cfg (λ _, new_cfg)))
       (λ e, match e with External ImportError => ret tt | _ => raise e end)
   else ret tt);;
  try_except init_xml_configuration (λ _, ret tt).

(** [init]: the arguments [driver_exists], [to_file] and [from_file] are
    only handed to the helper and are left out. *)
Definition init (platform_code req_pch_code : option string) (start_driver : bool)
  : M Chipset unit :=
  call (helper_start start_driver);;
  call helper_use_native_api;;
  '(v, d, r, pv, pd, pr) ← detect_platform;
  modify (λ s, self.set_pch_rid pr (self.set_pch_did pd (self.set_pch_vid pv
               (self.set_rid r (self.set_did d (self.set_vid v s))))));;
  _unknown_platform ←
    match platform_code with
    | None => s ← get; ret (negb (VID_INTEL =? self.vid s))
    | Some pc =>
        modify (self.set_vid VID_INTEL);;
        match Chipset_Code !! pc with
        | Some d' => modify (self.set_did d');; modify (self.set_rid 0x00);; ret false
        | None =>
            modify (self.set_vid 0xFFFF);; modify (self.set_did 0xFFFF);;
            modify (self.set_rid 0xFF);; ret true
        end
    end;
  s ← get;
  _unknown_platform ←
    match Chipset_Dictionary !! self.did s with
    | Some data_dict =>
        modify (self.set_code (Py.lower (d_code data_dict)));;
        modify (self.set_longname (d_longname data_dict));;
        modify (self.set_id (d_id data_dict));;
        ret _unknown_platform
    | None => modify (self.set_longname "UnknownPlatform");; ret true
    end;
  match req_pch_code with
  | None => ret tt
  | Some rc =>
      modify (self.set_pch_vid VID_INTEL);;
      match pch_codes !! rc with
      | Some d' => modify (self.set_pch_did d');; modify (self.set_pch_rid 0x00)
      | None =>
          modify (self.set_pch_vid 0xFFFF);; modify (self.set_pch_did 0xFFFF);;
          modify (self.set_pch_rid 0xFF)
      end
  end;;
  s ← get;
  match (if self.pch_vid s =? VID_INTEL then pch_dictionary !! self.pch_did s
         else None) with
  | Some data_dict =>
      modify (self.set_pch_code (Py.lower (d_code data_dict)));;
      modify (self.set_pch_longname (d_longname data_dict));;
      modify (self.set_pch_id (d_id data_dict))
  | None => modify (self.set_pch_longname "Default PCH")
  end;;
  init_cfg;;
  if _unknown_platform && start_driver then
    s ← get; raise (UnknownChipsetError (self.vid s) (self.did s) (self.rid s))
  else ret tt.

(** The object built by [Chipset.__init__]. *)
Definition Chipset_new : Chipset :=
  self.mk 0xFFFF 0xFFFF 0xFF CHIPSET_CODE_UNKNOWN "Unrecognized Platform"
    CHIPSET_ID_UNKNOWN 0xFFFF 0xFFFF 0xFF CHIPSET_CODE_UNKNOWN "Unrecognized PCH"
    CHIPSET_ID_UNKNOWN Cfg_new.

(** ** Register access *)

Module RegisterType.
Definition PCICFG : string := "pcicfg".
Definition MMCFG : string := "mmcfg".
Definition MMIO : string := "mmio".
Definition MSR : string := "msr".
Definition PORTIO : string := "io".
Definition IOBAR : string := "iobar".
Definition MSGBUS : string := "msgbus".
Definition MM_MSGBUS : string := "mm_msgbus".
End RegisterType.

(** [v == s] for a string constant [s]. *)
Definition str_eq (v : pyval) (s : string) : bool :=
  match v with PStr x => String.eqb x s | _ => false end.

(** [k in d] and [d[k]] for a key read from an attribute: a string may be
    a key of the store, a dictionary cannot be hashed. *)
Definition lookup_val {V} (d : gmap string V) (k : pyval) : result (option V) :=
  match k with
  | PStr x => Ok (d !! x)
  | PInt _ => Ok None
  | PDict _ => Exc TypeError
  end.

(** [reg_def[key] = v] where [reg_def] is the object stored under
    [reg_name]: the assignment changes the store. *)
Definition reg_setitem (reg_name key : string) (v : pyval) : M Chipset unit :=
  modify (self.upd_Cfg (upd_REGISTERS (alter <[key := v]> reg_name))).

Definition get_register_def (reg_name : string) (bus_index : Z)
  : M Chipset (gmap string pyval) :=
  s ← get;
  reg_def ← lift (Py.getitem (REGISTERS (self.Cfg s)) reg_name);
  ty ← lift (Py.getitem reg_def "type");
  (if (str_eq ty "pcicfg" || str_eq ty "mmcfg") && bool_decide ("device" ∈ dom reg_def)
   then
     dev_name ← lift (Py.getitem reg_def "device");
     found ← lift (lookup_val (CONFIG_PCI (self.Cfg s)) dev_name);
     match found with
     | Some dev =>
         b ← lift (Py.getitem dev "bus"); reg_setitem reg_name "bus" b;;
         d ← lift (Py.getitem dev "dev"); reg_setitem reg_name "dev" d;;
         f ← lift (Py.getitem dev "fun"); reg_setitem reg_name "fun" f;;
         bound ← lift (lookup_val (BUS (self.Cfg s)) dev_name);
         match bound with
         | Some buses =>
             if bus_index <? Z.of_nat (length buses) then
               b' ← lift (Py.list_getitem buses bus_index);
               reg_setitem reg_name "bus" b'
             else ret tt
         | None => ret tt
         end
     | None => ret tt
     end
   else ret tt);;
  s ← get;
  lift (Py.getitem (REGISTERS (self.Cfg s)) reg_name).

(** [int(reg[key], 16)]. *)
Definition int16_of {S} (reg : gmap string pyval) (key : string) : M S Z :=
  lift (Py.getitem reg key ≫= Py.int16).

Definition read_register (reg_name : string) (cpu_thread bus_index : Z)
  : M Chipset Z :=
  reg ← get_register_def reg_name bus_index;
  rtype ← lift (Py.getitem reg "type");
  if str_eq rtype RegisterType.PCICFG then
    b ← int16_of reg "bus";
    d ← int16_of reg "dev";
    f ← int16_of reg "fun";
    o ← int16_of reg "offset";
    size ← int16_of reg "size";
    if size =? 1 then call (pci_read_byte b d f o)
    else if size =? 2 then call (pci_read_word b d f o)
    else if size =? 4 then call (pci_read_dword b d f o)
    else if size =? 8 then
      hi ← call (pci_read_dword b d f (o + 4));
      lo ← call (pci_read_dword b d f o);
      ret (Z.lor (Z.shiftl hi 32) lo)
    else ret 0
  else if str_eq rtype RegisterType.MMCFG then
    b ← int16_of reg "bus";
    d ← int16_of reg "dev";
    f ← int16_of reg "fun";
    o ← int16_of reg "offset";
    size ← int16_of reg "size";
    call (mmio_read_mmcfg_reg b d f o size)
  else if str_eq rtype RegisterType.MMIO then
    bar ← lift (Py.getitem reg "bar");
    o ← int16_of reg "offset";
    size ← int16_of reg "size";
    call (mmio_read_MMIO_BAR_reg bar o size)
  else if str_eq rtype RegisterType.MSR then
    msr ← int16_of reg "msr";
    '(eax, edx) ← call (msr_read_msr cpu_thread msr);
    ret (Z.lor (Z.shiftl edx 32) eax)
  else if str_eq rtype RegisterType.PORTIO then
    port ← int16_of reg "port";
    size ← int16_of reg "size";
    call (io_read_port port size)
  else if str_eq rtype RegisterType.IOBAR then
    bar ← lift (Py.getitem reg "bar");
    o ← int16_of reg "offset";
    size ← int16_of reg "size";
    call (iobar_read_IO_BAR_reg bar o size)
  else if str_eq rtype RegisterType.MSGBUS then
    port ← int16_of reg "port";
    o ← int16_of reg "offset";
    call (msgbus_reg_read port o)
  else if str_eq rtype RegisterType.MM_MSGBUS then
    port ← int16_of reg "port";
    o ← int16_of reg "offset";
    call (mm_msgbus_reg_read port o)
  else raise (RegisterTypeNotFoundError rtype).

Definition write_register (reg_name : string) (reg_value : Z)
    (cpu_thread bus_index : Z) : M Chipset unit :=
  reg ← get_register_def reg_name bus_index;
  rtype ← lift (Py.getitem reg "type");
  if str_eq rtype RegisterType.PCICFG then
    b ← int16_of reg "bus";
    d ← int16_of reg "dev";
    f ← int16_of reg "fun";
    o ← int16_of reg "offset";
    size ← int16_of reg "size";
    if size =? 1 then call (pci_write_byte b d f o reg_value)
    else if size =? 2 then call (pci_write_word b d f o reg_value)
    else if size =? 4 then call (pci_write_dword b d f o reg_value)
    else if size =? 8 then
      call (pci_write_dword b d f o (Z.land reg_value 0xFFFFFFFF));;
      call (pci_write_dword b d f (o + 4)
              (Z.land (Z.shiftr reg_value 32) 0xFFFFFFFF))
    else ret tt
  else if str_eq rtype RegisterType.MMCFG then
    b ← int16_of reg "bus";
    d ← int16_of reg "dev";
    f ← int16_of reg "fun";
    o ← int16_of reg "offset";
    size ← int16_of reg "size";
    call (mmio_write_mmcfg_reg b d f o size reg_value)
  else if str_eq rtype RegisterType.MMIO then
    bar ← lift (Py.getitem reg "bar");
    o ← int16_of reg "offset";
    size ← int16_of reg "size";
    call (mmio_write_MMIO_BAR_reg bar o reg_value size)
  else if str_eq rtype RegisterType.MSR then
    let eax := Z.land reg_value 0xFFFFFFFF in
    let edx := Z.land (Z.shiftr reg_value 32) 0xFFFFFFFF in
    msr ← int16_of reg "msr";
    call (msr_write_msr cpu_thread msr eax edx)
  else if str_eq rtype RegisterType.PORTIO then
    port ← int16_of reg "port";
    size ← int16_of reg "size";
    call (io_write_port port reg_value size)
  else if str_eq rtype RegisterType.IOBAR then
    bar ← lift (Py.getitem reg "bar");
    o ← int16_of reg "offset";
    size ← int16_of reg "size";
    call (iobar_write_IO_BAR_reg bar o size reg_value)
  else if str_eq rtype RegisterType.MSGBUS then
    port ← int16_of reg "port";
    o ← int16_of reg "offset";
    call (msgbus_reg_write port o reg_value)
  else if str_eq rtype RegisterType.MM_MSGBUS then
    port ← int16_of reg "port";
    o ← int16_of reg "offset";
    call (mm_msgbus_reg_write port o reg_value)
  else raise (RegisterTypeNotFoundError rtype).

(** [d[k][key] = v] for a dictionary stored under [k] in [d]. *)
Definition alter_dict (g : gmap string pyval → gmap string pyval) (k : string)
    (d : gmap string pyval) : gmap string pyval :=
  alter (λ v, match v with PDict x => PDict (g x) | _ => v end) k d.

(** [result['FIELDS'][f][key] = v] where [result] is the object stored
    under [reg_name]. *)
Definition field_setitem (reg_name f key : string) (v : pyval) : M Chipset unit :=
  modify (self.upd_Cfg (upd_REGISTERS
            (alter (alter_dict (alter_dict <[key := v]> f) "FIELDS") reg_name))).

(** [int(reg_def['FIELDS'][f][key])], read from the stored object. *)
Definition field_attr_int (reg_name f key : string) : M Chipset Z :=
  s ← get;
  lift (reg_def ← Py.getitem (REGISTERS (self.Cfg s)) reg_name;
        fields ← Py.getitem reg_def "FIELDS" ≫= as_dict;
        field_attrs ← Py.getitem fields f ≫= as_dict;
        Py.getitem field_attrs key ≫= Py.int10).

(** [for i in range(field_size): field_mask = (field_mask << 1) | 1]. *)
Definition field_mask_loop (field_size : Z) : Z :=
  Nat.iter (Z.to_nat field_size) (λ field_mask, Z.lor (Z.shiftl field_mask 1) 1) 0.

(** What [for f in reg_def['FIELDS']] visits: the keys of a dictionary;
    an empty string has nothing to visit, the characters of another string
    cannot index it, and an integer cannot be iterated. *)
Definition field_names (v : pyval) : result (list string) :=
  match v with
  | PDict d => Ok (dict_keys d)
  | PStr s => if String.eqb s "" then Ok [] else Exc TypeError
  | PInt _ => Exc TypeError
  end.

Definition read_register_dict (reg_name : string) : M Chipset (gmap string pyval) :=
  reg_value ← read_register reg_name 0 0;
  reg_def ← get_register_def reg_name 0;
  reg_setitem reg_name "value" (PInt reg_value);;
  names ← lift (Py.getitem reg_def "FIELDS" ≫= field_names);
  for_each names (λ f,
    field_bit ← field_attr_int reg_name f "bit";
    field_setitem reg_name f "bit" (PInt field_bit);;
    field_size ← field_attr_int reg_name f "size";
    field_setitem reg_name f "size" (PInt field_size);;
    let field_mask := field_mask_loop field_size in
    shifted ← lift (Py.shr reg_value field_bit);
    field_setitem reg_name f "value" (PInt (Z.land shifted field_mask)));;
  s ← get;
  lift (Py.getitem (REGISTERS (self.Cfg s)) reg_name).

(** [self.get_register_def(reg_name)['FIELDS'][field_name]]. *)
Definition field_attrs_of (reg_name field_name : string)
  : M Chipset (gmap string pyval) :=
  reg_def ← get_register_def reg_name 0;
  lift (fields ← Py.getitem reg_def "FIELDS" ≫= as_dict;
        Py.getitem fields field_name ≫= as_dict).

Definition get_register_field (reg_name : string) (reg_value : Z)
    (field_name : string) (preserve_field_position : bool) : M Chipset Z :=
  field_attrs ← field_attrs_of reg_name field_name;
  field_bit ← lift (Py.getitem field_attrs "bit" ≫= Py.int10);
  field_size ← lift (Py.getitem field_attrs "size" ≫= Py.int10);
  one ← lift (Py.shl 1 field_size);
  let field_mask := one - 1 in
  if preserve_field_position then
    m ← lift (Py.shl field_mask field_bit);
    ret (Z.land reg_value m)
  else
    v ← lift (Py.shr reg_value field_bit);
    ret (Z.land v field_mask).

Definition set_register_field (reg_name : string) (reg_value : Z)
    (field_name : string) (field_value : Z) (preserve_field_position : bool)
  : M Chipset Z :=
  field_attrs ← field_attrs_of reg_name field_name;
  field_bit ← lift (Py.getitem field_attrs "bit" ≫= Py.int10);
  field_size ← lift (Py.getitem field_attrs "size" ≫= Py.int10);
  one ← lift (Py.shl 1 field_size);
  let field_mask := one - 1 in
  m ← lift (Py.shl field_mask field_bit);
  let reg_value := Z.land reg_value (Z.lnot m) in
  if preserve_field_position then
    m ← lift (Py.shl field_mask field_bit);
    ret (Z.lor reg_value (Z.land field_value m))
  else
    v ← lift (Py.shl (Z.land field_value field_mask) field_bit);
    ret (Z.lor reg_value v).

Definition read_register_field (reg_name field_name : string)
    (preserve_field_position : bool) (cpu_thread : Z) : M Chipset Z :=
  reg_value ← read_register reg_name cpu_thread 0;
  get_register_field reg_name reg_value field_name preserve_field_position.

Definition write_register_field (reg_name field_name : string) (field_value : Z)
    (preserve_field_position : bool) (cpu_thread : Z) : M Chipset unit :=
  reg_value ← read_register reg_name cpu_thread 0;
  reg_value_new ← set_register_field reg_name reg_value field_name field_value
                    preserve_field_position;
  write_register reg_name reg_value_new cpu_thread 0.

(** [get_control] with [with_print] at its default 0, which skips the
    logging call.  The register is read by [self.read_register(reg)]:
    [cpu_thread] is not handed on. *)
Definition get_control (control_name : string) (cpu_thread : Z) : M Chipset Z :=
  s ← get;
  control ← lift (Py.getitem (CONTROLS (self.Cfg s)) control_name);
  reg ← lift (Py.getitem control "register" ≫= as_str);
  field ← lift (Py.getitem control "field" ≫= as_str);
  reg_data ← read_register reg 0 0;
  get_register_field reg reg_data field false.

(** [set_control] ends in
    [self.write_register_field(reg, field, control_value, cpu_thread)]: the
    fourth positional parameter of [write_register_field] is
    [preserve_field_position], so [cpu_thread] is taken as that flag and the
    thread stays at its default 0. *)
Definition set_control (control_name : string) (control_value : Z)
    (cpu_thread : Z) : M Chipset unit :=
  s ← get;
  control ← lift (Py.getitem (CONTROLS (self.Cfg s)) control_name);
  reg ← lift (Py.getitem control "register" ≫= as_str);
  field ← lift (Py.getitem control "field" ≫= as_str);
  write_register_field reg field control_value (negb (cpu_thread =? 0)) 0.

(** ** Examples of stores and of the outside world *)

Definition register_types : list string :=
  [RegisterType.PCICFG; RegisterType.MMCFG; RegisterType.MMIO; RegisterType.MSR;
   RegisterType.PORTIO; RegisterType.IOBAR; RegisterType.MSGBUS;
   RegisterType.MM_MSGBUS].

(** An attribute dictionary as the parser builds it. *)
Definition attrs (l : list (string * string)) : gmap string pyval :=
  list_to_map (prod_map id PStr <$> l).

(** A document with one section: two devices (one without ids), a 64-bit
    register in PCI configuration space, an MSR with two fields, a register
    of an unknown kind and a control. *)
Definition demo_xml : Element :=
  Elem "root" ∅ [
    Elem "configuration" ∅ [
      Elem "pci" ∅ [
        Elem "device" (attrs [("name", "LPC"); ("bus", "0"); ("dev", "0x1F");
                              ("fun", "0"); ("vid", "0x8086");
                              ("did", "0x0100,0x0101")]) [];
        Elem "device" (attrs [("name", "HOSTCTRL"); ("bus", "0"); ("dev", "0");
                              ("fun", "0")]) []
      ];
      Elem "registers" ∅ [
        Elem "register" (attrs [("name", "QW"); ("type", "pcicfg");
                                ("device", "LPC"); ("offset", "0x10");
                                ("size", "8")]) [];
        Elem "register" (attrs [("name", "FEATCTL"); ("type", "msr");
                                ("msr", "0x3A"); ("size", "8")]) [
          Elem "field" (attrs [("name", "LOCK"); ("bit", "0"); ("size", "1")]) [];
          Elem "field" (attrs [("name", "MODE"); ("bit", "4"); ("size", "4")]) []
        ];
        Elem "register" (attrs [("name", "ODD"); ("type", "smbus");
                                ("offset", "0x0")]) []
      ];
      Elem "controls" ∅ [
        Elem "control" (attrs [("name", "FeatureMode"); ("register", "FEATCTL");
                               ("field", "MODE")]) []
      ]
    ]
  ].

(** A world without hardware and with one document: every read returns 0,
    the enumeration finds the two devices of the sixth test of the spec,
    and there is no platform module. *)
Definition demo_world : world unit :=
  λ c, match c return unit → reply (reply_type c) * unit with
       | helper_start _ | helper_stop _ => λ w, (Returned tt, w)
       | helper_use_native_api => λ w, (Returned false, w)
       | pci_read_byte _ _ _ _ | pci_read_word _ _ _ _
       | pci_read_dword _ _ _ _ => λ w, (Returned 0, w)
       | pci_write_byte _ _ _ _ _ | pci_write_word _ _ _ _ _
       | pci_write_dword _ _ _ _ _ => λ w, (Returned tt, w)
       | pci_enumerate_devices =>
           λ w, (Returned [(0, 31, 0, 0x8086, 0x0100); (0, 0, 0, 0x8086, 0x0C00)], w)
       | mmio_read_mmcfg_reg _ _ _ _ _ => λ w, (Returned 0, w)
       | mmio_write_mmcfg_reg _ _ _ _ _ _ => λ w, (Returned tt, w)
       | mmio_read_MMIO_BAR_reg _ _ _ => λ w, (Returned 0, w)
       | mmio_write_MMIO_BAR_reg _ _ _ _ => λ w, (Returned tt, w)
       | msr_read_msr _ _ => λ w, (Returned (0, 0), w)
       | msr_write_msr _ _ _ _ => λ w, (Returned tt, w)
       | io_read_port _ _ => λ w, (Returned 0, w)
       | io_write_port _ _ _ => λ w, (Returned tt, w)
       | iobar_read_IO_BAR_reg _ _ _ => λ w, (Returned 0, w)
       | iobar_write_IO_BAR_reg _ _ _ _ => λ w, (Returned tt, w)
       | msgbus_reg_read _ _ => λ w, (Returned 0, w)
       | msgbus_reg_write _ _ _ => λ w, (Returned tt, w)
       | mm_msgbus_reg_read _ _ => λ w, (Returned 0, w)
       | mm_msgbus_reg_write _ _ _ => λ w, (Returned tt, w)
       | import_cfg _ => λ w, (Raised ImportError, w)
       | os_walk_cfg => λ w, (Returned [("/chipsec/cfg", ["common.xml"])], w)
       | os_path_exists _ => λ w, (Returned true, w)
       | ET_parse _ => λ w, (Returned demo_xml, w)
       end.

(** The object after [init] without a platform code and without driver
    in that world. *)
Definition demo_cs : Chipset :=
  Eval vm_compute in (run demo_world (init None None false Chipset_new) tt).1.2.

(** Modelled from the spec: the PCI accessors of the platform access layer
    are outside the sources ("dword read and write operations keyed by
    low-level addresses").  A configuration space of dwords: a dword read
    returns what the last dword write at that address stored, and 0 where
    nothing was written. *)
Definition cfg_space_world : world (gmap (Z * Z * Z * Z) Z) :=
  λ c, match c return gmap (Z * Z * Z * Z) Z
                      → reply (reply_type c) * gmap (Z * Z * Z * Z) Z with
       | pci_read_dword b d f o => λ w, (Returned (default 0 (w !! (b, d, f, o))), w)
       | pci_write_dword b d f o v =>
           λ w, (Returned tt, <[(b, d, f, o) := Z.land v 0xFFFFFFFF]> w)
       | _ => λ w, (Raised (OtherError "not a dword access"), w)
       end.

(** ** Notions used in the statements *)

Definition put_reg (reg_name : string) (d : gmap string pyval) (s : Chipset) : Chipset :=
  self.upd_Cfg (upd_REGISTERS <[reg_name := d]>) s.

(** The explicit form of [get_register_def]. *)
Definition resolved (s : Chipset) (reg_name : string) (bus_index : Z)
  : result (gmap string pyval) * Chipset :=
  match REGISTERS (self.Cfg s) !! reg_name with
  | None => (Exc (KeyError reg_name), s)
  | Some reg_def =>
    match reg_def !! "type" with
    | None => (Exc (KeyError "type"), s)
    | Some ty =>
      if (str_eq ty "pcicfg" || str_eq ty "mmcfg") && bool_decide ("device" ∈ dom reg_def)
      then
        match reg_def !! "device" with
        | None => (Exc (KeyError "device"), s)
        | Some dev_name =>
          match lookup_val (CONFIG_PCI (self.Cfg s)) dev_name with
          | Exc e => (Exc e, s)
          | Ok None => (Ok reg_def, s)
          | Ok (Some dev) =>
            match dev !! "bus" with
            | None => (Exc (KeyError "bus"), s)
            | Some b =>
              let r1 := <["bus" := b]> reg_def in
              match dev !! "dev" with
              | None => (Exc (KeyError "dev"), put_reg reg_name r1 s)
              | Some d =>
                let r2 := <["dev" := d]> r1 in
                match dev !! "fun" with
                | None => (Exc (KeyError "fun"), put_reg reg_name r2 s)
                | Some f =>
                  let r3 := <["fun" := f]> r2 in
                  match lookup_val (BUS (self.Cfg s)) dev_name with
                  | Exc e => (Exc e, put_reg reg_name r3 s)
                  | Ok None => (Ok r3, put_reg reg_name r3 s)
                  | Ok (Some buses) =>
                    if bus_index <? Z.of_nat (length buses) then
                      match Py.list_getitem buses bus_index with
                      | Exc e => (Exc e, put_reg reg_name r3 s)
                      | Ok b' => (Ok (<["bus" := b']> r3),
                                  put_reg reg_name (<["bus" := b']> r3) s)
                      end
                    else (Ok r3, put_reg reg_name r3 s)
                  end
                end
              end
            end
          end
        end
      else (Ok reg_def, s)
    end
  end.

Definition preserves {S A} (I : S → Prop) (m : M S A) : Prop :=
  ∀ s, I s → always (m s) (λ rs, I rs.2).

(** The state after register access: only the entry of [reg_name] in
    [REGISTERS] is altered. *)
Definition alter_reg (reg_name : string) (f : gmap string pyval → gmap string pyval)
    (s : Chipset) : Chipset :=
  self.upd_Cfg (upd_REGISTERS (alter f reg_name)) s.

Definition keeps_keys_outside (keys : list string)
    (f : gmap string pyval → gmap string pyval) : Prop :=
  ∀ d k, k ∉ keys → f d !! k = d !! k.

Definition touched_at (keys : list string) (reg_name : string) (s0 s : Chipset) : Prop :=
  ∃ f, s = alter_reg reg_name f s0 ∧ keeps_keys_outside keys f.

Definition same_identity (s0 s : Chipset) : Prop :=
  ∃ cfg, s = self.upd_Cfg (λ _, cfg) s0.

(** The identity that [init] settles on and the flag [_unknown_platform],
    from the explicit code and the ids that were detected. *)
Definition settled_ids (platform_code : option string) (v d r : Z) : Z * Z * Z :=
  match platform_code with
  | None => (v, d, r)
  | Some pc =>
      match Chipset_Code !! pc with
      | Some d' => (VID_INTEL, d', 0x00)
      | None => (0xFFFF, 0xFFFF, 0xFF)
      end
  end.

Definition settled_unknown (platform_code : option string) (v d r : Z) : bool :=
  match platform_code with
  | None => negb (VID_INTEL =? v)
  | Some pc => match Chipset_Code !! pc with Some _ => false | None => true end
  end
  || match Chipset_Dictionary !! (settled_ids platform_code v d r).1.2 with
     | Some _ => false
     | None => true
     end.

(** The attributes of the element at [p], as [attrib_at] reads them. *)
Definition attrib_of (t : Element) (p : path) : gmap string pyval :=
  default ∅ (el_attrib <$> subelement p t).

(** The defaults that a register gets. *)
Definition register_defaults (a : gmap string pyval) : gmap string pyval :=
  let a := if bool_decide ("size" ∈ dom a) then a else <["size" := PStr "0x4"]> a in
  if bool_decide ("desc" ∈ dom a) then a else <["desc" := PStr ""]> a.

(** chipsec_util.py: [CMD_OPTS_WIDTH]. *)
Definition CMD_OPTS_WIDTH : list string := ["byte"; "word"; "dword"].

(** [width_op.lower() in CMD_OPTS_WIDTH]. *)
Definition is_option_valid_width (width_op : string) : bool :=
  bool_decide (Py.lower width_op ∈ CMD_OPTS_WIDTH).

Definition get_option_width (width_op : string) : Z :=
  let width_op := Py.lower width_op in
  if String.eqb "byte" width_op then 0x1
  else if String.eqb "word" width_op then 0x2
  else if String.eqb "dword" width_op then 0x4
  else 0x0.

(** [is_register_defined]: the [KeyError] of the lookup is caught; a
    stored descriptor is never [None]. *)
Definition is_register_defined (reg_name : string) : M Chipset bool :=
  try_except
    (s ← get;
     _ ← lift (Py.getitem (REGISTERS (self.Cfg s)) reg_name);
     ret true)
    (λ e, match e with KeyError _ => ret false | _ => raise e end).

Definition is_control_defined (control_name : string) : M Chipset bool :=
  try_except
    (s ← get;
     _ ← lift (Py.getitem (CONTROLS (self.Cfg s)) control_name);
     ret true)
    (λ e, match e with KeyError _ => ret false | _ => raise e end).

(** Modelled from the spec: the MSR accessors of the platform access layer
    are outside the sources.  A bank of model-specific registers per
    thread: a read returns the pair [(eax, edx)] that the last write to
    that register on that thread stored, and [(0, 0)] where nothing was
    written. *)
Definition msr_world : world (gmap (Z * Z) (Z * Z)) :=
  λ c, match c return gmap (Z * Z) (Z * Z)
                      → reply (reply_type c) * gmap (Z * Z) (Z * Z) with
       | msr_read_msr cpu_thread msr =>
           λ w, (Returned (default (0, 0) (w !! (cpu_thread, msr))), w)
       | msr_write_msr cpu_thread msr eax edx =>
           λ w, (Returned tt, <[(cpu_thread, msr) := (eax, edx)]> w)
       | _ => λ w, (Raised (OtherError "not an MSR access"), w)
       end.

(** A store like [demo_cs] in which the register [QW] declares a size of
    three bytes. *)
Definition odd_size_cs : Chipset :=
  alter_reg "QW" <["size" := PStr "3"]> demo_cs.

(** [get_register_field_mask]: [reg_field] is [None] for the mask of the
    whole register. *)
Definition get_register_field_mask (reg_name : string) (reg_field : option string)
    (preserve_field_position : bool) : M Chipset Z :=
  reg_def ← get_register_def reg_name 0;
  '(mask_start, mask) ←
    match reg_field with
    | Some f =>
        field_attrs ← lift (fields ← Py.getitem reg_def "FIELDS" ≫= as_dict;
                            Py.getitem fields f ≫= as_dict);
        mask_start ← lift (Py.getitem field_attrs "bit" ≫= Py.int10);
        size ← lift (Py.getitem field_attrs "size" ≫= Py.int10);
        one ← lift (Py.shl 1 size);
        ret (mask_start, one - 1)
    | None =>
        size ← lift (Py.getitem reg_def "size" ≫= Py.int16);
        one ← lift (Py.shl 1 (size * 8));
        ret (0, one - 1)
    end;
  if preserve_field_position then lift (Py.shl mask mask_start) else ret mask.

(** [sub in s] for two strings. *)
Fixpoint str_in (sub s : string) : bool :=
  String.prefix sub s ||
  match s with
  | EmptyString => false
  | String _ s' => str_in sub s'
  end.

(** [register_has_field]: [in] tests the keys of a dictionary and the
    substrings of a string, and cannot be applied to an integer. *)
Definition register_has_field (reg_name field_name : string) : M Chipset bool :=
  reg_def ← get_register_def reg_name 0;
  match reg_def !! "FIELDS" with
  | None => ret false
  | Some (PDict fields) => ret (bool_decide (field_name ∈ dom fields))
  | Some (PStr x) => ret (str_in field_name x)
  | Some (PInt _) => raise TypeError
  end.

(** [get_device_bus]: [dict.get] with the default [None]; the name is
    [None] when [get_register_bus] found no ['device'] attribute. *)
Definition get_device_bus (dev_name : option pyval) : M Chipset (option (list pyval)) :=
  s ← get;
  match dev_name with
  | None => ret None
  | Some k => lift (lookup_val (BUS (self.Cfg s)) k)
  end.

Definition get_register_bus (reg_name : string) : M Chipset (option (list pyval)) :=
  s ← get;
  reg_def ← lift (Py.getitem (REGISTERS (self.Cfg s)) reg_name);
  get_device_bus (reg_def !! "device").

(** The enumerated devices that the inner loop of [init_cfg_bus] accepts
    for a declared device. *)
Definition enum_matches (dev fn vid : Z) (did_list : list Z)
    (e : Z * Z * Z * Z * Z) : bool :=
  let '(b, d, f, v, di) := e in
  (dev =? d) && (fn =? f) && (vid =? v) && bool_decide (di ∈ did_list).

Definition enum_bus (e : Z * Z * Z * Z * Z) : Z := let '(b, d, f, v, di) := e in b.

Definition is_hex_digit (c : ascii) : Prop := ∃ v, 0 ≤ v < 16 ∧ c = Py.hex_digit v.

Definition dec_digit (v : Z) : ascii := ascii_of_nat (Z.to_nat (v + 48)).

Fixpoint dec_digits (fuel : nat) (z : Z) (acc : list ascii) : list ascii :=
  match fuel with
  | O => acc
  | S fuel' =>
      if z <? 10 then dec_digit z :: acc
      else dec_digits fuel' (z / 10) (dec_digit (z mod 10) :: acc)
  end.

(** [str(z)] for an integer. *)
Definition str_int (z : Z) : string :=
  let body := string_of_list_ascii
                (dec_digits (S (Z.to_nat (Z.log2 (Z.abs z)))) (Z.abs z) [])
  in if z <? 0 then "-" +:+ body else body.

Definition get_device_BDF (device_name : string) : M Chipset (Z * Z * Z) :=
  s ← get;
  device ← lift (Py.getitem (CONFIG_PCI (self.Cfg s)) device_name);
  if bool_decide (device = ∅) then raise (DeviceNotFoundError device_name)
  else
    b ← int16_of device "bus";
    d ← int16_of device "dev";
    f ← int16_of device "fun";
    ret (b, d, f).

(** [self.Cfg.CONFIG_PCI[dev_name][key] = v]: the descriptor is looked
    up and changed in place. *)
Definition dev_setitem (dev_name key : string) (v : pyval) : M Chipset unit :=
  s ← get;
  _ ← lift (Py.getitem (CONFIG_PCI (self.Cfg s)) dev_name);
  modify (self.upd_Cfg (upd_CONFIG_PCI (alter <[key := v]> dev_name))).

Definition switch_device_def (target_dev source_dev : string) : M Chipset unit :=
  '(b, d, f) ← get_device_BDF source_dev;
  dev_setitem target_dev "bus" (PStr (str_int b));;
  dev_setitem target_dev "dev" (PStr (str_int d));;
  dev_setitem target_dev "fun" (PStr (str_int f)).

Definition CHIPSET_FAMILY_XEON : list Z :=
  [CHIPSET_ID_JKT; CHIPSET_ID_IVT; CHIPSET_ID_HSX; CHIPSET_ID_BDX; CHIPSET_ID_SKX].
Definition CHIPSET_FAMILY_CORE : list Z :=
  [CHIPSET_ID_SNB; CHIPSET_ID_IVB; CHIPSET_ID_HSW; CHIPSET_ID_BDW; CHIPSET_ID_SKL;
   CHIPSET_ID_KBL; CHIPSET_ID_CFL; CHIPSET_ID_WHL].
Definition CHIPSET_FAMILY_ATOM : list Z :=
  [CHIPSET_ID_BYT; CHIPSET_ID_AVN; CHIPSET_ID_BSW; CHIPSET_ID_CHT; CHIPSET_ID_APL;
   CHIPSET_ID_DNV].
Definition CHIPSET_FAMILY_QUARK : list Z := [CHIPSET_ID_QRK].

Definition get_chipset_id : M Chipset Z := gets self.id.

Definition is_core : M Chipset bool :=
  id ← get_chipset_id; ret (bool_decide (id ∈ CHIPSET_FAMILY_CORE)).
Definition is_server : M Chipset bool :=
  id ← get_chipset_id; ret (bool_decide (id ∈ CHIPSET_FAMILY_XEON)).
Definition is_atom : M Chipset bool :=
  id ← get_chipset_id; ret (bool_decide (id ∈ CHIPSET_FAMILY_ATOM)).

(** Whether [int(str(x), 16)] is [x] exactly when [x < 10]. *)
Definition reread_ok (x : Z) : bool :=
  match Py.int16 (PStr (str_int x)) with
  | Ok y => bool_decide (y = x ↔ x < 10)
  | Exc _ => false
  end.

(** Whether a platform id is in exactly one of the three families that
    have a predicate, or is the Quark id, which is in none. *)
Definition family_ok (id : Z) : bool :=
  let c := bool_decide (id ∈ CHIPSET_FAMILY_CORE) in
  let x := bool_decide (id ∈ CHIPSET_FAMILY_XEON) in
  let a := bool_decide (id ∈ CHIPSET_FAMILY_ATOM) in
  if bool_decide (id ∈ CHIPSET_FAMILY_QUARK) then negb c && negb x && negb a
  else (c && negb x && negb a) || (negb c && x && negb a) || (negb c && negb x && a).

(** [init_cfg_bus] with the order in which the loop visits the devices
    given explicitly.  Python visits the keys of [CONFIG_PCI] in the order
    of their insertion, which the store does not record. *)
Definition init_cfg_bus_visiting (order : list string) : M Chipset unit :=
  enum_devices ← try_except (call pci_enumerate_devices) (λ _, ret []);
  for_each order (init_cfg_bus_device enum_devices).

(** What [enumerate_devices] gave to [init_cfg_bus]: the empty list when
    the call raised. *)
Definition enumerated (r : reply (list (Z * Z * Z * Z * Z))) : list (Z * Z * Z * Z * Z) :=
  match r with Returned l => l | Raised _ => [] end.

(** A device descriptor that declares a vendor id and device ids, with the
    numbers that [init_cfg_bus] reads from it. *)
Definition declares (device_data : gmap string pyval) (dev fn vid : Z)
    (did_list : list Z) : Prop :=
  ∃ xml_vid x,
    device_data !! "vid" = Some xml_vid ∧ Py.truthy (Some xml_vid) = true ∧
    device_data !! "did" = Some (PStr x) ∧ x ≠ "" ∧
    map_result (λ y, Py.int16 (PStr y)) (Py.split "," x) = Ok did_list ∧
    (Py.getitem device_data "dev" ≫= Py.int16) = Ok dev ∧
    (Py.getitem device_data "fun" ≫= Py.int16) = Ok fn ∧
    Py.int16 xml_vid = Ok vid.

(** The buses discovered for a declared device: [hex(bus)] of the
    enumerated devices with the declared device number, function number and
    vendor id and with one of the declared device ids, in the order of the
    enumeration. *)
Definition discovered_buses (enum_devices : list (Z * Z * Z * Z * Z))
    (dev fn vid : Z) (did_list : list Z) : list pyval :=
  (λ e, PStr (Py.hex (enum_bus e)))
    <$> List.filter (enum_matches dev fn vid did_list) enum_devices.

(** What bus resolution has done to the bindings of [s0] when it ends in
    [rs], after it visited the devices [order] with the enumeration
    [enum_devices]. *)
Definition bus_bound (enum_devices : list (Z * Z * Z * Z * Z)) (order : list string)
    (s0 : Chipset) (rs : result unit * Chipset) : Prop :=
  rs.2 = self.upd_Cfg (upd_BUS (λ _, BUS (self.Cfg rs.2))) s0 ∧
  (∀ name,
     BUS (self.Cfg rs.2) !! name = BUS (self.Cfg s0) !! name ∨
     ∃ device_data dev fn vid did_list,
       CONFIG_PCI (self.Cfg s0) !! name = Some device_data ∧
       declares device_data dev fn vid did_list ∧
       discovered_buses enum_devices dev fn vid did_list ≠ [] ∧
       BUS (self.Cfg rs.2) !! name
       = Some (discovered_buses enum_devices dev fn vid did_list)) ∧
  (∀ name device_data,
     CONFIG_PCI (self.Cfg s0) !! name = Some device_data →
     Py.truthy (device_data !! "vid") && Py.truthy (device_data !! "did") = false →
     BUS (self.Cfg rs.2) !! name = BUS (self.Cfg s0) !! name) ∧
  (rs.1 = Ok tt →
   ∀ name device_data dev fn vid did_list,
     name ∈ order →
     CONFIG_PCI (self.Cfg s0) !! name = Some device_data →
     declares device_data dev fn vid did_list →
     BUS (self.Cfg rs.2) !! name
     = if bool_decide (discovered_buses enum_devices dev fn vid did_list = [])
       then BUS (self.Cfg s0) !! name
       else Some (discovered_buses enum_devices dev fn vid did_list)).

(** The element at [p], as [element_at] reads it. *)
Definition elt (p : path) (t : Element) : Element :=
  default (Elem "" ∅ []) (subelement p t).

(** Whether the element at [q] is the element at [p] or lies below it. *)
Fixpoint is_prefix (p q : path) : bool :=
  match p, q with
  | [], _ => true
  | i :: p', j :: q' => Nat.eqb i j && is_prefix p' q'
  | _ :: _, [] => false
  end.

(** Two elements neither of which lies in the other. *)
Definition apart (p q : path) : bool := negb (is_prefix p q) && negb (is_prefix q p).

Fixpoint all_apart (ps : list path) : bool :=
  match ps with
  | [] => true
  | p :: ps' => forallb (apart p) ps' && all_apart ps'
  end.

(** The children part of [iter]. *)
Fixpoint iter_children (tag : string) (i : nat) (cs : list Element) : list path :=
  match cs with
  | [] => []
  | c :: cs' => (cons i <$> iter tag c) ++ iter_children tag (S i) cs'
  end.

(** [t'] is [t] after attribute updates, at elements that satisfy [P],
    that leave the key [platform] alone. *)
Inductive rewritten (P : path → Prop) (t : Element) : Element → Prop :=
  | rewritten_refl : rewritten P t t
  | rewritten_step t' f p :
      P p → (∀ a, f a !! "platform" = a !! "platform") →
      rewritten P t t' → rewritten P t (upd_attrib f p t').

#[global] Instance category_eq_dec : EqDecision category.
Proof. solve_decision. Defined.

(** The definition of a field, in the words of the spec: the attributes of
    the field without its name, with an empty description unless the field
    has one. *)
Definition field_definition (a : gmap string pyval) : gmap string pyval :=
  let a := delete "name" a in
  if bool_decide ("desc" ∈ dom a) then a else <["desc" := PStr ""]> a.

(** The [FIELDS] of a register, from the attributes of its fields in
    document order: each field under its name, a later field replacing an
    earlier one of the same name.  A field without a name raises. *)
Fixpoint fields_definition (fs : list (gmap string pyval))
    (reg_fields : gmap string pyval) : result (gmap string pyval) :=
  match fs with
  | [] => Ok reg_fields
  | a :: fs' =>
      n ← Py.getitem a "name" ≫= as_str;
      fields_definition fs' (<[n := PDict (field_definition a)]> reg_fields)
  end.

(** The complete definition of an entry, in the words of the spec: its
    attributes without the name; a register also gets the size [0x4] and an
    empty description unless it has them and, when it has fields, the
    [FIELDS] of all the fields below it. *)
Definition entry_definition (c : category) (e : Element) : result (gmap string pyval) :=
  let a := delete "name" (el_attrib e) in
  match c with
  | cat_REGISTERS =>
      let e' := Elem (el_tag e) (register_defaults a) (el_children e) in
      match find "field" e with
      | Some _ =>
          reg_fields ← fields_definition (attrib_of e' <$> iter "field" e') ∅;
          Ok (<["FIELDS" := PDict reg_fields]> (register_defaults a))
      | None => Ok (register_defaults a)
      end
  | _ => Ok a
  end.

(** What an entry does to its category, in the words of the spec: an entry
    with the key [undef] removes its name, any other entry binds its name
    to its complete definition.  An entry without a name raises. *)
Definition entry_outcome (c : category) (e : Element)
  : result (string * option (gmap string pyval)) :=
  n ← Py.getitem (el_attrib e) "name" ≫= as_str;
  if bool_decide ("undef" ∈ dom (el_attrib e)) then Ok (n, None)
  else d ← entry_definition c e; Ok (n, Some d).

Definition apply_outcome (op : string * option (gmap string pyval))
    (m : gmap string (gmap string pyval)) : gmap string (gmap string pyval) :=
  match op.2 with
  | Some d => <[op.1 := d]> m
  | None => delete op.1 m
  end.

(** The outcomes of the entries of a sequence that are loaded: those of the
    entries before the first one that raises. *)
Fixpoint loaded (es : list (category * Element))
  : list (category * (string * option (gmap string pyval))) :=
  match es with
  | [] => []
  | ce :: es' =>
      match entry_outcome ce.1 ce.2 with
      | Ok op => (ce.1, op) :: loaded es'
      | Exc _ => []
      end
  end.

(** What loading a sequence of entries raises: what its first entry that
    raises does. *)
Fixpoint raised (es : list (category * Element)) : result unit :=
  match es with
  | [] => Ok tt
  | ce :: es' =>
      match entry_outcome ce.1 ce.2 with
      | Ok _ => raised es'
      | Exc x => Exc x
      end
  end.

(** The last outcome for the name [n] in the category [c]: [Some None]
    when the last entry of that name removes it, [None] when no entry has
    that name. *)
Fixpoint last_outcome (c : category) (n : string)
    (ops : list (category * (string * option (gmap string pyval))))
  : option (option (gmap string pyval)) :=
  match ops with
  | [] => None
  | op :: ops' =>
      match last_outcome c n ops' with
      | Some d => Some d
      | None => if bool_decide (op.1 = c ∧ op.2.1 = n) then Some op.2.2 else None
      end
  end.

(** The outcomes applied to the store one after the other. *)
Definition store_all (ops : list (category * (string * option (gmap string pyval))))
    (cfg : Cfg_t) : Cfg_t :=
  fold_left (λ cfg op, cat_upd op.1 (apply_outcome op.2) cfg) ops cfg.

(** A document whose entries redefine and remove names. *)
Definition override_xml : Element :=
  Elem "configuration" ∅ [
    Elem "pci" ∅ [
      Elem "device" (attrs [("name", "LPC"); ("bus", "0"); ("dev", "0x1F");
                            ("fun", "0")]) [];
      Elem "device" (attrs [("name", "LPC"); ("bus", "1"); ("dev", "0x1F");
                            ("fun", "0")]) [];
      Elem "device" (attrs [("name", "HOSTCTRL"); ("undef", "gone")]) []
    ];
    Elem "registers" ∅ [
      Elem "register" (attrs [("name", "FEATCTL"); ("type", "msr");
                              ("msr", "0x3A")]) [
        Elem "field" (attrs [("name", "LOCK"); ("bit", "0"); ("size", "1")]) []
      ]
    ]
  ].

(** The entries that [load_group] visits below the section [pc], in the
    order of their visit, each with the category it is loaded into. *)
Definition group_entries (c : category) (group entry : string) (pc : path)
    (t : Element) : list (category * path) :=
  mjoin ((λ pg, (λ pe, (c, pc ++ pg ++ pe)) <$> iter entry (elt (pc ++ pg) t))
         <$> iter group (elt pc t)).

(** The entries that [load_section] visits in a section that applies. *)
Definition section_entries (pc : path) (t : Element) : list (category * path) :=
  group_entries cat_CONFIG_PCI "pci" "device" pc t ++
  group_entries cat_MMIO_BARS "mmio" "bar" pc t ++
  group_entries cat_IO_BARS "io" "bar" pc t ++
  group_entries cat_MEMORY_RANGES "memory" "range" pc t ++
  group_entries cat_REGISTERS "registers" "register" pc t ++
  group_entries cat_CONTROLS "controls" "control" pc t.

(** The entries that [init_cfg_xml] visits in a document: those of the
    sections that apply to the platform, section after section. *)
Definition document_entries (code pch_code : string) (root : Element)
  : list (category * path) :=
  mjoin ((λ pc, match section_applies code pch_code (attrib_of root pc) with
                | Ok true => section_entries pc root
                | _ => []
                end) <$> iter "configuration" root).

(** A document in which the [platform] of every section is a string, as
    the parser gives it, and in which no visited entry lies inside another
    one. *)
Definition plain_document (code pch_code : string) (root : Element) : bool :=
  forallb (λ pc, match section_applies code pch_code (attrib_of root pc) with
                 | Ok _ => true
                 | Exc _ => false
                 end) (iter "configuration" root)
  && all_apart (document_entries code pch_code root).*2.

(** The entries of the documents, document after document, each with its
    element. *)
Definition documents_entries (code pch_code : string) (docs : list Element)
  : list (category * Element) :=
  mjoin ((λ root, (λ v, (v.1, elt v.2 root)) <$> document_entries code pch_code root)
         <$> docs).

(** A world in which the configuration directory is [walk] and the files
    are those of [fs], whenever they are asked for. *)
Definition serves {W} (h : world W) (walk : list (string * list string))
    (fs : string → option Element) : Prop :=
  (∀ w, (h os_walk_cfg w).1 = Returned walk) ∧
  (∀ w f, (h (os_path_exists f) w).1
          = Returned (match fs f with Some _ => true | None => false end)) ∧
  (∀ w f root, fs f = Some root → (h (ET_parse f) w).1 = Returned root).

(** [m] visits the entries [l] of the document [t], whatever attributes
    have been updated before. *)
Definition visits (t : Element) (m : M Doc unit) (l : list (category * path)) : Prop :=
  ∀ t1 s1, rewritten (λ _, True) t t1 →
           m (t1, s1) = for_each l (λ v, load_entry v.1 v.2) (t1, s1).

(** A document for the platform [snb] only. *)
Definition platform_xml : Element :=
  Elem "configuration" (attrs [("platform", "SNB")]) [
    Elem "pci" ∅ [
      Elem "device" (attrs [("name", "LPC"); ("bus", "2"); ("dev", "0x1F");
                            ("fun", "0")]) [];
      Elem "device" (attrs [("name", "IGD"); ("bus", "0"); ("dev", "2");
                            ("fun", "0")]) []
    ]
  ].

(** The files of [override_world]: [common.xml], the platform document
    [snb.xml], and [override.xml]. *)
Definition override_fs (f : string) : option Element :=
  Some (if String.eqb (Py.basename f) "common.xml" then demo_xml
        else if String.eqb (Py.basename f) "snb.xml" then platform_xml
        else override_xml).

(** The demonstration world with three documents. *)
Definition override_world : world unit :=
  λ c, match c return unit → reply (reply_type c) * unit with
       | os_walk_cfg =>
           λ w, (Returned [("/chipsec/cfg", ["common.xml"; "override.xml"; "snb.xml"])],
                 w)
       | ET_parse f => λ w, (Returned (default demo_xml (override_fs f)), w)
       | c' => demo_world c'
       end.

(** * Properties *)


Example int16_0x1f : Py.int16 (PStr "0x1F") = Ok 31.
Proof. reflexivity. Qed.
Example int16_plain : Py.int16 (PStr " 8 ") = Ok 8.
Proof. reflexivity. Qed.
Example int16_bad : Py.int16 (PStr "0x") = Exc ValueError.
Proof. reflexivity. Qed.
Example int10_no_prefix : Py.int10 (PStr "0x10") = Exc ValueError.
Proof. reflexivity. Qed.
Example hex_255 : Py.hex 255 = "0xff".
Proof. reflexivity. Qed.
Example hex_0 : Py.hex 0 = "0x0".
Proof. reflexivity. Qed.
Example split_dids : Py.split "," "0x0100,0x0101" = ["0x0100"; "0x0101"].
Proof. reflexivity. Qed.
Example basename_cfg : Py.basename "/a/chipsec/cfg/common.xml" = "common.xml".
Proof. reflexivity. Qed.
Example fnmatch_common : Py.fnmatch "common_x.xml" "common*.xml" = true.
Proof. reflexivity. Qed.
Example fnmatch_short : Py.fnmatch "snb.xm" "snb*.xml" = false.
Proof. reflexivity. Qed.

Example Chipset_Code_SNB : Chipset_Code !! "SNB" = Some 0x0108.
Proof. vm_compute. reflexivity. Qed.
Example Chipset_Code_KBL : Chipset_Code !! "KBL" = Some 0x5918.
Proof. vm_compute. reflexivity. Qed.
Example pch_codes_1xx : pch_codes !! "PCH_1XX" = Some 0xA150.
Proof. vm_compute. reflexivity. Qed.

(** ** Reasoning about programs *)

Lemma always_mono {A} (t : prog A) (Q Q' : A → Prop) :
  (∀ a, Q a → Q' a) → always t Q → always t Q'.
Proof. intros HQ. induction t as [a|c k IH]; simpl; auto. Qed.

Lemma always_prog_bind {A B} (t : prog A) (f : A → prog B) (Q : B → Prop) :
  always (prog_bind t f) Q ↔ always t (λ a, always (f a) Q).
Proof.
  induction t as [a|c k IH]; simpl; [done|].
  split; intros H r; apply IH, H.
Qed.

(** ** Register resolution *)

Lemma alter_present {V} (f : V → V) (k : string) (m : gmap string V) d :
  m !! k = Some d → alter f k m = <[k := f d]> m.
Proof.
  intros H. apply map_eq. intros j.
  rewrite lookup_alter, lookup_insert. case_decide; subst; [by rewrite H|done].
Qed.

Lemma reg_setitem_put s reg_name key v d :
  REGISTERS (self.Cfg s) !! reg_name = Some d →
  reg_setitem reg_name key v s = Ret (Ok tt, put_reg reg_name (<[key := v]> d) s).
Proof.
  intros H. unfold reg_setitem, modify, put_reg.
  destruct s as [? ? ? ? ? ? ? ? ? ? ? ? [? ? ? ? R ? ? ?]]; simpl in *.
  unfold self.upd_Cfg, upd_REGISTERS; simpl.
  by rewrite (alter_present _ _ _ _ H).
Qed.

Lemma put_reg_put_reg n d1 d2 s : put_reg n d2 (put_reg n d1 s) = put_reg n d2 s.
Proof.
  destruct s as [? ? ? ? ? ? ? ? ? ? ? ? [? ? ? ? R ? ? ?]]; unfold put_reg, self.upd_Cfg, upd_REGISTERS; simpl.
  by rewrite insert_insert_eq.
Qed.

Lemma put_reg_id n d s : REGISTERS (self.Cfg s) !! n = Some d → put_reg n d s = s.
Proof.
  destruct s as [? ? ? ? ? ? ? ? ? ? ? ? [? ? ? ? R ? ? ?]]; unfold put_reg, self.upd_Cfg, upd_REGISTERS; simpl.
  intros H. by rewrite insert_id.
Qed.

Lemma put_reg_lookup n d s : REGISTERS (self.Cfg (put_reg n d s)) !! n = Some d.
Proof. destruct s as [? ? ? ? ? ? ? ? ? ? ? ? []]; unfold put_reg; simpl. apply lookup_insert_eq. Qed.

Lemma put_reg_CONFIG_PCI n d s : CONFIG_PCI (self.Cfg (put_reg n d s)) = CONFIG_PCI (self.Cfg s).
Proof. by destruct s as [? ? ? ? ? ? ? ? ? ? ? ? []]. Qed.
Lemma put_reg_BUS n d s : BUS (self.Cfg (put_reg n d s)) = BUS (self.Cfg s).
Proof. by destruct s as [? ? ? ? ? ? ? ? ? ? ? ? []]. Qed.

Lemma getitem_Some {V} (d : gmap string V) k v : d !! k = Some v → Py.getitem d k = Ok v.
Proof. unfold Py.getitem. by intros ->. Qed.

Ltac munfold :=
  unfold int16_of in *;
  unfold bind_, M_bind, bind, result_bind, option_bind, get, gets, modify, lift,
    ret, raise in *.

Ltac mred :=
  unfold bind_, M_bind, bind, result_bind, get, gets, modify, lift, ret, raise,
    int16_of, Py.getitem; cbn.

Lemma upd_alter_put s n f d :
  REGISTERS (self.Cfg s) !! n = Some d →
  self.upd_Cfg (upd_REGISTERS (alter f n)) s = put_reg n (f d) s.
Proof.
  intros H. unfold put_reg.
  destruct s as [? ? ? ? ? ? ? ? ? ? ? ? [? ? ? ? R ? ? ?]]; simpl in *.
  unfold self.upd_Cfg, upd_REGISTERS; simpl.
  by rewrite (alter_present _ _ _ _ H).
Qed.

Ltac norm_put Hr :=
  rewrite ?lookup_alter_eq, ?Hr; cbn;
  rewrite ?(upd_alter_put _ _ _ _ Hr);
  repeat (rewrite (upd_alter_put _ _ _ _ (put_reg_lookup _ _ _)), put_reg_put_reg);
  rewrite ?put_reg_lookup.

Lemma get_register_def_resolved s reg_name bus_index :
  get_register_def reg_name bus_index s = Ret (resolved s reg_name bus_index).
Proof.
  unfold get_register_def, resolved. mred.
  destruct (REGISTERS (self.Cfg s) !! reg_name) as [reg_def|] eqn:Hr; cbn; [|done].
  destruct (reg_def !! "type") as [ty|] eqn:Ht; cbn; [|done].
  destruct ((str_eq ty "pcicfg" || str_eq ty "mmcfg") && bool_decide ("device" ∈ dom reg_def)) eqn:Hc; cbn.
  2:{ by rewrite Hr. }
  destruct (reg_def !! "device") as [dev_name|] eqn:Hd; cbn; [|done].
  destruct (lookup_val (CONFIG_PCI (self.Cfg s)) dev_name) as [[dev|]|e] eqn:Hl; cbn; [| |done].
  2:{ by rewrite Hr. }
  destruct (dev !! "bus") as [b|] eqn:Hb; cbn; [|done].
  destruct (dev !! "dev") as [d|] eqn:Hdv; cbn; [|by norm_put Hr].
  destruct (dev !! "fun") as [f|] eqn:Hf; cbn; [|by norm_put Hr].
  destruct (lookup_val (BUS (self.Cfg s)) dev_name) as [[buses|]|e] eqn:Hbus; cbn;
    [| by norm_put Hr | by norm_put Hr].
  destruct (bus_index <? Z.of_nat (length buses)); cbn; [|by norm_put Hr].
  destruct (Py.list_getitem buses bus_index) as [b'|e]; cbn; by norm_put Hr.
Qed.

Lemma bool_decide_dom_insert (d : gmap string pyval) k j v :
  bool_decide (k ∈ dom d) = true → bool_decide (k ∈ dom (<[j := v]> d)) = true.
Proof.
  rewrite !bool_decide_eq_true, dom_insert_L. set_solver.
Qed.

Lemma resolved_again s reg_name bus_index d s1 :
  resolved s reg_name bus_index = (Ok d, s1) →
  resolved s1 reg_name bus_index = (Ok d, s1).
Proof.
  intros H. pose proof H as H0. unfold resolved in H.
  destruct (REGISTERS (self.Cfg s) !! reg_name) as [reg_def|] eqn:Hr; [|done].
  destruct (reg_def !! "type") as [ty|] eqn:Ht; [|done].
  destruct (str_eq ty "pcicfg" || str_eq ty "mmcfg") eqn:Hty; simpl in H;
    [|by simplify_eq].
  destruct (bool_decide ("device" ∈ dom reg_def)) eqn:Hdom; simpl in H;
    [|by simplify_eq].
  destruct (reg_def !! "device") as [dev_name|] eqn:Hd; [|done].
  destruct (lookup_val (CONFIG_PCI (self.Cfg s)) dev_name) as [[dev|]|e] eqn:Hl;
    [| by simplify_eq | done].
  destruct (dev !! "bus") as [b|] eqn:Hb; [|done].
  destruct (dev !! "dev") as [dv|] eqn:Hdv; [|done].
  destruct (dev !! "fun") as [f|] eqn:Hf; [|done].
  assert (Hgo : ∀ D,
    D !! "type" = Some ty → bool_decide ("device" ∈ dom D) = true →
    D !! "device" = Some dev_name →
    resolved (put_reg reg_name D s) reg_name bus_index
    = match lookup_val (BUS (self.Cfg s)) dev_name with
      | Exc e => (Exc e, put_reg reg_name (<["fun":=f]> (<["dev":=dv]> (<["bus":=b]> D))) s)
      | Ok None => (Ok (<["fun":=f]> (<["dev":=dv]> (<["bus":=b]> D))),
                    put_reg reg_name (<["fun":=f]> (<["dev":=dv]> (<["bus":=b]> D))) s)
      | Ok (Some buses) =>
          if bus_index <? Z.of_nat (length buses) then
            match Py.list_getitem buses bus_index with
            | Exc e => (Exc e, put_reg reg_name (<["fun":=f]> (<["dev":=dv]> (<["bus":=b]> D))) s)
            | Ok b' => (Ok (<["bus" := b']> (<["fun":=f]> (<["dev":=dv]> (<["bus":=b]> D)))),
                        put_reg reg_name (<["bus" := b']> (<["fun":=f]> (<["dev":=dv]> (<["bus":=b]> D)))) s)
            end
          else (Ok (<["fun":=f]> (<["dev":=dv]> (<["bus":=b]> D))),
                put_reg reg_name (<["fun":=f]> (<["dev":=dv]> (<["bus":=b]> D))) s)
      end).
  { intros D HDt HDdom HDd. unfold resolved.
    rewrite put_reg_lookup, HDt, Hty, HDdom, HDd, put_reg_CONFIG_PCI, Hl, Hb, Hdv, Hf,
      put_reg_BUS. simpl.
    destruct (lookup_val (BUS (self.Cfg s)) dev_name) as [[buses|]|e]; simpl;
      rewrite ?put_reg_put_reg; try done.
    destruct (bus_index <? _); rewrite ?put_reg_put_reg; try done.
    destruct (Py.list_getitem buses bus_index); by rewrite ?put_reg_put_reg. }
  destruct (lookup_val (BUS (self.Cfg s)) dev_name) as [[buses|]|e] eqn:Hbus; [| |done].
  - destruct (bus_index <? Z.of_nat (length buses)) eqn:Hlt.
    + destruct (Py.list_getitem buses bus_index) as [b'|e] eqn:Hg; [|done].
      simplify_eq. rewrite Hgo, ?Hbus, ?Hlt, ?Hg.
      * assert (<["bus":=b']> (<["fun":=f]> (<["dev":=dv]> (<["bus":=b]>
                  (<["bus":=b']> (<["fun":=f]> (<["dev":=dv]> (<["bus":=b]> reg_def)))))))
                = <["bus":=b']> (<["fun":=f]> (<["dev":=dv]> (<["bus":=b]> reg_def)))) as ->; [|done].
        apply map_eq. intros k. rewrite !lookup_insert. repeat case_decide; congruence.
      * by rewrite !lookup_insert_ne.
      * by do 4 apply bool_decide_dom_insert.
      * by rewrite !lookup_insert_ne.
    + simplify_eq. rewrite Hgo, ?Hbus, ?Hlt.
      * assert (<["fun":=f]> (<["dev":=dv]> (<["bus":=b]>
                  (<["fun":=f]> (<["dev":=dv]> (<["bus":=b]> reg_def)))))
                = <["fun":=f]> (<["dev":=dv]> (<["bus":=b]> reg_def))) as ->; [|done].
        apply map_eq. intros k. rewrite !lookup_insert. repeat case_decide; congruence.
      * by rewrite !lookup_insert_ne.
      * by do 3 apply bool_decide_dom_insert.
      * by rewrite !lookup_insert_ne.
  - simplify_eq. rewrite Hgo, ?Hbus.
    + assert (<["fun":=f]> (<["dev":=dv]> (<["bus":=b]>
                (<["fun":=f]> (<["dev":=dv]> (<["bus":=b]> reg_def)))))
              = <["fun":=f]> (<["dev":=dv]> (<["bus":=b]> reg_def))) as ->; [|done].
      apply map_eq. intros k. rewrite !lookup_insert. repeat case_decide; congruence.
    + by rewrite !lookup_insert_ne.
    + by do 3 apply bool_decide_dom_insert.
    + by rewrite !lookup_insert_ne.
Qed.

(** ** Field arithmetic *)

Lemma mask_ones w : Z.shiftl 1 w - 1 = Z.ones w.
Proof. unfold Z.ones. lia. Qed.

Lemma insert_extract_shifted r v b w :
  0 ≤ b → 0 ≤ w →
  Z.land (Z.shiftr (Z.lor (Z.land r (Z.lnot (Z.shiftl (Z.ones w) b)))
                          (Z.shiftl (Z.land v (Z.ones w)) b)) b) (Z.ones w)
  = Z.land v (Z.ones w).
Proof.
  intros Hb Hw. apply Z.bits_inj'. intros n Hn.
  rewrite !Z.land_spec, Z.shiftr_spec, Z.lor_spec, Z.land_spec, Z.lnot_spec,
    !Z.shiftl_spec, Z.land_spec by lia.
  replace (n + b - b) with n by lia.
  rewrite !Z.testbit_ones_nonneg by lia.
  destruct (n <? w); simpl; [|by rewrite !andb_false_r].
  by rewrite andb_false_r, andb_true_r.
Qed.

Lemma insert_extract_in_place r v b w :
  Z.land (Z.lor (Z.land r (Z.lnot (Z.shiftl (Z.ones w) b)))
                (Z.land v (Z.shiftl (Z.ones w) b))) (Z.shiftl (Z.ones w) b)
  = Z.land v (Z.shiftl (Z.ones w) b).
Proof.
  apply Z.bits_inj'. intros n Hn.
  rewrite !Z.land_spec, Z.lor_spec, !Z.land_spec, Z.lnot_spec by lia.
  destruct (Z.testbit (Z.shiftl (Z.ones w) b) n); simpl;
    by rewrite ?andb_false_r, ?andb_true_r.
Qed.

Lemma field_attrs_of_resolved s s1 reg_name reg_def fields field_name field_attrs :
  get_register_def reg_name 0 s = Ret (Ok reg_def, s1) →
  reg_def !! "FIELDS" = Some (PDict fields) →
  fields !! field_name = Some (PDict field_attrs) →
  field_attrs_of reg_name field_name s = Ret (Ok field_attrs, s1).
Proof.
  intros Hg Hf Ha. unfold field_attrs_of. mred. rewrite Hg. cbn.
  rewrite Hf. cbn. by rewrite Ha.
Qed.

Lemma get_register_def_again s s1 reg_name bus_index reg_def :
  get_register_def reg_name bus_index s = Ret (Ok reg_def, s1) →
  get_register_def reg_name bus_index s1 = Ret (Ok reg_def, s1).
Proof.
  rewrite !get_register_def_resolved. intros [= H].
  by rewrite (resolved_again _ _ _ _ _ H).
Qed.

(** C1 (amended). For a field of [bitWidth] bits at [bitOffset] with
    [bitWidth ≤ 64 - bitOffset], extracting the field from the result of
    inserting [v] gives [v & ((1 << bitWidth) - 1)] when
    [preserve_field_position] is off, and [v & (((1 << bitWidth) - 1) <<
    bitOffset)] when it is on. *)
Theorem register_field_round_trip
    (s s1 : Chipset) (reg_name field_name : string)
    (reg_def fields field_attrs : gmap string pyval)
    (bitOffset bitWidth reg v : Z) (preserve_field_position : bool) :
  get_register_def reg_name 0 s = Ret (Ok reg_def, s1) →
  reg_def !! "FIELDS" = Some (PDict fields) →
  fields !! field_name = Some (PDict field_attrs) →
  (Py.getitem field_attrs "bit" ≫= Py.int10) = Ok bitOffset →
  (Py.getitem field_attrs "size" ≫= Py.int10) = Ok bitWidth →
  0 ≤ bitOffset → 0 ≤ bitWidth → bitWidth ≤ 64 - bitOffset →
  ∃ reg',
    set_register_field reg_name reg field_name v preserve_field_position s
      = Ret (Ok reg', s1) ∧
    get_register_field reg_name reg' field_name preserve_field_position s1
      = Ret (Ok (if preserve_field_position
                 then Z.land v (Z.shiftl (Z.shiftl 1 bitWidth - 1) bitOffset)
                 else Z.land v (Z.shiftl 1 bitWidth - 1)), s1).
Proof.
  intros Hg Hf Ha Hbit Hsize Hb Hw _.
  pose proof (field_attrs_of_resolved _ _ _ _ _ _ _ Hg Hf Ha) as H1.
  pose proof (field_attrs_of_resolved _ _ _ _ _ _ _
                (get_register_def_again _ _ _ _ _ Hg) Hf Ha) as H2.
  assert (Hshl : ∀ a n, 0 ≤ n → Py.shl a n = Ok (Z.shiftl a n)).
  { intros a n Hn. unfold Py.shl. by rewrite (proj2 (Z.ltb_ge n 0)). }
  assert (Hshr : ∀ a n, 0 ≤ n → Py.shr a n = Ok (Z.shiftr a n)).
  { intros a n Hn. unfold Py.shr. by rewrite (proj2 (Z.ltb_ge n 0)). }
  unfold set_register_field, get_register_field. munfold.
  rewrite H1, H2. cbn. rewrite Hbit, Hsize, !Hshl by done. cbn.
  rewrite !mask_ones.
  destruct preserve_field_position; cbn.
  - eexists; split; [done|]. cbn.
    by rewrite insert_extract_in_place.
  - eexists; split; [done|]. cbn. rewrite Hshr by done.
    by rewrite insert_extract_shifted.
Qed.

(** ** Invariants of methods *)

Section preserves.
Context {S : Type} (I : S → Prop).

Lemma preserves_ret {A} (a : A) : preserves I (ret a).
Proof. by intros s Hs. Qed.
Lemma preserves_raise {A} e : preserves I (raise (A := A) e).
Proof. by intros s Hs. Qed.
Lemma preserves_lift {A} (r : result A) : preserves I (lift r).
Proof. by intros s Hs. Qed.
Lemma preserves_get : preserves I get.
Proof. by intros s Hs. Qed.
Lemma preserves_gets {A} (f : S → A) : preserves I (gets f).
Proof. by intros s Hs. Qed.
Lemma preserves_call c : preserves I (call c).
Proof. intros s Hs r. by destruct r. Qed.
Lemma preserves_modify f : (∀ s, I s → I (f s)) → preserves I (modify f).
Proof. intros Hf s Hs. simpl. auto. Qed.
Lemma preserves_bind {A B} (m : M S A) (f : A → M S B) :
  preserves I m → (∀ a, preserves I (f a)) → preserves I (m ≫= f).
Proof.
  intros Hm Hf s Hs. unfold bind_, M_bind, bind.
  apply always_prog_bind. eapply always_mono; [|by apply Hm].
  intros [[a|e] s'] Hs'; simpl in *; [by apply Hf|done].
Qed.
Lemma preserves_try_except {A} (m : M S A) h :
  preserves I m → (∀ e, preserves I (h e)) → preserves I (try_except m h).
Proof.
  intros Hm Hh s Hs. unfold try_except.
  apply always_prog_bind. eapply always_mono; [|by apply Hm].
  intros [[a|e] s'] Hs'; simpl in *; [done|by apply Hh].
Qed.
Lemma preserves_for_each {X} (l : list X) body :
  (∀ x, preserves I (body x)) → preserves I (for_each l body).
Proof.
  intros Hb. induction l as [|x l IH]; simpl.
  - apply preserves_ret.
  - apply (preserves_bind (body x) (λ _, for_each l body)); auto.
Qed.
End preserves.

Lemma preserves_with_tree {A} (I : Chipset → Prop) root (m : M Doc A) :
  preserves (λ ts : Doc, I ts.2) m → preserves I (with_tree root m).
Proof.
  intros Hm s Hs. unfold with_tree. apply always_prog_bind.
  eapply always_mono; [|by apply (Hm (root, s))]. by intros [r [t s']].
Qed.

Ltac preserves_step :=
  lazymatch goal with
  | |- preserves _ (bind_ _ _) => apply preserves_bind; [|intros ?]
  | |- preserves _ (ret _) => apply preserves_ret
  | |- preserves _ (raise _) => apply preserves_raise
  | |- preserves _ (lift _) => apply preserves_lift
  | |- preserves _ get => apply preserves_get
  | |- preserves _ (gets _) => apply preserves_gets
  | |- preserves _ (call _) =>
      first [apply preserves_call
            | (intros ?s ?Hs; simpl; intros [?|?]; simpl; assumption)]
  | |- preserves _ (try_except _ _) => apply preserves_try_except; [|intros ?]
  | |- preserves _ (for_each _ _) => apply preserves_for_each; intros ?
  | |- preserves _ (with_tree _ _) => apply preserves_with_tree
  | |- preserves _ (int16_of _ _) => apply preserves_lift
  | |- preserves _ (if ?b then _ else _) => destruct b
  | |- preserves _ (match ?x with _ => _ end) => destruct x
  | |- preserves _ (let _ := _ in _) => cbv zeta
  end.








(** ** Unknown register types *)

(** C5. For a register whose declared ['type'] is none of the eight kinds
    of [RegisterType], both [read_register] and [write_register] raise
    [RegisterTypeNotFoundError]: no call is made, no value is returned and
    the store is as before. *)
Theorem unknown_register_type_raises
    (s : Chipset) (reg_name : string) (reg_def : gmap string pyval) (ty : pyval)
    (reg_value cpu_thread bus_index : Z) :
  REGISTERS (self.Cfg s) !! reg_name = Some reg_def →
  reg_def !! "type" = Some ty →
  (∀ k, k ∈ register_types → ty ≠ PStr k) →
  read_register reg_name cpu_thread bus_index s
    = Ret (Exc (RegisterTypeNotFoundError ty), s) ∧
  write_register reg_name reg_value cpu_thread bus_index s
    = Ret (Exc (RegisterTypeNotFoundError ty), s).
Proof.
  intros Hr Ht Hty.
  assert (Hk : ∀ k, k ∈ register_types → str_eq ty k = false).
  { intros k Hk. destruct ty as [x| |]; simpl; try done.
    apply String.eqb_neq. intros ->. by apply (Hty k). }
  assert (Hg : get_register_def reg_name bus_index s = Ret (Ok reg_def, s)).
  { rewrite get_register_def_resolved. unfold resolved. rewrite Hr, Ht.
    rewrite !Hk by (unfold register_types; set_solver). done. }
  unfold read_register, write_register. munfold. rewrite Hg. cbn.
  unfold Py.getitem. rewrite Ht. cbn.
  rewrite !Hk by (unfold register_types; set_solver). done.
Qed.

Lemma unknown_register_type_raises_witness :
  read_register "ODD" 0 0 demo_cs
    = Ret (Exc (RegisterTypeNotFoundError (PStr "smbus")), demo_cs) ∧
  write_register "ODD" 0x1 0 0 demo_cs
    = Ret (Exc (RegisterTypeNotFoundError (PStr "smbus")), demo_cs).
Proof.
  eapply (unknown_register_type_raises demo_cs "ODD" _ (PStr "smbus") 0x1 0 0).
  - vm_compute. reflexivity.
  - vm_compute. reflexivity.
  - intros k Hk [= <-]. revert Hk. unfold register_types.
    rewrite !elem_of_cons, elem_of_nil. vm_compute. intuition discriminate.
Defined.

(** ** Fields *)

Lemma register_field_round_trip_witness :
  ∃ reg',
    set_register_field "FEATCTL" 0xFF "MODE" 0x25 true demo_cs
      = Ret (Ok reg', demo_cs) ∧
    get_register_field "FEATCTL" reg' "MODE" true demo_cs
      = Ret (Ok (Z.land 0x25 (Z.shiftl (Z.shiftl 1 4 - 1) 4)), demo_cs).
Proof.
  eapply (register_field_round_trip demo_cs demo_cs "FEATCTL" "MODE" _ _ _
            4 4 0xFF 0x25 true).
  - vm_compute. reflexivity.
  - vm_compute. reflexivity.
  - vm_compute. reflexivity.
  - vm_compute. reflexivity.
  - vm_compute. reflexivity.
  - lia.
  - lia.
  - lia.
Defined.

(** With [preserve_field_position] the field value is taken and returned
    in place: inserting 5 into the field at bits 4..7 and extracting it
    again gives 0, not [5 & 0xF]. *)
Lemma register_field_round_trip_counterexample :
  ∃ reg',
    set_register_field "FEATCTL" 0 "MODE" 5 true demo_cs = Ret (Ok reg', demo_cs) ∧
    get_register_field "FEATCTL" reg' "MODE" true demo_cs = Ret (Ok 0, demo_cs) ∧
    0 ≠ Z.land 5 (Z.shiftl 1 4 - 1).
Proof.
  exists 0. split; [vm_compute; reflexivity|].
  split; [vm_compute; reflexivity|]. vm_compute. discriminate.
Qed.

(** ** 64-bit registers in PCI configuration space *)

Lemma run_prog_bind {A B W} (h : world W) (t : prog A) (f : A → prog B) (w : W) :
  run h (prog_bind t f) w = run h (f (run h t w).1) (run h t w).2.
Proof. revert w. induction t as [a|c k IH]; intros w; simpl; [done|apply IH]. Qed.

Lemma qword_of_dwords x :
  0 ≤ x < 2 ^ 64 →
  Z.lor (Z.shiftl (Z.land (Z.land (Z.shiftr x 32) 0xFFFFFFFF) 0xFFFFFFFF) 32)
        (Z.land (Z.land x 0xFFFFFFFF) 0xFFFFFFFF) = x.
Proof.
  intros Hx. change 0xFFFFFFFF with (Z.ones 32).
  apply Z.bits_inj'. intros n Hn.
  rewrite Z.lor_spec, !Z.land_spec.
  destruct (Z.lt_ge_cases n 32) as [Hlt|Hge].
  - rewrite Z.shiftl_spec_low by done.
    rewrite Z.testbit_ones_nonneg by lia.
    rewrite (proj2 (Z.ltb_lt n 32)) by done. simpl. by rewrite !andb_true_r.
  - rewrite Z.shiftl_spec by lia. rewrite !Z.land_spec, Z.shiftr_spec by lia.
    replace (n - 32 + 32) with n by lia.
    rewrite !Z.testbit_ones_nonneg by lia.
    rewrite (proj2 (Z.ltb_ge n 32)) by done. rewrite !andb_false_r, orb_false_r.
    destruct (Z.lt_ge_cases n 64) as [Hlt|Hge'].
    + rewrite (proj2 (Z.ltb_lt (n - 32) 32)) by lia. by rewrite !andb_true_r.
    + rewrite (proj2 (Z.ltb_ge (n - 32) 32)) by lia. rewrite !andb_false_r.
      symmetry. destruct (decide (x = 0)) as [->|Hx0]; [apply Z.bits_0|].
      apply Z.bits_above_log2; [lia|].
      assert (Z.log2 x < 64) by (apply Z.log2_lt_pow2; lia). lia.
Qed.

(** C2 (amended). For a register of kind [pcicfg] declared with size 8,
    [read_register] performs exactly two dword reads, the high dword at
    offset+4 first and the low dword at the declared offset second, and
    returns [(high << 32) | low]; [write_register] writes the low dword at
    the offset first and the high dword at offset+4 second; and over a
    configuration space of dwords a 64-bit value written is the value read
    back, so bits of the high dword are not lost. *)
Theorem pcicfg_qword_access
    (s s1 : Chipset) (reg_name : string) (reg : gmap string pyval)
    (cpu_thread bus_index b d f o x : Z) :
  get_register_def reg_name bus_index s = Ret (Ok reg, s1) →
  reg !! "type" = Some (PStr "pcicfg") →
  (Py.getitem reg "bus" ≫= Py.int16) = Ok b →
  (Py.getitem reg "dev" ≫= Py.int16) = Ok d →
  (Py.getitem reg "fun" ≫= Py.int16) = Ok f →
  (Py.getitem reg "offset" ≫= Py.int16) = Ok o →
  (Py.getitem reg "size" ≫= Py.int16) = Ok 8 →
  0 ≤ x < 2 ^ 64 →
  read_register reg_name cpu_thread bus_index s
    = Call (pci_read_dword b d f (o + 4))
        (λ r1, match r1 with
               | Returned hi =>
                   Call (pci_read_dword b d f o)
                     (λ r2, match r2 with
                            | Returned lo => Ret (Ok (Z.lor (Z.shiftl hi 32) lo), s1)
                            | Raised e => Ret (Exc (External e), s1)
                            end)
               | Raised e => Ret (Exc (External e), s1)
               end) ∧
  write_register reg_name x cpu_thread bus_index s
    = Call (pci_write_dword b d f o (Z.land x 0xFFFFFFFF))
        (λ r1, match r1 with
               | Returned _ =>
                   Call (pci_write_dword b d f (o + 4)
                           (Z.land (Z.shiftr x 32) 0xFFFFFFFF))
                     (λ r2, match r2 with
                            | Returned _ => Ret (Ok tt, s1)
                            | Raised e => Ret (Exc (External e), s1)
                            end)
               | Raised e => Ret (Exc (External e), s1)
               end) ∧
  ∀ w, (run cfg_space_world
          ((write_register reg_name x cpu_thread bus_index;;
            read_register reg_name cpu_thread bus_index) s) w).1 = (Ok x, s1).
Proof.
  intros Hg Ht Hb Hd Hf Ho Hsz Hx.
  pose proof (get_register_def_again _ _ _ _ _ Hg) as Hg1.
  assert (Hread : ∀ s0, get_register_def reg_name bus_index s0 = Ret (Ok reg, s1) →
    read_register reg_name cpu_thread bus_index s0
    = Call (pci_read_dword b d f (o + 4))
        (λ r1, match r1 with
               | Returned hi =>
                   Call (pci_read_dword b d f o)
                     (λ r2, match r2 with
                            | Returned lo => Ret (Ok (Z.lor (Z.shiftl hi 32) lo), s1)
                            | Raised e => Ret (Exc (External e), s1)
                            end)
               | Raised e => Ret (Exc (External e), s1)
               end)).
  { intros s0 Hs0. unfold read_register. munfold. rewrite Hs0. cbn.
    rewrite (getitem_Some _ _ _ Ht). cbn.
    rewrite Hb, Hd, Hf, Ho, Hsz. cbn. f_equal.
    apply functional_extensionality. intros [hi|e]; cbn; [|done]. f_equal.
    apply functional_extensionality. by intros [lo|e]. }
  assert (Hwrite : write_register reg_name x cpu_thread bus_index s
    = Call (pci_write_dword b d f o (Z.land x 0xFFFFFFFF))
        (λ r1, match r1 with
               | Returned _ =>
                   Call (pci_write_dword b d f (o + 4)
                           (Z.land (Z.shiftr x 32) 0xFFFFFFFF))
                     (λ r2, match r2 with
                            | Returned _ => Ret (Ok tt, s1)
                            | Raised e => Ret (Exc (External e), s1)
                            end)
               | Raised e => Ret (Exc (External e), s1)
               end)).
  { unfold write_register. munfold. rewrite Hg. cbn.
    rewrite (getitem_Some _ _ _ Ht). cbn.
    rewrite Hb, Hd, Hf, Ho, Hsz. cbn. f_equal.
    apply functional_extensionality. intros [[]|e]; cbn; [|done].
    unfold call. f_equal.
    apply functional_extensionality. by intros [[]|e]. }
  split; [by apply Hread|]. split; [done|].
  intros w. unfold bind_, M_bind, bind. rewrite run_prog_bind, Hwrite. cbn.
  rewrite (Hread s1 Hg1). cbn.
  rewrite lookup_insert_eq, lookup_insert_ne, lookup_insert_eq by (intros [=]; lia).
  cbn. by rewrite qword_of_dwords.
Qed.

Lemma pcicfg_qword_access_witness :
  (run cfg_space_world
     ((write_register "QW" 0xFFFFFFFF00000000 0 0;;
       read_register "QW" 0 0) demo_cs) ∅).1.1 = Ok 0xFFFFFFFF00000000.
Proof.
  destruct (pcicfg_qword_access demo_cs (resolved demo_cs "QW" 0).2 "QW"
              (match (resolved demo_cs "QW" 0).1 with Ok r => r | Exc _ => ∅ end)
              0 0 0 31 0 0x10 0xFFFFFFFF00000000) as (_ & _ & H).
  - vm_compute. reflexivity.
  - vm_compute. reflexivity.
  - vm_compute. reflexivity.
  - vm_compute. reflexivity.
  - vm_compute. reflexivity.
  - vm_compute. reflexivity.
  - vm_compute. reflexivity.
  - lia.
  - by rewrite H.
Defined.

(** The register QW of the example sits at offset 0x10 of device 0:31.0:
    the first access of [read_register] is the dword at 0x14. *)
Lemma pcicfg_qword_read_order_counterexample :
  calls demo_world (read_register "QW" 0 0 demo_cs) tt
    = [pci_read_dword 0 31 0 0x14; pci_read_dword 0 31 0 0x10] ∧
  calls demo_world (read_register "QW" 0 0 demo_cs) tt
    ≠ [pci_read_dword 0 31 0 0x10; pci_read_dword 0 31 0 0x14].
Proof. split; [vm_compute; reflexivity|]. vm_compute. discriminate. Qed.

(** ** What register access changes in the store *)

Lemma always_bind {S A B} (m : M S A) (f : A → M S B) (s : S)
    (Q : result B * S → Prop) :
  always (m s) (λ rs, match rs.1 with
                      | Ok a => always (f a rs.2) Q
                      | Exc e => Q (Exc e, rs.2)
                      end) →
  always ((m ≫= f) s) Q.
Proof.
  intros H. unfold bind_, M_bind, bind. apply always_prog_bind.
  eapply always_mono; [|exact H]. by intros [[a|e] s'].
Qed.




(** What [touched_at] leaves alone. *)
Lemma touched_at_frame keys n s0 s :
  touched_at keys n s0 s →
  CONFIG_PCI (self.Cfg s) = CONFIG_PCI (self.Cfg s0) ∧
  MMIO_BARS (self.Cfg s) = MMIO_BARS (self.Cfg s0) ∧
  IO_BARS (self.Cfg s) = IO_BARS (self.Cfg s0) ∧
  MEMORY_RANGES (self.Cfg s) = MEMORY_RANGES (self.Cfg s0) ∧
  CONTROLS (self.Cfg s) = CONTROLS (self.Cfg s0) ∧
  BUS (self.Cfg s) = BUS (self.Cfg s0) ∧
  dom (REGISTERS (self.Cfg s)) = dom (REGISTERS (self.Cfg s0)) ∧
  (∀ m, m ≠ n → REGISTERS (self.Cfg s) !! m = REGISTERS (self.Cfg s0) !! m) ∧
  (∀ d' k, REGISTERS (self.Cfg s) !! n = Some d' → k ∉ keys →
     ∃ d, REGISTERS (self.Cfg s0) !! n = Some d ∧ d' !! k = d !! k).
Proof.
  intros (f & -> & Hf).
  destruct s0 as [? ? ? ? ? ? ? ? ? ? ? ? [? ? ? ? R ? ? ?]];
    unfold alter_reg, self.upd_Cfg, upd_REGISTERS; simpl.
  repeat split; try done.
  - apply dom_alter_L.
  - intros m Hm. by apply lookup_alter_ne.
  - intros d' k. rewrite lookup_alter_eq.
    destruct (R !! n) as [d|]; simpl; [|done].
    intros [= <-] Hk. exists d. split; [done|by apply Hf].
Qed.





(** ** Controls *)

(** C7 (the code at a failing input). The control FeatureMode of the
    example names the field MODE of the MSR 0x3A.  With [cpu_thread = 1]
    [get_control] reads the MSR on thread 0 and [set_control] writes it on
    thread 0 with the value taken in place, whereas the field-level read
    and write on thread 1 access thread 1. *)
Theorem control_ignores_cpu_thread :
  calls demo_world (get_control "FeatureMode" 1 demo_cs) tt
    = [msr_read_msr 0 0x3A] ∧
  calls demo_world (read_register_field "FEATCTL" "MODE" false 1 demo_cs) tt
    = [msr_read_msr 1 0x3A] ∧
  calls demo_world (set_control "FeatureMode" 0x3 1 demo_cs) tt
    = [msr_read_msr 0 0x3A; msr_write_msr 0 0x3A 0 0] ∧
  calls demo_world (write_register_field "FEATCTL" "MODE" 0x3 false 1 demo_cs) tt
    = [msr_read_msr 1 0x3A; msr_write_msr 1 0x3A 0x30 0].
Proof. repeat split; vm_compute; reflexivity. Qed.

(** ** Invariants of loading *)

Lemma always_True {A} (t : prog A) : always t (λ _, True).
Proof. induction t as [a|c k IH]; simpl; auto. Qed.

Lemma always_and {A} (t : prog A) (P Q : A → Prop) :
  always t P → always t Q → always t (λ a, P a ∧ Q a).
Proof. induction t as [a|c k IH]; simpl; auto. Qed.

Section loading.
Context (I : Chipset → Prop).
Hypothesis I_Cfg : ∀ s f, I s → I (self.upd_Cfg f s).

Lemma preserves_modify_attrib p f : preserves (λ ts : Doc, I ts.2) (modify_attrib p f).
Proof. by apply preserves_modify. Qed.

Lemma preserves_modify_category c f :
  preserves (λ ts : Doc, I ts.2) (modify_category c f).
Proof. apply preserves_modify. intros [t s] Hs. simpl in *. by apply I_Cfg. Qed.

Lemma preserves_upd_Cfg f : preserves I (modify (self.upd_Cfg f)).
Proof. apply preserves_modify. intros. by apply I_Cfg. Qed.

Ltac loading_step :=
  lazymatch goal with
  | |- preserves _ (modify_attrib _ _) => apply preserves_modify_attrib
  | |- preserves _ (modify_category _ _) => apply preserves_modify_category
  | |- preserves _ (modify (self.upd_Cfg _)) => apply preserves_upd_Cfg
  | |- preserves _ (attrib_at _) => apply preserves_gets
  | |- preserves _ (element_at _) => apply preserves_gets
  | |- _ => preserves_step
  end.

Lemma preserves_load_fields p qs reg_fields :
  preserves (λ ts : Doc, I ts.2) (load_fields p qs reg_fields).
Proof.
  revert reg_fields. induction qs as [|q qs IH]; intros reg_fields; simpl.
  - apply preserves_ret.
  - apply preserves_bind; [|done]. unfold load_field.
    repeat loading_step.
Qed.

Lemma preserves_load_entry c p : preserves (λ ts : Doc, I ts.2) (load_entry c p).
Proof.
  unfold load_entry, complete_register.
  repeat first [apply preserves_load_fields | loading_step].
Qed.

Lemma preserves_load_section code pch_code pc :
  preserves (λ ts : Doc, I ts.2) (load_section code pch_code pc).
Proof.
  unfold load_section, load_group.
  repeat first [apply preserves_load_entry | loading_step].
Qed.

Lemma preserves_init_cfg_xml fxml code pch_code :
  preserves I (init_cfg_xml fxml code pch_code).
Proof.
  unfold init_cfg_xml.
  repeat first [apply preserves_load_section | loading_step].
Qed.

Lemma preserves_init_cfg_bus : preserves I init_cfg_bus.
Proof.
  unfold init_cfg_bus, init_cfg_bus_device.
  repeat loading_step.
Qed.

Lemma preserves_init_xml_configuration : preserves I init_xml_configuration.
Proof.
  unfold init_xml_configuration.
  repeat
    lazymatch goal with
    | |- preserves _ (init_cfg_xml _ _ _) => apply preserves_init_cfg_xml
    | |- preserves _ init_cfg_bus => apply preserves_init_cfg_bus
    | |- _ => loading_step
    end.
Qed.

Lemma preserves_init_cfg : preserves I init_cfg.
Proof.
  unfold init_cfg.
  repeat
    lazymatch goal with
    | |- preserves _ init_xml_configuration => apply preserves_init_xml_configuration
    | |- _ => loading_step
    end.
Qed.
End loading.

(** ** Platform identification *)

Lemma detect_platform_returns s :
  always (detect_platform s) (λ rs, ∃ ids, rs = (Ok ids, s)).
Proof.
  unfold detect_platform, try_except. munfold. unfold call. cbn.
  intros [vd|e]; cbn; [intros [r|e]; cbn|];
    (intros [vd'|e']; cbn; [intros [r'|e']; cbn|]); eauto.
Qed.

Lemma same_identity_refl s : same_identity s s.
Proof. exists (self.Cfg s). by destruct s. Qed.

Lemma same_identity_upd_Cfg s0 s f :
  same_identity s0 s → same_identity s0 (self.upd_Cfg f s).
Proof. intros [cfg ->]. exists (f cfg). by destruct s0. Qed.

Lemma init_cfg_outcome s :
  always (init_cfg s)
    (λ rs, same_identity s rs.2 ∧ (rs.1 = Ok tt ∨ ∃ e, rs.1 = Exc (External e))).
Proof.
  apply always_and.
  - apply (preserves_init_cfg (same_identity s)).
    + intros. by apply same_identity_upd_Cfg.
    + apply same_identity_refl.
  - unfold init_cfg. apply always_bind. cbn [get always fst snd]. apply always_bind.
    assert (Hxml : ∀ s', always (try_except init_xml_configuration (λ _, ret ()) s')
                      (λ rs, rs.1 = Ok () ∨ ∃ e, rs.1 = Exc (External e))).
    { intros s'. unfold try_except. apply always_prog_bind.
      eapply always_mono; [|apply always_True]. intros [[[]|e] s''] _; simpl; auto. }
    destruct (negb (String.eqb (self.code s) "")); [|apply Hxml].
    unfold try_except at 1. apply always_prog_bind. apply always_bind.
    unfold call. cbn [always]. intros [cfg|e]; cbn -[init_xml_configuration].
    + apply Hxml.
    + destruct e; cbn -[init_xml_configuration]; [apply Hxml|eauto].
Qed.

Lemma dict_of_items_lookup {K V} `{Countable K} (items : list (K * V)) k v :
  dict_of_items items !! k = Some v → (k, v) ∈ items.
Proof.
  unfold dict_of_items.
  assert (Hgen : ∀ m : gmap K V, foldl (λ m kv, <[kv.1 := kv.2]> m) m items !! k = Some v →
                      (k, v) ∈ items ∨ m !! k = Some v).
  { induction items as [|[k' v'] items IH]; intros m; simpl; [auto|].
    intros Hl. destruct (IH _ Hl) as [Hin|Hm]; [left; by right|].
    rewrite lookup_insert in Hm. case_decide; simplify_eq; [left; by left|auto]. }
  intros Hl. destruct (Hgen _ Hl) as [?|Hm]; [done|by rewrite lookup_empty in Hm].
Qed.

Lemma codes_of_lookup items c d :
  codes_of items !! c = Some d →
  ∃ e, dict_of_items items !! d = Some e ∧ d_code e = c.
Proof.
  unfold codes_of. intros Hl. apply dict_of_items_lookup in Hl.
  apply list_elem_of_omap in Hl as (did & _ & Hg).
  unfold bind_, option_bind in Hg.
  destruct (dict_of_items items !! did) as [e|] eqn:He; [|done].
  simplify_eq. eauto.
Qed.

Lemma Chipset_Code_in_dictionary c d :
  Chipset_Code !! c = Some d →
  ∃ e, Chipset_Dictionary !! d = Some e ∧ d_code e = c.
Proof. apply codes_of_lookup. Qed.

Lemma always_call {S} (c : hal_op) (s : S) (Q : result (reply_type c) * S → Prop) :
  (∀ r, Q (match r with Returned x => Ok x | Raised e => Exc (External e) end, s)) →
  always (call c s) Q.
Proof. intros H [x|e]; apply (H (Returned x)) || apply (H (Raised e)). Qed.

Ltac astep :=
  lazymatch goal with
  | |- always ((_ ≫= _) _) _ => apply always_bind
  | |- always (call _ _) _ =>
      apply always_call; intros [?|?]; cbn [fst snd always]
  | |- always (modify ?f ?s) ?Q => change (Q (Ok tt, f s)); cbn [fst snd always]
  | |- always (get ?s) ?Q => change (Q (Ok s, s)); cbn [fst snd always]
  | |- always (ret ?a ?s) ?Q => change (Q (Ok a, s)); cbn [fst snd always]
  | |- always (raise ?e ?s) ?Q => change (Q (Exc e, s)); cbn [fst snd always]
  | |- always (detect_platform _) _ =>
      eapply always_mono; [|apply detect_platform_returns];
      intros ? [[[[[[v d] r] pv] pd] pr] ->]; cbn [fst snd always]
  | |- always (init_cfg _) _ =>
      eapply always_mono; [|apply init_cfg_outcome];
      intros [? ?] [[? ->] [->|[? ->]]]; cbn [fst snd always]
  | |- always ((match ?x with _ => _ end) _) _ => destruct x eqn:?
  | |- always ((if ?b then _ else _) _) _ => destruct b eqn:?
  end.

Ltac simpl_self :=
  cbn [self.vid self.did self.rid self.code self.longname self.id self.pch_vid
       self.pch_did self.pch_rid self.pch_code self.pch_longname self.pch_id
       self.Cfg self.set_vid self.set_did self.set_rid self.set_code
       self.set_longname self.set_id self.set_pch_vid self.set_pch_did
       self.set_pch_rid self.set_pch_code self.set_pch_longname self.set_pch_id
       self.upd_Cfg fst snd] in *.

Lemma init_outcome platform_code req_pch_code start_driver s :
  always (init platform_code req_pch_code start_driver s)
    (λ rs, (∃ e, rs.1 = Exc (External e)) ∨
           ∃ v d r,
             (self.vid rs.2, self.did rs.2, self.rid rs.2)
               = settled_ids platform_code v d r ∧
             (Chipset_Dictionary !! self.did rs.2 = None →
                self.code rs.2 = self.code s ∧ self.id rs.2 = self.id s ∧
                self.longname rs.2 = "UnknownPlatform") ∧
             (∀ e, Chipset_Dictionary !! self.did rs.2 = Some e →
                self.code rs.2 = Py.lower (d_code e) ∧ self.id rs.2 = d_id e ∧
                self.longname rs.2 = d_longname e) ∧
             rs.1 = if settled_unknown platform_code v d r && start_driver
                    then Exc (UnknownChipsetError (self.vid rs.2) (self.did rs.2)
                                (self.rid rs.2))
                    else Ok tt).
Proof.
  unfold init, settled_unknown, settled_ids.
  generalize Chipset_Code, Chipset_Dictionary, pch_codes, pch_dictionary.
  intros codes dictionary pcodes pdictionary.
  repeat astep.
  all: try (left; eexists; reflexivity).
  all: right; exists v, d, r; simpl_self.
  all: try (cbn [andb] in *; discriminate).
  all: repeat match goal with H : ?l = _ |- context [?l] => rewrite H end.
  all: rewrite ?orb_false_r, ?orb_true_r; cbn [andb orb negb fst snd].
  all: repeat match goal with H : ?l = _ |- context [?l] => rewrite H end.
  all: repeat split; try done; try (by intros ? [= <-]); try congruence.
  all: destruct start_driver; cbn [andb] in *; try done; congruence.
Qed.

Lemma always_run {A W} (h : world W) (t : prog A) (w : W) (Q : A → Prop) :
  always t Q → Q (run h t w).1.
Proof. revert w. induction t as [a|c k IH]; intros w; simpl; auto. Qed.

Lemma no_catalog_entry_FFFF : Chipset_Dictionary !! 0xFFFF = None.
Proof. vm_compute. reflexivity. Qed.

(** C8. With an explicit chipset code, when no call into the helper or
    the platform module fails: a code of the catalog gives the identity
    vendor 0x8086, the device id that [Chipset_Code] has for the code (the
    key of a [Chipset_Dictionary] entry with that code) and revision 0,
    whatever was read from the hardware; a code that is not in the catalog
    gives vendor 0xFFFF, device 0xFFFF, revision 0xFF, leaves code and id as
    they were, names the platform UnknownPlatform and, when a driver is
    asked for, ends in [UnknownChipsetError]. *)
Theorem init_explicit_code
    (pc : string) (req_pch_code : option string) (start_driver : bool)
    (s : Chipset) :
  always (init (Some pc) req_pch_code start_driver s)
    (λ rs, (∀ e, rs.1 ≠ Exc (External e)) →
           match Chipset_Code !! pc with
           | Some did =>
               self.vid rs.2 = 0x8086 ∧ self.did rs.2 = did ∧ self.rid rs.2 = 0 ∧
               ∃ e, Chipset_Dictionary !! did = Some e ∧ d_code e = pc ∧
                    self.code rs.2 = Py.lower pc
           | None =>
               self.vid rs.2 = 0xFFFF ∧ self.did rs.2 = 0xFFFF ∧
               self.rid rs.2 = 0xFF ∧
               self.code rs.2 = self.code s ∧ self.id rs.2 = self.id s ∧
               self.longname rs.2 = "UnknownPlatform" ∧
               rs.1 = if start_driver
                      then Exc (UnknownChipsetError 0xFFFF 0xFFFF 0xFF)
                      else Ok tt
           end).
Proof.
  eapply always_mono; [|apply init_outcome].
  unfold settled_unknown, settled_ids.
  generalize Chipset_Code_in_dictionary, no_catalog_entry_FFFF.
  generalize Chipset_Code, Chipset_Dictionary. intros codes dictionary Hcat HFFFF.
  intros [r s'] [[e ->]|(v & d & r0 & Hids & Hnone & Hsome & Hr)] Hext;
    cbn [fst snd] in *; [by destruct (Hext e)|].
  destruct (codes !! pc) as [did|] eqn:Hpc.
  - injection Hids as Hv Hd Hrid. repeat split; try done.
    destruct (Hcat _ _ Hpc) as (e & He & Hc).
    exists e. repeat split; try done.
    rewrite <-Hd in He. destruct (Hsome e He) as (-> & _). by rewrite Hc.
  - injection Hids as Hv Hd Hrid. cbn [fst snd orb] in Hr.
    rewrite Hv, Hd, Hrid in Hr. rewrite Hd in Hnone.
    destruct (Hnone HFFFF) as (? & ? & ?).
    repeat split; try done.
Qed.

Lemma init_explicit_code_witness :
  let rs := (run demo_world (init (Some "SNB") None true Chipset_new) tt).1 in
  self.vid rs.2 = 0x8086 ∧ self.did rs.2 = 0x0108 ∧ self.rid rs.2 = 0 ∧
  ∃ e, Chipset_Dictionary !! 0x0108 = Some e ∧ d_code e = "SNB" ∧
       self.code rs.2 = Py.lower "SNB".
Proof.
  pose proof (always_run demo_world _ tt _
                (init_explicit_code "SNB" None true Chipset_new)) as H.
  cbv zeta. apply H. vm_compute. intros e. discriminate.
Defined.



(** ** Bus resolution *)

Lemma split_go_nonempty sep cur l : Py.split_go sep cur l ≠ [].
Proof.
  revert cur. induction l as [|c l IH]; intros cur; simpl; [done|].
  destruct (Ascii.eqb c sep); [done|apply IH].
Qed.

Lemma map_result_nonempty {X Y} (f : X → result Y) l ys :
  map_result f l = Ok ys → l ≠ [] → ys ≠ [].
Proof.
  destruct l as [|x l]; [done|]. simpl. unfold bind_, result_bind.
  destruct (f x); [|done]. destruct (map_result f l); [|done].
  by intros [= <-].
Qed.

(** ** The order of the documents *)

Lemma elem_of_filter_bool {A} (f : A → bool) (l : list A) x :
  x ∈ List.filter f l ↔ x ∈ l ∧ f x = true.
Proof. rewrite !list_elem_of_In. apply filter_In. Qed.

Lemma StronglySorted_filter_bool {A} (R : relation A) (f : A → bool) l :
  StronglySorted R l → StronglySorted R (List.filter f l).
Proof.
  induction 1 as [|x l Hl IH Hx]; simpl; [constructor|].
  destruct (f x); [|done]. constructor; [done|].
  apply Forall_forall. intros y Hy. apply elem_of_filter_bool in Hy as [Hy _].
  by eapply Forall_forall in Hx.
Qed.

Lemma cfg_files_of_sorted walk : StronglySorted String.le (cfg_files_of walk).
Proof. apply (StronglySorted_merge_sort String.le). Qed.

Lemma elem_of_dict_keys {V} (d : gmap string V) k :
  k ∈ dict_keys d ↔ is_Some (d !! k).
Proof.
  unfold dict_keys. rewrite list_elem_of_fmap. split.
  - intros ([k' v] & -> & Hin). apply elem_of_map_to_list in Hin. eauto.
  - intros [v Hv]. exists (k, v). split; [done|]. by apply elem_of_map_to_list.
Qed.

Lemma Chipset_Code_SNB_known : is_Some (Chipset_Code !! "SNB").
Proof. exists 0x0108. vm_compute. reflexivity. Qed.

(** What the fourth phase leaves out. *)
Lemma elem_of_platform_files _cfg_files x :
  x ∈ platform_files _cfg_files ↔
  x ∈ _cfg_files ∧
  ((∃ c, is_Some (Chipset_Code !! c) ∧ matches x (Py.lower c +:+ "*.xml") = true)
   ∨ Py.startswith (Py.basename x) (Py.lower PCH_CODE_PREFIX) = true).
Proof.
  unfold platform_files. generalize Chipset_Code_SNB_known.
  generalize Chipset_Code. intros codes Hsnb.
  rewrite list_elem_of_join. split.
  - intros (l & Hx & Hl). apply list_elem_of_fmap in Hl as (plat & -> & Hplat).
    apply list_elem_of_fmap in Hplat as (c & -> & Hc).
    apply elem_of_dict_keys in Hc.
    apply elem_of_filter_bool in Hx as [Hx Hm]. split; [done|].
    apply orb_true_iff in Hm as [Hm|Hm]; [left; eauto|by right].
  - intros [Hx Hm].
    assert (Hgo : ∀ c, is_Some (codes !! c) →
              (matches x (Py.lower c +:+ "*.xml")
               || Py.startswith (Py.basename x) (Py.lower PCH_CODE_PREFIX)) = true →
              ∃ l, x ∈ l ∧
                l ∈ (λ plat, List.filter
                       (λ x, matches x (plat +:+ "*.xml")
                             || Py.startswith (Py.basename x) (Py.lower PCH_CODE_PREFIX))
                       _cfg_files) <$> (Py.lower <$> dict_keys codes)).
    { intros c Hc Hm'. eexists. split; [|apply list_elem_of_fmap_2, list_elem_of_fmap_2,
                                          elem_of_dict_keys, Hc].
      by apply elem_of_filter_bool. }
    destruct Hm as [(c & Hc & Hm)|Hm].
    + apply (Hgo c Hc). by rewrite Hm.
    + apply (Hgo "SNB" Hsnb). by rewrite Hm, orb_true_r.
Qed.

(** The list of the documents to load: the files whose basename matches
    [common*.xml]; then, unless the chipset code is empty, the files that
    match [<code>*.xml]; then, unless the PCH code is empty, the files that
    match [<pch_code>*.xml]; then the remaining files that are not yet in
    the list, match no [<c>*.xml] for a code [c] of the catalog and do not
    begin with the PCH code prefix [pch_].  Each of the four parts is in
    the lexicographic order of the sorted file list. *)
Lemma loaded_files_parts
    (code pch_code : string) (walk : list (string * list string)) :
  ∃ common platform pch rest,
    loaded_files code pch_code (cfg_files_of walk)
      = common ++ platform ++ pch ++ rest ∧
    (∀ x, x ∈ common ↔
          x ∈ cfg_files_of walk ∧ matches x "common*.xml" = true) ∧
    (∀ x, x ∈ platform ↔
          code ≠ "" ∧ x ∈ cfg_files_of walk ∧ matches x (code +:+ "*.xml") = true) ∧
    (∀ x, x ∈ pch ↔
          pch_code ≠ "" ∧ x ∈ cfg_files_of walk
          ∧ matches x (pch_code +:+ "*.xml") = true) ∧
    (∀ x, x ∈ rest ↔
          x ∈ cfg_files_of walk ∧ (x ∉ common ++ platform ++ pch) ∧
          (∀ c, is_Some (Chipset_Code !! c) →
                matches x (Py.lower c +:+ "*.xml") = false) ∧
          Py.startswith (Py.basename x) (Py.lower PCH_CODE_PREFIX) = false) ∧
    StronglySorted String.le common ∧ StronglySorted String.le platform ∧
    StronglySorted String.le pch ∧ StronglySorted String.le rest.
Proof.
  pose proof (cfg_files_of_sorted walk) as Hsorted.
  pose proof (elem_of_platform_files (cfg_files_of walk)) as Hplat.
  unfold loaded_files, CHIPSET_CODE_UNKNOWN.
  revert Hsorted Hplat.
  generalize (cfg_files_of walk). intros files.
  generalize (platform_files files), Chipset_Code.
  intros pf codes Hsorted Hplat.
  rewrite (String.eqb_sym "" code), (String.eqb_sym "" pch_code).
  set (common := List.filter (λ x, matches x "common*.xml") files).
  set (platform := if negb (String.eqb code "") then
                     List.filter (λ x, matches x (code +:+ "*.xml")) files
                   else []).
  set (pch := if negb (String.eqb pch_code "") then
                List.filter (λ x, matches x (pch_code +:+ "*.xml")) files
              else []).
  assert (Hnil : ∀ c, negb (String.eqb c "") = true ↔ c ≠ "").
  { intros c. rewrite negb_true_iff. apply String.eqb_neq. }
  assert (Hcond : ∀ (c : string) (f : string → bool) x,
            x ∈ (if negb (String.eqb c "") then List.filter f files else []) ↔
            c ≠ "" ∧ x ∈ files ∧ f x = true).
  { intros c f x. destruct (negb (String.eqb c "")) eqn:E.
    - rewrite elem_of_filter_bool. apply Hnil in E. tauto.
    - rewrite elem_of_nil. apply negb_false_iff, String.eqb_eq in E. tauto. }
  lazymatch goal with
  | |- context [bool_decide (_ ∈ ?L)] => remember L as loaded2 eqn:Hl2
  end.
  assert (Hloaded2 : loaded2 = common ++ platform ++ pch).
  { subst loaded2. unfold platform, pch.
    destruct (negb (String.eqb code "")), (negb (String.eqb pch_code ""));
      cbn [andb]; rewrite ?app_nil_r, <-?app_assoc; reflexivity. }
  clear Hl2.
  exists common, platform, pch,
    (List.filter (λ x, negb (bool_decide (x ∈ loaded2))
                       && negb (bool_decide (x ∈ pf))) files).
  split; [|split; [|split; [|split; [|split; [|split; [|split; [|split]]]]]]].
  - rewrite Hloaded2 at 1. rewrite <-!app_assoc. reflexivity.
  - intros x. apply (elem_of_filter_bool (λ x, matches x "common*.xml")).
  - intros x. apply (Hcond code (λ x, matches x (code +:+ "*.xml"))).
  - intros x. apply (Hcond pch_code (λ x, matches x (pch_code +:+ "*.xml"))).
  - intros x. rewrite elem_of_filter_bool, andb_true_iff,
      !negb_true_iff, !bool_decide_eq_false, Hplat, Hloaded2.
    split.
    + intros (Hx & Hno & Hpf). split; [done|]. split; [done|]. split.
      * intros c Hc. apply not_true_is_false. intros Hm.
        apply Hpf. split; [done|]. left. exists c. by split.
      * apply not_true_is_false. intros Hm. apply Hpf. split; [done|by right].
    + intros (Hx & Hno & Hc & Hp). split; [done|]. split; [done|].
      intros [_ [(c & Hk & Hm)|Hm]].
      * rewrite (Hc c Hk) in Hm. discriminate.
      * rewrite Hp in Hm. discriminate.
  - by apply StronglySorted_filter_bool.
  - unfold platform. destruct (negb (String.eqb code ""));
      [by apply StronglySorted_filter_bool|constructor].
  - unfold pch. destruct (negb (String.eqb pch_code ""));
      [by apply StronglySorted_filter_bool|constructor].
  - by apply StronglySorted_filter_bool.
Qed.

(** ** What an entry of a document does to its category *)

Lemma subelement_upd_attrib f p t :
  subelement p (upd_attrib f p t)
  = (λ e, Elem (el_tag e) (f (el_attrib e)) (el_children e)) <$> subelement p t.
Proof.
  revert t. induction p as [|i p IH]; intros [tg a cs]; cbn; [done|].
  rewrite list_lookup_alter_eq.
  destruct (cs !! i) as [c|]; cbn; [apply IH|done].
Qed.

Lemma attrib_of_upd_attrib f p t e :
  subelement p t = Some e → attrib_of (upd_attrib f p t) p = f (el_attrib e).
Proof. intros H. unfold attrib_of. by rewrite subelement_upd_attrib, H. Qed.

Lemma attrib_of_upd_attrib_ne f p q t :
  p ≠ q → attrib_of (upd_attrib f p t) q = attrib_of t q.
Proof.
  unfold attrib_of. revert q t. induction p as [|i p IH]; intros [|j q] [tg a cs] Hne; cbn; try done.
  destruct (decide (i = j)) as [->|Hij].
  - rewrite list_lookup_alter_eq. destruct (cs !! j) as [c|]; cbn; [|done].
    apply IH. congruence.
  - by rewrite list_lookup_alter_ne.
Qed.

Lemma attrib_of_Some t p e : subelement p t = Some e → attrib_of t p = el_attrib e.
Proof. unfold attrib_of. by intros ->. Qed.

Lemma subelement_upd_attrib_is_Some f p q t :
  is_Some (subelement q t) → is_Some (subelement q (upd_attrib f p t)).
Proof.
  revert q t. induction p as [|i p IH]; intros [|j q] [tg a cs]; cbn; try done.
  destruct (decide (i = j)) as [->|Hij].
  - rewrite list_lookup_alter_eq. destruct (cs !! j) as [c|]; cbn; [|done]. apply IH.
  - by rewrite list_lookup_alter_ne.
Qed.

Lemma attrib_at_run p t s : attrib_at p (t, s) = Ret (Ok (attrib_of t p), (t, s)).
Proof. reflexivity. Qed.

Lemma attrib_of_upd_attrib_is_Some f p t :
  is_Some (subelement p t) → attrib_of (upd_attrib f p t) p = f (attrib_of t p).
Proof. intros [e He]. by rewrite (attrib_of_upd_attrib _ _ _ _ He), (attrib_of_Some _ _ _ He). Qed.

Lemma cat_get_cat_upd c f s :
  cat_get c (self.Cfg (self.upd_Cfg (cat_upd c f) s)) = f (cat_get c (self.Cfg s)).
Proof. by destruct c, s as [? ? ? ? ? ? ? ? ? ? ? ? []]. Qed.

Lemma cat_get_cat_upd_ne c c' f s :
  c ≠ c' → cat_get c' (self.Cfg (self.upd_Cfg (cat_upd c f) s)) = cat_get c' (self.Cfg s).
Proof. by destruct c, c', s as [? ? ? ? ? ? ? ? ? ? ? ? []]. Qed.

Lemma bind_run {S A B} (m : M S A) (f : A → M S B) s a s' :
  m s = Ret (Ok a, s') → (m ≫= f) s = f a s'.
Proof. unfold bind_, M_bind, bind. by intros ->. Qed.

Lemma load_entry_start c p t e n :
  subelement p t = Some e →
  el_attrib e !! "name" = Some (PStr n) →
  ∀ s, load_entry c p (t, s)
       = (if bool_decide ("undef" ∈ dom (el_attrib e)) then modify_category c (delete n)
          else bind (match c with cat_REGISTERS => complete_register p | _ => ret tt end)
                 (λ _, bind (attrib_at p) (λ a, modify_category c <[n := a]>)))
           (upd_attrib (delete "name") p t, s).
Proof.
  intros He Hn s. unfold load_entry.
  rewrite (bind_run _ _ _ (attrib_of t p) (t, s)) by reflexivity.
  rewrite (attrib_of_Some _ _ _ He). unfold Py.getitem. rewrite Hn.
  rewrite (bind_run _ _ _ n (t, s)) by reflexivity.
  rewrite (bind_run _ _ _ tt (upd_attrib (delete "name") p t, s)) by reflexivity.
  rewrite (bind_run _ _ _ (attrib_of (upd_attrib (delete "name") p t) p)
             (upd_attrib (delete "name") p t, s)) by reflexivity.
  rewrite (attrib_of_upd_attrib _ _ _ _ He).
  replace (bool_decide ("undef" ∈ dom (delete "name" (el_attrib e))))
    with (bool_decide ("undef" ∈ dom (el_attrib e))).
  2:{ apply bool_decide_ext. rewrite !elem_of_dom, lookup_delete_ne; done. }
  reflexivity.
Qed.

(** ** Width options and the guards of register and control access *)

(** X1. [get_option_width] gives 1, 2 or 4 on the width options that
    [is_option_valid_width] accepts, whatever their case, and 0 on all
    others. *)
Theorem get_option_width_valid (width_op : string) :
  (is_option_valid_width width_op = true ↔ get_option_width width_op ≠ 0) ∧
  get_option_width width_op ∈ [0; 1; 2; 4] ∧
  get_option_width (Py.lower width_op) = get_option_width width_op ∧
  is_option_valid_width (Py.lower width_op) = is_option_valid_width width_op.
Proof.
  assert (Hidem : ∀ s, Py.lower (Py.lower s) = Py.lower s).
  { induction s as [|c s IH]; cbn; [done|]. f_equal; [|done].
    unfold Py.lower_ascii.
    destruct ((65 <=? nat_of_ascii c)%nat && (nat_of_ascii c <=? 90)%nat) eqn:E.
    - apply andb_true_iff in E as [E1 E2].
      apply Nat.leb_le in E1, E2.
      rewrite nat_ascii_embedding by lia.
      replace ((65 <=? nat_of_ascii c + 32)%nat && (nat_of_ascii c + 32 <=? 90)%nat)
        with false; [done|].
      symmetry. apply andb_false_iff. right. apply Nat.leb_gt. lia.
    - by rewrite E. }
  unfold is_option_valid_width, get_option_width, CMD_OPTS_WIDTH.
  rewrite Hidem. generalize (Py.lower width_op). intros w.
  split; [|split; [|done]].
  - rewrite bool_decide_eq_true, !elem_of_cons, elem_of_nil.
    destruct (String.eqb_spec "byte" w) as [<-|H1]; [by intuition|].
    destruct (String.eqb_spec "word" w) as [<-|H2]; [by intuition|].
    destruct (String.eqb_spec "dword" w) as [<-|H3]; [by intuition|].
    intuition congruence.
  - destruct (String.eqb "byte" w), (String.eqb "word" w), (String.eqb "dword" w);
      set_solver.
Qed.

(** X2. [is_register_defined] never raises and leaves the object alone;
    it tells whether the name is a key of [REGISTERS].  When it returns
    [False], reading, writing and dumping the register raise
    [KeyError(reg_name)] before any access to the hardware and without a
    change of the store. *)
Theorem is_register_defined_guards
    (reg_name field_name : string) (s : Chipset) (v cpu_thread bus_index : Z)
    (preserve_field_position : bool) :
  ∃ b,
    is_register_defined reg_name s = Ret (Ok b, s) ∧
    (b = true ↔ is_Some (REGISTERS (self.Cfg s) !! reg_name)) ∧
    (b = false →
     get_register_def reg_name bus_index s = Ret (Exc (KeyError reg_name), s) ∧
     read_register reg_name cpu_thread bus_index s = Ret (Exc (KeyError reg_name), s) ∧
     write_register reg_name v cpu_thread bus_index s
       = Ret (Exc (KeyError reg_name), s) ∧
     read_register_dict reg_name s = Ret (Exc (KeyError reg_name), s) ∧
     read_register_field reg_name field_name preserve_field_position cpu_thread s
       = Ret (Exc (KeyError reg_name), s) ∧
     write_register_field reg_name field_name v preserve_field_position cpu_thread s
       = Ret (Exc (KeyError reg_name), s)).
Proof.
  unfold is_register_defined, try_except. munfold. unfold Py.getitem. cbn.
  destruct (REGISTERS (self.Cfg s) !! reg_name) as [d|] eqn:Hr; cbn.
  - exists true. split; [done|]. split; [by split; eauto|done].
  - exists false. split; [done|]. split; [split; [done|by intros [? ?]]|].
    intros _.
    assert (Hdef : ∀ i, get_register_def reg_name i s = Ret (Exc (KeyError reg_name), s)).
    { intros i. rewrite get_register_def_resolved. unfold resolved. by rewrite Hr. }
    unfold read_register_dict, read_register_field, write_register_field,
      read_register, write_register. munfold. by rewrite !Hdef.
Qed.

(** X3. [is_control_defined] never raises and leaves the object alone; it
    tells whether the name is a key of [CONTROLS].  When it returns
    [False], [get_control] and [set_control] raise [KeyError(control_name)]
    before any access to the hardware. *)
Theorem is_control_defined_guards
    (control_name : string) (s : Chipset) (v cpu_thread : Z) :
  ∃ b,
    is_control_defined control_name s = Ret (Ok b, s) ∧
    (b = true ↔ is_Some (CONTROLS (self.Cfg s) !! control_name)) ∧
    (b = false →
     get_control control_name cpu_thread s = Ret (Exc (KeyError control_name), s) ∧
     set_control control_name v cpu_thread s = Ret (Exc (KeyError control_name), s)).
Proof.
  unfold is_control_defined, try_except, get_control, set_control.
  munfold. unfold Py.getitem. cbn.
  destruct (CONTROLS (self.Cfg s) !! control_name) as [d|] eqn:Hr; cbn.
  - exists true. split; [done|]. split; [by split; eauto|done].
  - exists false. split; [done|]. split; [split; [done|by intros [? ?]]|done].
Qed.

(** ** Sizes, model-specific registers and masks *)

(** X4. A register in PCI configuration space whose declared size is not
    1, 2, 4 or 8 is not accessed at all: [read_register] returns 0 and
    [write_register] returns, both without a call to the hardware. *)
Theorem pcicfg_other_size_not_accessed
    (s s1 : Chipset) (reg_name : string) (reg : gmap string pyval)
    (cpu_thread bus_index b d f o size x : Z) :
  get_register_def reg_name bus_index s = Ret (Ok reg, s1) →
  reg !! "type" = Some (PStr "pcicfg") →
  (Py.getitem reg "bus" ≫= Py.int16) = Ok b →
  (Py.getitem reg "dev" ≫= Py.int16) = Ok d →
  (Py.getitem reg "fun" ≫= Py.int16) = Ok f →
  (Py.getitem reg "offset" ≫= Py.int16) = Ok o →
  (Py.getitem reg "size" ≫= Py.int16) = Ok size →
  size ∉ [1; 2; 4; 8] →
  read_register reg_name cpu_thread bus_index s = Ret (Ok 0, s1) ∧
  write_register reg_name x cpu_thread bus_index s = Ret (Ok tt, s1).
Proof.
  intros Hg Ht Hb Hd Hf Ho Hsz Hsize.
  assert ((size =? 1) = false ∧ (size =? 2) = false ∧ (size =? 4) = false
          ∧ (size =? 8) = false)
    as (E1 & E2 & E4 & E8).
  { rewrite !Z.eqb_neq. set_solver. }
  unfold read_register, write_register. munfold. rewrite Hg. cbn.
  rewrite (getitem_Some _ _ _ Ht). cbn.
  rewrite Hb, Hd, Hf, Ho, Hsz. cbn. by rewrite E1, E2, E4, E8.
Qed.

Lemma pcicfg_other_size_not_accessed_witness :
  read_register "QW" 0 0 odd_size_cs = Ret (Ok 0, (resolved odd_size_cs "QW" 0).2) ∧
  write_register "QW" 0xAB 0 0 odd_size_cs = Ret (Ok tt, (resolved odd_size_cs "QW" 0).2).
Proof.
  apply (pcicfg_other_size_not_accessed odd_size_cs (resolved odd_size_cs "QW" 0).2 "QW"
           (match (resolved odd_size_cs "QW" 0).1 with Ok r => r | Exc _ => ∅ end)
           0 0 0 31 0 0x10 3 0xAB).
  - vm_compute. reflexivity.
  - vm_compute. reflexivity.
  - vm_compute. reflexivity.
  - vm_compute. reflexivity.
  - vm_compute. reflexivity.
  - vm_compute. reflexivity.
  - vm_compute. reflexivity.
  - rewrite !elem_of_cons, elem_of_nil. lia.
Defined.

Lemma qword_of_halves x :
  0 ≤ x < 2 ^ 64 →
  Z.lor (Z.shiftl (Z.land (Z.shiftr x 32) 0xFFFFFFFF) 32) (Z.land x 0xFFFFFFFF) = x.
Proof.
  intros Hx. rewrite <-(qword_of_dwords x Hx) at 3.
  by rewrite <-!Z.land_assoc, Z.land_diag.
Qed.

(** X5. A register of kind [msr]: [write_register] hands the low 32 bits
    as [eax] and the next 32 bits as [edx] to one [write_msr] on the given
    thread, [read_register] performs one [read_msr] on the given thread and
    returns [(edx << 32) | eax]; over a bank of MSRs a 64-bit value written
    on a thread is the value read back on that thread. *)
Theorem msr_register_access
    (s s1 : Chipset) (reg_name : string) (reg : gmap string pyval)
    (cpu_thread bus_index msr x : Z) :
  get_register_def reg_name bus_index s = Ret (Ok reg, s1) →
  reg !! "type" = Some (PStr "msr") →
  (Py.getitem reg "msr" ≫= Py.int16) = Ok msr →
  0 ≤ x < 2 ^ 64 →
  read_register reg_name cpu_thread bus_index s
    = Call (msr_read_msr cpu_thread msr)
        (λ r, match r with
              | Returned (eax, edx) => Ret (Ok (Z.lor (Z.shiftl edx 32) eax), s1)
              | Raised e => Ret (Exc (External e), s1)
              end) ∧
  write_register reg_name x cpu_thread bus_index s
    = Call (msr_write_msr cpu_thread msr (Z.land x 0xFFFFFFFF)
              (Z.land (Z.shiftr x 32) 0xFFFFFFFF))
        (λ r, match r with
              | Returned _ => Ret (Ok tt, s1)
              | Raised e => Ret (Exc (External e), s1)
              end) ∧
  ∀ w, (run msr_world
          ((write_register reg_name x cpu_thread bus_index;;
            read_register reg_name cpu_thread bus_index) s) w).1 = (Ok x, s1).
Proof.
  intros Hg Ht Hm Hx.
  pose proof (get_register_def_again _ _ _ _ _ Hg) as Hg1.
  assert (Hread : ∀ s0, get_register_def reg_name bus_index s0 = Ret (Ok reg, s1) →
    read_register reg_name cpu_thread bus_index s0
    = Call (msr_read_msr cpu_thread msr)
        (λ r, match r with
              | Returned (eax, edx) => Ret (Ok (Z.lor (Z.shiftl edx 32) eax), s1)
              | Raised e => Ret (Exc (External e), s1)
              end)).
  { intros s0 Hs0. unfold read_register. munfold. rewrite Hs0. cbn.
    rewrite (getitem_Some _ _ _ Ht). cbn. rewrite Hm. cbn. f_equal.
    apply functional_extensionality. by intros [[eax edx]|e]. }
  assert (Hwrite : write_register reg_name x cpu_thread bus_index s
    = Call (msr_write_msr cpu_thread msr (Z.land x 0xFFFFFFFF)
              (Z.land (Z.shiftr x 32) 0xFFFFFFFF))
        (λ r, match r with
              | Returned _ => Ret (Ok tt, s1)
              | Raised e => Ret (Exc (External e), s1)
              end)).
  { unfold write_register. munfold. rewrite Hg. cbn.
    rewrite (getitem_Some _ _ _ Ht). cbn. rewrite Hm. cbn. unfold call. f_equal.
    apply functional_extensionality. by intros [[]|e]. }
  split; [by apply Hread|]. split; [done|].
  intros w. unfold bind_, M_bind, bind. rewrite run_prog_bind, Hwrite. cbn.
  rewrite (Hread s1 Hg1). cbn. rewrite lookup_insert_eq. cbn.
  by rewrite qword_of_halves.
Qed.

Lemma msr_register_access_witness :
  (run msr_world
     ((write_register "FEATCTL" 0x100000005 1 0;;
       read_register "FEATCTL" 1 0) demo_cs) ∅).1 = (Ok 0x100000005, demo_cs).
Proof.
  destruct (msr_register_access demo_cs demo_cs "FEATCTL"
              (match (resolved demo_cs "FEATCTL" 0).1 with Ok r => r | Exc _ => ∅ end)
              1 0 0x3A 0x100000005) as (_ & _ & H).
  - vm_compute. reflexivity.
  - vm_compute. reflexivity.
  - vm_compute. reflexivity.
  - lia.
  - apply H.
Defined.

Lemma lor_double_1 m : Z.lor (Z.shiftl m 1) 1 = 2 * m + 1.
Proof.
  pose proof (Z.add_lor_land (Z.shiftl m 1) 1) as H.
  replace (Z.land (Z.shiftl m 1) 1) with (Z.shiftl m 1 mod 2 ^ 1) in H
    by (rewrite <-Z.land_ones by lia; reflexivity).
  rewrite Z.shiftl_mul_pow2 in * by lia. change (2 ^ 1) with 2 in *.
  rewrite Z.mod_mul in H by lia. lia.
Qed.

Lemma field_mask_loop_nonneg n :
  0 ≤ Nat.iter n (λ field_mask, Z.lor (Z.shiftl field_mask 1) 1) 0
  ∧ Nat.iter n (λ field_mask, Z.lor (Z.shiftl field_mask 1) 1) 0 = 2 ^ Z.of_nat n - 1.
Proof.
  induction n as [|n [IH1 IH2]]; [done|].
  rewrite Nat2Z.inj_succ, Nat.iter_succ, Z.pow_succ_r by lia.
  rewrite lor_double_1. lia.
Qed.

(** X6. The loop of [read_register_dict] and [_register_fields_str] that
    builds a field mask bit by bit yields, for a size that is not negative,
    the mask [(1 << size) - 1] that [get_register_field] uses; for a
    negative size the loop does not run and the mask is 0, where the shift
    of [get_register_field] raises [ValueError]. *)
Theorem field_mask_loop_is_shift_mask (field_size : Z) :
  (0 ≤ field_size → Py.shl 1 field_size = Ok (field_mask_loop field_size + 1)) ∧
  (field_size < 0 →
   field_mask_loop field_size = 0 ∧ Py.shl 1 field_size = Exc ValueError).
Proof.
  split.
  - intros Hs. unfold Py.shl. rewrite (proj2 (Z.ltb_ge field_size 0)) by done.
    f_equal. unfold field_mask_loop.
    rewrite (proj2 (field_mask_loop_nonneg _)), Z2Nat.id by done.
    rewrite Z.shiftl_1_l. lia.
  - intros Hs. split.
    + unfold field_mask_loop. by rewrite Z2Nat.nonpos by lia.
    + unfold Py.shl. by rewrite (proj2 (Z.ltb_lt field_size 0)).
Qed.

(** ** Fields of one register and their masks *)

Lemma shl_nonneg a n : 0 ≤ n → Py.shl a n = Ok (Z.shiftl a n).
Proof. intros Hn. unfold Py.shl. by rewrite (proj2 (Z.ltb_ge n 0)). Qed.

Lemma shr_nonneg a n : 0 ≤ n → Py.shr a n = Ok (Z.shiftr a n).
Proof. intros Hn. unfold Py.shr. by rewrite (proj2 (Z.ltb_ge n 0)). Qed.

Lemma testbit_field_mask b w i :
  0 ≤ b → 0 ≤ w → 0 ≤ i →
  Z.testbit (Z.shiftl (Z.ones w) b) i = bool_decide (b ≤ i < b + w).
Proof.
  intros Hb Hw Hi.
  destruct (Z.lt_ge_cases i b) as [Hlt|Hge].
  - rewrite Z.shiftl_spec_low by done. symmetry. apply bool_decide_eq_false. lia.
  - rewrite Z.shiftl_spec by lia. rewrite Z.testbit_ones_nonneg by lia.
    destruct (Z.ltb_spec (i - b) w).
    + symmetry. apply bool_decide_eq_true. lia.
    + symmetry. apply bool_decide_eq_false. lia.
Qed.

Lemma field_insert_outside r v b w (p : bool) i :
  0 ≤ b → 0 ≤ w → 0 ≤ i → ¬ (b ≤ i < b + w) →
  Z.testbit (Z.lor (Z.land r (Z.lnot (Z.shiftl (Z.ones w) b)))
                   (if p then Z.land v (Z.shiftl (Z.ones w) b)
                    else Z.shiftl (Z.land v (Z.ones w)) b)) i
  = Z.testbit r i.
Proof.
  intros Hb Hw Hi Hout.
  rewrite Z.lor_spec, Z.land_spec, Z.lnot_spec, testbit_field_mask by done.
  rewrite (bool_decide_eq_false_2 _ Hout). cbn. rewrite andb_true_r.
  destruct p.
  - rewrite Z.land_spec, testbit_field_mask by done.
    rewrite (bool_decide_eq_false_2 _ Hout). by rewrite andb_false_r, orb_false_r.
  - destruct (Z.lt_ge_cases i b) as [Hlt|Hge].
    + rewrite Z.shiftl_spec_low by done. by rewrite orb_false_r.
    + rewrite Z.shiftl_spec, Z.land_spec by lia.
      rewrite Z.testbit_ones_nonneg by lia.
      rewrite (proj2 (Z.ltb_ge (i - b) w)) by lia.
      by rewrite andb_false_r, orb_false_r.
Qed.

Lemma field_extract_agree r r' b w (p : bool) :
  0 ≤ b → 0 ≤ w →
  (∀ i, b ≤ i < b + w → Z.testbit r' i = Z.testbit r i) →
  (if p then Z.land r' (Z.shiftl (Z.ones w) b) else Z.land (Z.shiftr r' b) (Z.ones w))
  = (if p then Z.land r (Z.shiftl (Z.ones w) b) else Z.land (Z.shiftr r b) (Z.ones w)).
Proof.
  intros Hb Hw Hag. apply Z.bits_inj'. intros i Hi. destruct p.
  - rewrite !Z.land_spec, testbit_field_mask by done.
    case_bool_decide as Hin; [|by rewrite !andb_false_r].
    by rewrite Hag.
  - rewrite !Z.land_spec, !Z.shiftr_spec by done.
    rewrite Z.testbit_ones_nonneg by lia.
    destruct (Z.ltb_spec i w); [|by rewrite !andb_false_r].
    rewrite Hag by lia. done.
Qed.

(** X7. Two fields of one register whose bit ranges do not overlap:
    inserting a value into the first with [set_register_field] leaves what
    [get_register_field] extracts for the second as it was, with either
    setting of [preserve_field_position] on either side. *)
Theorem set_register_field_keeps_other_field
    (s s1 : Chipset) (reg_name f g : string)
    (reg_def fields f_attrs g_attrs : gmap string pyval)
    (bf wf bg wg reg v : Z) (pf pg : bool) :
  get_register_def reg_name 0 s = Ret (Ok reg_def, s1) →
  reg_def !! "FIELDS" = Some (PDict fields) →
  fields !! f = Some (PDict f_attrs) →
  fields !! g = Some (PDict g_attrs) →
  (Py.getitem f_attrs "bit" ≫= Py.int10) = Ok bf →
  (Py.getitem f_attrs "size" ≫= Py.int10) = Ok wf →
  (Py.getitem g_attrs "bit" ≫= Py.int10) = Ok bg →
  (Py.getitem g_attrs "size" ≫= Py.int10) = Ok wg →
  0 ≤ bf → 0 ≤ wf → 0 ≤ bg → 0 ≤ wg →
  bf + wf ≤ bg ∨ bg + wg ≤ bf →
  ∃ reg',
    set_register_field reg_name reg f v pf s = Ret (Ok reg', s1) ∧
    get_register_field reg_name reg' g pg s1 = get_register_field reg_name reg g pg s1.
Proof.
  intros Hg Hf Haf Hag Hbf Hwf Hbg Hwg Hbf0 Hwf0 Hbg0 Hwg0 Hdisj.
  pose proof (field_attrs_of_resolved _ _ _ _ _ _ _ Hg Hf Haf) as H1.
  pose proof (field_attrs_of_resolved _ _ _ _ _ _ _
                (get_register_def_again _ _ _ _ _ Hg) Hf Hag) as H2.
  unfold set_register_field, get_register_field. munfold.
  rewrite H1, H2. cbn. rewrite Hbf, Hwf, Hbg, Hwg, !shl_nonneg by done. cbn.
  rewrite !mask_ones.
  assert (Hout : ∀ i, bg ≤ i < bg + wg →
            Z.testbit (Z.lor (Z.land reg (Z.lnot (Z.shiftl (Z.ones wf) bf)))
                             (if pf then Z.land v (Z.shiftl (Z.ones wf) bf)
                              else Z.shiftl (Z.land v (Z.ones wf)) bf)) i
            = Z.testbit reg i).
  { intros i Hi. apply field_insert_outside; lia. }
  pose proof (field_extract_agree reg _ bg wg pg Hbg0 Hwg0 Hout) as Hext.
  destruct pf; cbn; rewrite ?shl_nonneg by done; cbn;
    (eexists; split; [reflexivity|]);
    destruct pg; cbn; rewrite ?shl_nonneg, ?shr_nonneg by done; cbn;
    by rewrite Hext.
Qed.

Lemma set_register_field_keeps_other_field_witness :
  ∃ reg',
    set_register_field "FEATCTL" 0x01 "MODE" 0xF false demo_cs = Ret (Ok reg', demo_cs) ∧
    get_register_field "FEATCTL" reg' "LOCK" false demo_cs
      = get_register_field "FEATCTL" 0x01 "LOCK" false demo_cs.
Proof.
  apply (set_register_field_keeps_other_field demo_cs demo_cs "FEATCTL" "MODE" "LOCK"
           (match (resolved demo_cs "FEATCTL" 0).1 with Ok r => r | Exc _ => ∅ end)
           (match (match (resolved demo_cs "FEATCTL" 0).1 with Ok r => r | Exc _ => ∅ end)
                   !! "FIELDS" with Some (PDict d) => d | _ => ∅ end)
           (attrs [("bit", "4"); ("size", "4"); ("desc", "")])
           (attrs [("bit", "0"); ("size", "1"); ("desc", "")])
           4 4 0 1 0x01 0xF false false).
  - vm_compute. reflexivity.
  - vm_compute. reflexivity.
  - vm_compute. reflexivity.
  - vm_compute. reflexivity.
  - vm_compute. reflexivity.
  - vm_compute. reflexivity.
  - vm_compute. reflexivity.
  - vm_compute. reflexivity.
  - lia.
  - lia.
  - lia.
  - lia.
  - lia.
Defined.

(** X8. For a field with a bit position and a size that are not negative,
    [get_register_field] returns the register value masked with what
    [get_register_field_mask] returns for that field: in place when
    [preserve_field_position] is set, and after a right shift by the bit
    position otherwise. *)
Theorem get_register_field_uses_field_mask
    (s s1 : Chipset) (reg_name field_name : string)
    (reg_def fields field_attrs : gmap string pyval)
    (bit size reg_value : Z) (preserve_field_position : bool) :
  get_register_def reg_name 0 s = Ret (Ok reg_def, s1) →
  reg_def !! "FIELDS" = Some (PDict fields) →
  fields !! field_name = Some (PDict field_attrs) →
  (Py.getitem field_attrs "bit" ≫= Py.int10) = Ok bit →
  (Py.getitem field_attrs "size" ≫= Py.int10) = Ok size →
  0 ≤ bit → 0 ≤ size →
  ∃ mask,
    get_register_field_mask reg_name (Some field_name) preserve_field_position s
      = Ret (Ok mask, s1) ∧
    mask = (if preserve_field_position then (2 ^ size - 1) * 2 ^ bit else 2 ^ size - 1) ∧
    get_register_field reg_name reg_value field_name preserve_field_position s
      = Ret (Ok (if preserve_field_position then Z.land reg_value mask
                 else Z.land (Z.shiftr reg_value bit) mask), s1).
Proof.
  intros Hg Hf Ha Hbit Hsize Hb Hw.
  pose proof (field_attrs_of_resolved _ _ _ _ _ _ _ Hg Hf Ha) as H1.
  unfold get_register_field_mask, get_register_field. munfold.
  rewrite H1, Hg. cbn.
  rewrite (getitem_Some _ _ _ Hf). cbn. rewrite (getitem_Some _ _ _ Ha). cbn.
  rewrite Hbit, Hsize, !shl_nonneg by done. cbn.
  destruct preserve_field_position; cbn; rewrite ?shl_nonneg, ?shr_nonneg by done; cbn.
  - eexists. split; [reflexivity|]. split; [|done].
    rewrite Z.shiftl_mul_pow2, Z.shiftl_1_l by done. done.
  - eexists. split; [reflexivity|]. split; [|done].
    by rewrite Z.shiftl_1_l.
Qed.

Lemma get_register_field_uses_field_mask_witness :
  ∃ mask,
    get_register_field_mask "FEATCTL" (Some "MODE") true demo_cs = Ret (Ok mask, demo_cs) ∧
    mask = (2 ^ 4 - 1) * 2 ^ 4 ∧
    get_register_field "FEATCTL" 0xA5 "MODE" true demo_cs
      = Ret (Ok (Z.land 0xA5 mask), demo_cs).
Proof.
  apply (get_register_field_uses_field_mask demo_cs demo_cs "FEATCTL" "MODE"
           (match (resolved demo_cs "FEATCTL" 0).1 with Ok r => r | Exc _ => ∅ end)
           (match (match (resolved demo_cs "FEATCTL" 0).1 with Ok r => r | Exc _ => ∅ end)
                   !! "FIELDS" with Some (PDict d) => d | _ => ∅ end)
           (attrs [("bit", "4"); ("size", "4"); ("desc", "")])
           4 4 0xA5 true).
  - vm_compute. reflexivity.
  - vm_compute. reflexivity.
  - vm_compute. reflexivity.
  - vm_compute. reflexivity.
  - vm_compute. reflexivity.
  - lia.
  - lia.
Defined.

(** X9. The mask of a whole register: without a field name,
    [get_register_field_mask] returns [(1 << (size * 8)) - 1] for the size
    declared in bytes and read in base 16, whatever
    [preserve_field_position] is; a negative size raises [ValueError]. *)
Theorem get_register_field_mask_whole_register
    (s s1 : Chipset) (reg_name : string) (reg_def : gmap string pyval)
    (size : Z) (preserve_field_position : bool) :
  get_register_def reg_name 0 s = Ret (Ok reg_def, s1) →
  (Py.getitem reg_def "size" ≫= Py.int16) = Ok size →
  get_register_field_mask reg_name None preserve_field_position s
    = Ret (if 0 <=? size then Ok (2 ^ (size * 8) - 1) else Exc ValueError, s1).
Proof.
  intros Hg Hsize. unfold get_register_field_mask. munfold. rewrite Hg. cbn.
  rewrite Hsize. cbn.
  destruct (Z.leb_spec 0 size) as [Hs|Hs].
  - rewrite shl_nonneg by lia. cbn.
    destruct preserve_field_position; cbn.
    + rewrite Z.shiftl_0_r, Z.shiftl_1_l. done.
    + by rewrite Z.shiftl_1_l.
  - unfold Py.shl. by rewrite (proj2 (Z.ltb_lt (size * 8) 0)) by lia.
Qed.

Lemma get_register_field_mask_whole_register_witness :
  get_register_field_mask "FEATCTL" None false demo_cs
    = Ret (Ok (2 ^ (8 * 8) - 1), demo_cs).
Proof.
  apply (get_register_field_mask_whole_register demo_cs demo_cs "FEATCTL"
           (match (resolved demo_cs "FEATCTL" 0).1 with Ok r => r | Exc _ => ∅ end)
           8 false).
  - vm_compute. reflexivity.
  - vm_compute. reflexivity.
Defined.

(** X10. For a register whose ['FIELDS'] entry is missing or is a
    dictionary, [register_has_field] returns normally and tells whether the
    field name is a key of that dictionary.  When it returns [False],
    [get_register_field], [set_register_field] and
    [get_register_field_mask] raise [KeyError]: of ['FIELDS'] when the
    register has no fields at all, of the field name otherwise. *)
Theorem register_has_field_guards
    (s s1 : Chipset) (reg_name field_name : string) (reg_def : gmap string pyval)
    (reg_value v : Z) (p : bool) :
  get_register_def reg_name 0 s = Ret (Ok reg_def, s1) →
  (reg_def !! "FIELDS" = None ∨ ∃ fields, reg_def !! "FIELDS" = Some (PDict fields)) →
  ∃ b,
    register_has_field reg_name field_name s = Ret (Ok b, s1) ∧
    (b = true ↔ ∃ fields, reg_def !! "FIELDS" = Some (PDict fields)
                          ∧ is_Some (fields !! field_name)) ∧
    (b = false →
     ∃ k, (k = "FIELDS" ∨ k = field_name) ∧
       get_register_field reg_name reg_value field_name p s = Ret (Exc (KeyError k), s1) ∧
       set_register_field reg_name reg_value field_name v p s
         = Ret (Exc (KeyError k), s1) ∧
       get_register_field_mask reg_name (Some field_name) p s
         = Ret (Exc (KeyError k), s1)).
Proof.
  intros Hg Hfields.
  unfold register_has_field, get_register_field, set_register_field,
    get_register_field_mask, field_attrs_of.
  munfold. rewrite Hg. cbn. unfold Py.getitem.
  destruct Hfields as [Hnone|[fields Hsome]].
  - rewrite Hnone. cbn. exists false. split; [done|]. split.
    + split; [done|]. intros (fields & Hf & _). congruence.
    + intros _. exists "FIELDS". split; [by left|done].
  - rewrite Hsome. cbn.
    destruct (fields !! field_name) as [a|] eqn:Hfn.
    + exists true. split.
      { by rewrite bool_decide_eq_true_2 by (apply elem_of_dom; eauto). }
      split; [|done]. split; [|done]. intros _. exists fields. split; [done|eauto].
    + exists false. split.
      { by rewrite bool_decide_eq_false_2 by (rewrite elem_of_dom, Hfn; by intros [? ?]). }
      split.
      * split; [done|]. intros (fields' & Hf & [a Ha]). congruence.
      * intros _. exists field_name. split; [by right|done].
Qed.

Lemma register_has_field_guards_witness :
  ∃ b,
    register_has_field "FEATCTL" "NOSUCH" demo_cs = Ret (Ok b, demo_cs) ∧
    b = false ∧
    ∃ k, get_register_field "FEATCTL" 0 "NOSUCH" false demo_cs
         = Ret (Exc (KeyError k), demo_cs).
Proof.
  destruct (register_has_field_guards demo_cs demo_cs "FEATCTL" "NOSUCH"
              (match (resolved demo_cs "FEATCTL" 0).1 with Ok r => r | Exc _ => ∅ end)
              0 0 false) as (b & Hrun & Hb & Hguard).
  - vm_compute. reflexivity.
  - right. eexists. vm_compute. reflexivity.
  - exists b. split; [exact Hrun|].
    assert (Hfalse : b = false).
    { assert (Hc : register_has_field "FEATCTL" "NOSUCH" demo_cs
                   = Ret (Ok false, demo_cs)) by (vm_compute; reflexivity).
      rewrite Hc in Hrun. by injection Hrun as <-. }
    split; [exact Hfalse|].
    destruct (Hguard Hfalse) as (k & _ & Hget & _). by exists k.
Defined.

(** ** Bus bindings and the bus of a register *)

Lemma hex_digit_facts v :
  0 ≤ v < 16 →
  Py.digit_val 16 (Py.hex_digit v) = Some v ∧
  Ascii.eqb (Py.hex_digit v) "_" = false ∧
  Py.is_space (Py.hex_digit v) = false ∧
  (∀ (A : Type) (x y : A),
     match Py.hex_digit v with "_"%char => x | _ => y end = y).
Proof.
  intros Hv.
  assert (v = 0 ∨ v = 1 ∨ v = 2 ∨ v = 3 ∨ v = 4 ∨ v = 5 ∨ v = 6 ∨ v = 7 ∨ v = 8 ∨
          v = 9 ∨ v = 10 ∨ v = 11 ∨ v = 12 ∨ v = 13 ∨ v = 14 ∨ v = 15) as Hcases by lia.
  repeat destruct Hcases as [->|Hcases]; try subst v; by repeat split.
Qed.

Lemma hex_digits_spec fuel z acc :
  0 ≤ z < 16 ^ Z.of_nat (S fuel) →
  ∃ ds, Py.hex_digits (S fuel) z acc = ds ++ acc ∧ ds ≠ [] ∧ Forall is_hex_digit ds ∧
        ∀ a b rest, Py.parse_digits 16 a b (ds ++ rest)
                    = Py.parse_digits 16 (a * 16 ^ Z.of_nat (length ds) + z) true rest.
Proof.
  revert z acc. induction fuel as [|fuel IH]; intros z acc Hz.
  - assert (z < 16) as Hlt by (change (16 ^ Z.of_nat 1) with 16 in Hz; lia).
    exists [Py.hex_digit z]. cbn [Py.hex_digits].
    rewrite (proj2 (Z.ltb_lt z 16)) by done.
    destruct (hex_digit_facts z) as (Hd & Hu & _); [lia|].
    split; [done|]. split; [done|]. split.
    + constructor; [|done]. exists z. split; [lia|done].
    + intros a b rest. cbn [app Py.parse_digits length]. rewrite Hu, Hd.
      reflexivity.
  - change (Py.hex_digits (S (S fuel)) z acc)
      with (if z <? 16 then Py.hex_digit z :: acc
            else Py.hex_digits (S fuel) (z / 16) (Py.hex_digit (z mod 16) :: acc)).
    destruct (Z.ltb_spec z 16) as [Hlt|Hge].
    + exists [Py.hex_digit z].
      destruct (hex_digit_facts z) as (Hd & Hu & _); [lia|].
      split; [done|]. split; [done|]. split.
      * constructor; [|done]. exists z. split; [lia|done].
      * intros a b rest. cbn [app Py.parse_digits length]. rewrite Hu, Hd.
        reflexivity.
    + assert (Hq : 0 ≤ z / 16 < 16 ^ Z.of_nat (S fuel)).
      { split; [apply Z.div_pos; lia|].
        apply Z.div_lt_upper_bound; [lia|].
        rewrite (Nat2Z.inj_succ (S fuel)), Z.pow_succ_r in Hz by lia. lia. }
      destruct (IH (z / 16) (Py.hex_digit (z mod 16) :: acc) Hq)
        as (ds & Heq & Hne & Hall & Hparse).
      pose proof (Z.mod_pos_bound z 16 ltac:(lia)) as Hm.
      destruct (hex_digit_facts (z mod 16)) as (Hd & Hu & _); [lia|].
      exists (ds ++ [Py.hex_digit (z mod 16)]). split; [|split; [|split]].
      * rewrite Heq. by rewrite <-app_assoc.
      * by destruct ds.
      * apply Forall_app. split; [done|]. constructor; [|done].
        exists (z mod 16). split; [lia|done].
      * intros a b rest. rewrite <-app_assoc. cbn [app].
        rewrite Hparse. cbn [Py.parse_digits]. rewrite Hu, Hd. f_equal.
        rewrite length_app, Nat2Z.inj_add. cbn [length].
        rewrite Z.pow_add_r by lia. change (16 ^ Z.of_nat 1) with 16.
        pose proof (Z.div_mod z 16 ltac:(lia)). lia.
Qed.

Lemma hex_digits_fuel z :
  0 ≤ z → z < 16 ^ Z.of_nat (S (Z.to_nat (Z.log2 z))).
Proof.
  intros Hz. rewrite Nat2Z.inj_succ, Z2Nat.id by apply Z.log2_nonneg.
  destruct (decide (z = 0)) as [->|Hz0]; [done|].
  pose proof (Z.log2_spec z ltac:(lia)) as [_ Hlt].
  pose proof (Z.log2_nonneg z) as Hl.
  eapply Z.lt_le_trans; [exact Hlt|].
  apply Z.pow_le_mono_l. lia.
Qed.

Lemma strip_tight c l d :
  Py.is_space c = false → Py.is_space d = false →
  Py.strip (c :: l ++ [d]) = c :: l ++ [d].
Proof.
  intros Hc Hd. unfold Py.strip. cbn [Py.lstrip]. rewrite Hc.
  change (c :: l ++ [d]) with ((c :: l) ++ [d]).
  rewrite rev_app_distr. cbn [rev app Py.lstrip]. rewrite Hd.
  change (d :: rev l ++ [c]) with ([d] ++ (rev l ++ [c])).
  rewrite rev_app_distr, rev_app_distr, rev_involutive. done.
Qed.

Lemma list_ascii_of_string_app s1 s2 :
  list_ascii_of_string (s1 +:+ s2) = list_ascii_of_string s1 ++ list_ascii_of_string s2.
Proof.
  induction s1 as [|c s1 IH]; [done|].
  change (list_ascii_of_string (String c s1 +:+ s2))
    with (c :: list_ascii_of_string (s1 +:+ s2)).
  rewrite IH. done.
Qed.

(** [int(hex(z), 16) == z]. *)
Lemma int16_hex z : Py.int16 (PStr (Py.hex z)) = Ok z.
Proof.
  assert (Hnonneg : ∀ n, 0 ≤ n →
    ∃ ds d, list_ascii_of_string
              ("0x" +:+ string_of_list_ascii
                          (Py.hex_digits (S (Z.to_nat (Z.log2 n))) n []))
            = "0"%char :: "x"%char :: ds ++ [d] ∧
            Py.is_space d = false ∧
            Py.parse_prefix 16 ("0"%char :: "x"%char :: ds ++ [d]) = Some n).
  { intros n Hn.
    destruct (hex_digits_spec (Z.to_nat (Z.log2 n)) n [])
      as (ds & Heq & Hne & Hall & Hparse).
    { split; [done|by apply hex_digits_fuel]. }
    rewrite app_nil_r in Heq. rewrite Heq.
    destruct (exists_last Hne) as (ds0 & d & ->).
    exists ds0, d.
    rewrite list_ascii_of_string_app, list_ascii_of_string_of_list_ascii.
    split; [done|].
    apply Forall_app in Hall as [Hall0 Hd]. apply Forall_inv in Hd.
    destruct Hd as (v & Hv & ->).
    destruct (hex_digit_facts v Hv) as (_ & _ & Hsp & _).
    split; [done|].
    cbn [Py.parse_prefix]. change (16 =? 16) with true. cbn [andb Ascii.eqb Bool.eqb].
    specialize (Hparse 0 false []). rewrite app_nil_r in Hparse.
    destruct ds0 as [|c ds0].
    - cbn [app]. destruct (hex_digit_facts v Hv) as (_ & _ & _ & Hm).
      rewrite Hm. exact Hparse.
    - apply Forall_inv in Hall0. destruct Hall0 as (v' & Hv' & ->).
      destruct (hex_digit_facts v' Hv') as (_ & _ & _ & Hm).
      cbn [app]. rewrite Hm. exact Hparse. }
  unfold Py.int16, Py.int_of_string, Py.hex. cbv zeta.
  destruct (Z.ltb_spec z 0) as [Hneg|Hpos].
  - destruct (Hnonneg (Z.abs z)) as (ds & d & Heq & Hd & Hparse); [lia|].
    rewrite list_ascii_of_string_app. change (list_ascii_of_string "-") with ["-"%char].
    rewrite Heq. cbn [app].
    pose proof (strip_tight "-" ("0"%char :: "x"%char :: ds) d eq_refl Hd) as E.
    cbn [app] in E. rewrite E. rewrite Hparse. cbn. f_equal. lia.
  - destruct (Hnonneg (Z.abs z)) as (ds & d & Heq & Hd & Hparse); [lia|].
    rewrite Heq.
    pose proof (strip_tight "0" ("x"%char :: ds) d eq_refl Hd) as E.
    cbn [app] in E. rewrite E. rewrite Hparse. f_equal. lia.
Qed.

Lemma matching_buses_spec device_data xml_vid did_list enum_devices bus_list dev fn vid :
  (Py.getitem device_data "dev" ≫= Py.int16) = Ok dev →
  (Py.getitem device_data "fun" ≫= Py.int16) = Ok fn →
  Py.int16 xml_vid = Ok vid →
  matching_buses device_data xml_vid did_list enum_devices bus_list
  = Ok (bus_list ++ ((λ e, PStr (Py.hex (enum_bus e)))
                       <$> List.filter (enum_matches dev fn vid did_list) enum_devices)).
Proof.
  intros Hd Hf Hv. revert bus_list.
  induction enum_devices as [|[[[[b d] f] v] di] rest IH]; intros bus_list.
  - cbn. by rewrite app_nil_r.
  - cbn [matching_buses List.filter]. rewrite Hd, Hf, Hv.
    unfold enum_matches at 1. unfold bind_ at 1 2 3, result_bind.
    destruct ((dev =? d) && (fn =? f) && (vid =? v) && bool_decide (di ∈ did_list)).
    + rewrite IH. cbn [fmap list_fmap enum_bus]. by rewrite <-app_assoc.
    + by rewrite IH.
Qed.

(** X11. What [init_cfg_bus] binds to a device that declares a vendor id
    and device ids: the list of [hex(bus)] of the enumerated devices whose
    device number, function number and vendor id are the declared ones and
    whose device id is among the declared ones, in the order of the
    enumeration; when no enumerated device matches, the bindings are left
    as they were.  Nothing else in the store changes. *)
Theorem init_cfg_bus_device_binding
    (s : Chipset) (enum_devices : list (Z * Z * Z * Z * Z))
    (config_device x : string) (device_data : gmap string pyval) (xml_vid : pyval)
    (dev fn vid : Z) (did_list : list Z) :
  CONFIG_PCI (self.Cfg s) !! config_device = Some device_data →
  device_data !! "vid" = Some xml_vid →
  device_data !! "did" = Some (PStr x) →
  Py.truthy (Some xml_vid) = true → x ≠ "" →
  map_result (λ y, Py.int16 (PStr y)) (Py.split "," x) = Ok did_list →
  (Py.getitem device_data "dev" ≫= Py.int16) = Ok dev →
  (Py.getitem device_data "fun" ≫= Py.int16) = Ok fn →
  Py.int16 xml_vid = Ok vid →
  let found := List.filter (enum_matches dev fn vid did_list) enum_devices in
  init_cfg_bus_device enum_devices config_device s
  = Ret (Ok tt,
         if bool_decide (found = []) then s
         else self.upd_Cfg
                (upd_BUS <[config_device := (λ e, PStr (Py.hex (enum_bus e))) <$> found]>) s).
Proof.
  intros Hdev Hvid Hdid Htv Hx Hdids Hd Hf Hv found.
  pose proof (matching_buses_spec device_data xml_vid did_list enum_devices []
                dev fn vid Hd Hf Hv) as Hmb.
  fold found in Hmb. cbn [app] in Hmb.
  assert (Htv' : Py.truthy (device_data !! "vid") = true) by by rewrite Hvid.
  assert (Htd : Py.truthy (device_data !! "did") = true).
  { rewrite Hdid. cbn. by destruct (String.eqb_spec x ""). }
  unfold init_cfg_bus_device. munfold. cbn.
  unfold Py.getitem. rewrite Hdev. cbn. rewrite Htv', Htd. cbn.
  rewrite Hdid. cbn. cbn in Hdids. rewrite Hdids. cbn. rewrite Hvid. cbn. rewrite Hmb. cbn.
  destruct found as [|e found']; [done|].
  rewrite bool_decide_eq_false_2 by done. done.
Qed.

Lemma init_cfg_bus_device_binding_witness :
  init_cfg_bus_device [(0, 31, 0, 0x8086, 0x0100); (0, 0, 0, 0x8086, 0x0C00);
                       (3, 31, 0, 0x8086, 0x0101)] "LPC" demo_cs
  = Ret (Ok tt,
         self.upd_Cfg (upd_BUS <["LPC" := [PStr "0x0"; PStr "0x3"]]>) demo_cs).
Proof.
  apply (init_cfg_bus_device_binding demo_cs
           [(0, 31, 0, 0x8086, 0x0100); (0, 0, 0, 0x8086, 0x0C00);
            (3, 31, 0, 0x8086, 0x0101)]
           "LPC" "0x0100,0x0101"
           (attrs [("bus", "0"); ("dev", "0x1F"); ("fun", "0"); ("vid", "0x8086");
                   ("did", "0x0100,0x0101")])
           (PStr "0x8086") 31 0 0x8086 [0x0100; 0x0101]).
  - vm_compute. reflexivity.
  - vm_compute. reflexivity.
  - vm_compute. reflexivity.
  - vm_compute. reflexivity.
  - discriminate.
  - vm_compute. reflexivity.
  - vm_compute. reflexivity.
  - vm_compute. reflexivity.
  - vm_compute. reflexivity.
Defined.

(** X12. A register in PCI or memory-mapped configuration space whose
    device has bus bindings as [init_cfg_bus] writes them, that is
    [hex(bus)] for each bus.  [get_register_bus] returns these bindings.
    [get_register_def] first copies the bus, device and function declared
    for the device into the stored descriptor.  Then, for a list of [n]
    bindings: a bus index of [n] or more leaves the declared bus; an index
    from [0] to [n - 1] selects the binding at that index, and an index
    from [-n] to [-1] the binding at that index counted from the end, and
    [int(reg['bus'], 16)] reads the selected binding back as the
    enumerated bus number; an index below [-n] raises [IndexError] and
    leaves the descriptor with the declared bus. *)
Theorem bus_index_selects_binding
    (s : Chipset) (reg_name dev_name : string) (reg_def dev : gmap string pyval)
    (ty b0 d0 f0 : pyval) (buses : list Z) (bus_index : Z) :
  REGISTERS (self.Cfg s) !! reg_name = Some reg_def →
  reg_def !! "type" = Some ty →
  str_eq ty "pcicfg" || str_eq ty "mmcfg" = true →
  reg_def !! "device" = Some (PStr dev_name) →
  CONFIG_PCI (self.Cfg s) !! dev_name = Some dev →
  dev !! "bus" = Some b0 → dev !! "dev" = Some d0 → dev !! "fun" = Some f0 →
  BUS (self.Cfg s) !! dev_name = Some ((λ b, PStr (Py.hex b)) <$> buses) →
  let n := Z.of_nat (length buses) in
  let declared := <["fun" := f0]> (<["dev" := d0]> (<["bus" := b0]> reg_def)) in
  get_register_bus reg_name s = Ret (Ok (Some ((λ b, PStr (Py.hex b)) <$> buses)), s) ∧
  if n <=? bus_index then
    get_register_def reg_name bus_index s
      = Ret (Ok declared, put_reg reg_name declared s)
  else if bus_index <? - n then
    get_register_def reg_name bus_index s
      = Ret (Exc IndexError, put_reg reg_name declared s)
  else
    ∃ bus r,
      buses !! Z.to_nat (if bus_index <? 0 then bus_index + n else bus_index) = Some bus ∧
      r = <["bus" := PStr (Py.hex bus)]> declared ∧
      get_register_def reg_name bus_index s = Ret (Ok r, put_reg reg_name r s) ∧
      (Py.getitem r "bus" ≫= Py.int16) = Ok bus.
Proof.
  intros Hr Ht Hty Hd Hdev Hb Hdv Hf Hbus n declared.
  split.
  { unfold get_register_bus, get_device_bus. munfold. cbn.
    rewrite (getitem_Some _ _ _ Hr). cbn. rewrite Hd. cbn. by rewrite Hbus. }
  rewrite get_register_def_resolved. unfold resolved.
  rewrite Hr, Ht, Hty.
  rewrite (bool_decide_eq_true_2 ("device" ∈ dom reg_def))
    by (apply elem_of_dom; eauto).
  cbn [andb]. rewrite Hd. cbn [lookup_val]. rewrite Hdev, Hb, Hdv, Hf, Hbus.
  cbv zeta. rewrite length_fmap. fold n. fold declared.
  destruct (Z.leb_spec n bus_index) as [Hge|Hlt].
  - by rewrite (proj2 (Z.ltb_ge bus_index n)) by done.
  - rewrite (proj2 (Z.ltb_lt bus_index n)) by done.
    unfold Py.list_getitem. rewrite length_fmap. fold n.
    destruct (Z.ltb_spec bus_index (- n)) as [Hlow|Hin].
    + rewrite (proj2 (Z.ltb_lt bus_index 0)) by lia.
      rewrite (proj2 (Z.leb_gt 0 (bus_index + n))) by lia. done.
    + set (j := if bus_index <? 0 then bus_index + n else bus_index).
      assert (Hj : 0 ≤ j < n) by (unfold j; destruct (Z.ltb_spec bus_index 0); lia).
      rewrite (proj2 (Z.leb_le 0 j)), (proj2 (Z.ltb_lt j n)) by lia. cbn [andb].
      assert (Hlook : is_Some (buses !! Z.to_nat j)).
      { apply lookup_lt_is_Some. unfold n in Hj. lia. }
      destruct Hlook as [bus Hbus'].
      rewrite list_lookup_fmap, Hbus'. cbn [fmap option_fmap option_map].
      exists bus, (<["bus" := PStr (Py.hex bus)]> declared).
      split; [done|]. split; [done|]. split; [done|].
      unfold Py.getitem. rewrite lookup_insert_eq.
      unfold bind_, result_bind. apply int16_hex.
Qed.

Lemma bus_index_selects_binding_witness :
  let s := self.upd_Cfg (upd_BUS <["LPC" := [PStr (Py.hex 0); PStr (Py.hex 0x1A)]]>)
             demo_cs in
  ∃ bus r,
    [0; 0x1A] !! 1%nat = Some bus ∧
    r = <["bus" := PStr (Py.hex bus)]>
          (<["fun" := PStr "0"]> (<["dev" := PStr "0x1F"]> (<["bus" := PStr "0"]>
             (default ∅ (REGISTERS (self.Cfg demo_cs) !! "QW"))))) ∧
    get_register_def "QW" (-1) s = Ret (Ok r, put_reg "QW" r s) ∧
    (Py.getitem r "bus" ≫= Py.int16) = Ok bus.
Proof.
  cbv zeta.
  exact (proj2 (bus_index_selects_binding
              (self.upd_Cfg (upd_BUS <["LPC" := [PStr (Py.hex 0); PStr (Py.hex 0x1A)]]>)
                 demo_cs)
              "QW" "LPC"
              (default ∅ (REGISTERS (self.Cfg demo_cs) !! "QW"))
              (default ∅ (CONFIG_PCI (self.Cfg demo_cs) !! "LPC"))
              (PStr "pcicfg") (PStr "0") (PStr "0x1F") (PStr "0") [0; 0x1A] (-1)
              eq_refl eq_refl eq_refl eq_refl eq_refl eq_refl eq_refl eq_refl eq_refl)).
Defined.

(** ** Devices, platform detection, the code table and the families *)

Lemma str_int_reread x :
  0 ≤ x < 256 →
  ∃ y, Py.int16 (PStr (str_int x)) = Ok y ∧ (y = x ↔ x < 10).
Proof.
  intros Hx.
  assert (Hall : forallb reread_ok (seqZ 0 256) = true) by (vm_compute; reflexivity).
  rewrite forallb_forall in Hall.
  assert (Hin : In x (seqZ 0 256)) by (apply list_elem_of_In, elem_of_seqZ; lia).
  specialize (Hall x Hin). unfold reread_ok in Hall.
  destruct (Py.int16 (PStr (str_int x))) as [y|e]; [|done].
  exists y. split; [done|]. by apply bool_decide_eq_true in Hall.
Qed.

Lemma upd_CONFIG_PCI_alter_insert s n g d :
  CONFIG_PCI (self.Cfg s) !! n = Some d →
  self.upd_Cfg (upd_CONFIG_PCI (alter g n)) s
  = self.upd_Cfg (upd_CONFIG_PCI <[n := g d]>) s.
Proof.
  intros H. destruct s as [? ? ? ? ? ? ? ? ? ? ? ? [P ? ? ? ? ? ? ?]]; simpl in *.
  unfold self.upd_Cfg, upd_CONFIG_PCI; simpl. by rewrite (alter_present _ _ _ _ H).
Qed.

Lemma upd_CONFIG_PCI_insert_insert s n d1 d2 :
  self.upd_Cfg (upd_CONFIG_PCI <[n := d2]>) (self.upd_Cfg (upd_CONFIG_PCI <[n := d1]>) s)
  = self.upd_Cfg (upd_CONFIG_PCI <[n := d2]>) s.
Proof.
  destruct s as [? ? ? ? ? ? ? ? ? ? ? ? [P ? ? ? ? ? ? ?]].
  unfold self.upd_Cfg, upd_CONFIG_PCI; simpl. by rewrite insert_insert_eq.
Qed.

Lemma upd_CONFIG_PCI_lookup s n d :
  CONFIG_PCI (self.Cfg (self.upd_Cfg (upd_CONFIG_PCI <[n := d]>) s)) !! n = Some d.
Proof.
  destruct s as [? ? ? ? ? ? ? ? ? ? ? ? [P ? ? ? ? ? ? ?]]. simpl. apply lookup_insert_eq.
Qed.

Lemma dev_setitem_run s n key v d :
  CONFIG_PCI (self.Cfg s) !! n = Some d →
  dev_setitem n key v s
  = Ret (Ok tt, self.upd_Cfg (upd_CONFIG_PCI <[n := <[key := v]> d]>) s).
Proof.
  intros H. unfold dev_setitem. munfold. cbn.
  rewrite (getitem_Some _ _ _ H). cbn. by rewrite (upd_CONFIG_PCI_alter_insert _ _ _ _ H).
Qed.

Lemma get_device_BDF_run s n device b d f :
  CONFIG_PCI (self.Cfg s) !! n = Some device →
  (Py.getitem device "bus" ≫= Py.int16) = Ok b →
  (Py.getitem device "dev" ≫= Py.int16) = Ok d →
  (Py.getitem device "fun" ≫= Py.int16) = Ok f →
  get_device_BDF n s = Ret (Ok (b, d, f), s).
Proof.
  intros H Hb Hd Hf. unfold get_device_BDF. munfold. cbn.
  rewrite (getitem_Some _ _ _ H). cbn.
  rewrite bool_decide_eq_false_2.
  2:{ intros ->. unfold Py.getitem in Hb. by rewrite lookup_empty in Hb. }
  cbn. by rewrite Hb, Hd, Hf.
Qed.

(** X13. [switch_device_def] stores the bus, device and function numbers
    of the source device in the descriptor of the target device as
    [str(...)], that is in decimal, and leaves the rest of the store alone;
    [get_device_BDF] reads them in base 16.  So, for numbers below 256,
    the target device resolves to the numbers of the source device exactly
    when all three are below 10. *)
Theorem switch_device_def_reread
    (s : Chipset) (target_dev source_dev : string)
    (source target : gmap string pyval) (b d f : Z) :
  CONFIG_PCI (self.Cfg s) !! source_dev = Some source →
  CONFIG_PCI (self.Cfg s) !! target_dev = Some target →
  (Py.getitem source "bus" ≫= Py.int16) = Ok b →
  (Py.getitem source "dev" ≫= Py.int16) = Ok d →
  (Py.getitem source "fun" ≫= Py.int16) = Ok f →
  0 ≤ b < 256 → 0 ≤ d < 256 → 0 ≤ f < 256 →
  let s' := self.upd_Cfg
              (upd_CONFIG_PCI
                 <[target_dev := <["fun" := PStr (str_int f)]>
                                   (<["dev" := PStr (str_int d)]>
                                      (<["bus" := PStr (str_int b)]> target))]>) s in
  switch_device_def target_dev source_dev s = Ret (Ok tt, s') ∧
  ∃ b' d' f',
    get_device_BDF target_dev s' = Ret (Ok (b', d', f'), s') ∧
    ((b', d', f') = (b, d, f) ↔ b < 10 ∧ d < 10 ∧ f < 10).
Proof.
  intros Hs Ht Hb Hd Hf Hbr Hdr Hfr s'.
  destruct (str_int_reread b Hbr) as (b' & Hb' & Hbi).
  destruct (str_int_reread d Hdr) as (d' & Hd' & Hdi).
  destruct (str_int_reread f Hfr) as (f' & Hf' & Hfi).
  split.
  - unfold switch_device_def.
    rewrite (bind_run _ _ _ (b, d, f) s (get_device_BDF_run _ _ _ _ _ _ Hs Hb Hd Hf)).
    rewrite (bind_run _ _ _ tt _ (dev_setitem_run _ _ _ _ _ Ht)).
    rewrite (bind_run _ _ _ tt _
               (dev_setitem_run _ _ "dev" _ _ (upd_CONFIG_PCI_lookup _ _ _))).
    rewrite (dev_setitem_run _ _ "fun" _ _ (upd_CONFIG_PCI_lookup _ _ _)).
    by rewrite !upd_CONFIG_PCI_insert_insert.
  - exists b', d', f'. split.
    + apply (get_device_BDF_run s' target_dev _ b' d' f' (upd_CONFIG_PCI_lookup _ _ _)).
      * unfold Py.getitem.
        rewrite !lookup_insert_ne, lookup_insert_eq by done. exact Hb'.
      * unfold Py.getitem.
        rewrite lookup_insert_ne, lookup_insert_eq by done. exact Hd'.
      * unfold Py.getitem. rewrite lookup_insert_eq. exact Hf'.
    + split.
      * intros [= -> -> ->]. tauto.
      * intros (H1 & H2 & H3). f_equal; [f_equal|]; tauto.
Qed.

Lemma switch_device_def_reread_witness :
  ∃ s' b' d' f',
    switch_device_def "HOSTCTRL" "LPC" demo_cs = Ret (Ok tt, s') ∧
    get_device_BDF "LPC" demo_cs = Ret (Ok (0, 31, 0), demo_cs) ∧
    get_device_BDF "HOSTCTRL" s' = Ret (Ok (b', d', f'), s') ∧
    (b', d', f') = (0, 0x31, 0).
Proof.
  destruct (switch_device_def_reread demo_cs "HOSTCTRL" "LPC"
              (default ∅ (CONFIG_PCI (self.Cfg demo_cs) !! "LPC"))
              (default ∅ (CONFIG_PCI (self.Cfg demo_cs) !! "HOSTCTRL"))
              0 31 0) as (Hrun & b' & d' & f' & Hget & _).
  - vm_compute. reflexivity.
  - vm_compute. reflexivity.
  - vm_compute. reflexivity.
  - vm_compute. reflexivity.
  - vm_compute. reflexivity.
  - lia.
  - lia.
  - lia.
  - eexists _, b', d', f'. split; [exact Hrun|].
    split; [vm_compute; reflexivity|]. split; [exact Hget|].
    assert (Hc : get_device_BDF "HOSTCTRL"
                   (self.upd_Cfg
                      (upd_CONFIG_PCI
                         <["HOSTCTRL" :=
                             <["fun" := PStr (str_int 0)]>
                               (<["dev" := PStr (str_int 31)]>
                                  (<["bus" := PStr (str_int 0)]>
                                     (default ∅ (CONFIG_PCI (self.Cfg demo_cs)
                                                   !! "HOSTCTRL"))))]>) demo_cs)
                 = Ret (Ok (0, 0x31, 0),
                        self.upd_Cfg
                      (upd_CONFIG_PCI
                         <["HOSTCTRL" :=
                             <["fun" := PStr (str_int 0)]>
                               (<["dev" := PStr (str_int 31)]>
                                  (<["bus" := PStr (str_int 0)]>
                                     (default ∅ (CONFIG_PCI (self.Cfg demo_cs)
                                                   !! "HOSTCTRL"))))]>) demo_cs))
      by (vm_compute; reflexivity).
    rewrite Hc in Hget. by injection Hget as <- <- <-.
Defined.

Lemma land_16_bounds x : 0 ≤ Z.land x 0xFFFF < 2 ^ 16.
Proof.
  change 0xFFFF with (Z.ones 16). rewrite Z.land_ones by lia.
  apply Z.mod_pos_bound. lia.
Qed.

(** X14. [detect_platform] never raises and never changes the object,
    whatever the reads do; the vendor and device ids that it returns, for
    the platform and for the PCH, are 16-bit numbers; and the PCH is
    probed at 0:31.0 also when the platform could not be read. *)
Theorem detect_platform_total (s : Chipset) :
  always (detect_platform s)
    (λ rs, rs.2 = s ∧
           ∃ v d r pv pd pr,
             rs.1 = Ok (v, d, r, pv, pd, pr) ∧
             0 ≤ v < 2 ^ 16 ∧ 0 ≤ d < 2 ^ 16 ∧ 0 ≤ pv < 2 ^ 16 ∧ 0 ≤ pd < 2 ^ 16) ∧
  ∀ (W : Type) (h : world W) (w : W),
    pci_read_dword 0 0 0 0 ∈ calls h (detect_platform s) w ∧
    pci_read_dword 0 31 0 0 ∈ calls h (detect_platform s) w.
Proof.
  split.
  - unfold detect_platform, try_except. munfold. unfold call. cbn.
    pose proof land_16_bounds as Hb.
    intros [x|e]; cbn.
    + intros [r|e]; cbn; (intros [y|e']; cbn; [intros [r'|e'']; cbn|]);
        (split; [done|]); do 6 eexists; (split; [reflexivity|]);
        repeat split; try apply Hb; done.
    + intros [y|e']; cbn; [intros [r'|e'']; cbn|];
        (split; [done|]); do 6 eexists; (split; [reflexivity|]);
        repeat split; try apply Hb; done.
  - intros W h w.
    unfold detect_platform, try_except. munfold. unfold call. cbn.
    split; [apply list_elem_of_here|].
    apply list_elem_of_further.
    destruct (h (pci_read_dword 0 0 0 0) w) as [[x|e] w1]; cbn.
    + apply list_elem_of_further.
      destruct (h (pci_read_byte 0 0 0 PCI_HDR_RID_OFF) w1) as [[r|e] w2]; cbn;
        apply list_elem_of_here.
    + apply list_elem_of_here.
Qed.

(** X15. [init_cfg] keeps the identity of the object, and whatever goes
    wrong while the documents are loaded is dropped: it returns normally
    unless the import of the platform module raises something other than
    [ImportError], which can only happen when the chipset code is not
    empty.  When [init_xml_configuration] itself returns normally, the
    flag [XML_CONFIG_LOADED] is set. *)
Theorem init_cfg_drops_loading_errors (s : Chipset) :
  always (init_cfg s)
    (λ rs, same_identity s rs.2 ∧
           (rs.1 = Ok tt ∨
            ∃ tag, self.code s ≠ "" ∧ rs.1 = Exc (External (OtherError tag)))) ∧
  always (init_xml_configuration s)
    (λ rs, rs.1 = Ok tt → XML_CONFIG_LOADED (self.Cfg rs.2) = true).
Proof.
  split.
  - apply always_and.
    + apply (preserves_init_cfg (same_identity s)).
      * intros. by apply same_identity_upd_Cfg.
      * apply same_identity_refl.
    + unfold init_cfg. apply always_bind. cbn [get always fst snd]. apply always_bind.
      assert (Hxml : ∀ s',
                always (try_except init_xml_configuration (λ _, ret ()) s')
                  (λ rs, rs.1 = Ok ()
                         ∨ ∃ tag, self.code s ≠ ""
                                  ∧ rs.1 = Exc (External (OtherError tag)))).
      { intros s'. unfold try_except. apply always_prog_bind.
        eapply always_mono; [|apply always_True]. intros [[[]|e] s''] _; simpl; auto. }
      destruct (String.eqb_spec (self.code s) "") as [Heq|Hne]; cbn [negb];
        [cbn [ret always fst snd]; apply Hxml|].
      unfold try_except at 1. apply always_prog_bind. apply always_bind.
      unfold call. cbn [always]. intros [cfg|e]; cbn -[init_xml_configuration].
      * apply Hxml.
      * destruct e as [|tag]; cbn -[init_xml_configuration]; [apply Hxml|eauto].
  - unfold init_xml_configuration.
    apply always_bind. eapply always_mono; [|apply always_True].
    intros [[walk|e] s1] _; cbn [fst snd]; [|done].
    apply always_bind. cbn [get always fst snd].
    apply always_bind. eapply always_mono; [|apply always_True].
    intros [[[]|e] s2] _; cbn [fst snd]; [|done].
    apply always_bind. eapply always_mono; [|apply always_True].
    intros [[[]|e] s3] _; cbn [fst snd]; [|done].
    cbn. intros _. by destruct s3 as [? ? ? ? ? ? ? ? ? ? ? ? []].
Qed.

Lemma dict_of_items_is_Some {K V} `{Countable K} (items : list (K * V)) k :
  k ∈ items.*1 → is_Some (dict_of_items items !! k).
Proof.
  unfold dict_of_items. induction items as [|[k' v'] items IH] using rev_ind.
  - intros Hin. by apply elem_of_nil in Hin.
  - rewrite fmap_app, elem_of_app, foldl_app. cbn. intros [Hin|Hin].
    + destruct (decide (k' = k)) as [->|Hne].
      * rewrite lookup_insert_eq. eauto.
      * rewrite lookup_insert_ne by done. by apply IH.
    + apply list_elem_of_singleton in Hin as ->. rewrite lookup_insert_eq. eauto.
Qed.

Lemma elem_of_keys_in_order {K} `{EqDecision K} (seen l : list K) k :
  k ∈ l → k ∉ seen → k ∈ keys_in_order seen l.
Proof.
  revert seen. induction l as [|x l IH]; intros seen Hin Hseen.
  - by apply elem_of_nil in Hin.
  - cbn. case_bool_decide as Hx.
    + apply IH; [|done]. apply elem_of_cons in Hin as [->|Hin]; [done|done].
    + apply elem_of_cons in Hin as [->|Hin]; [apply list_elem_of_here|].
      destruct (decide (k = x)) as [->|Hne]; [apply list_elem_of_here|].
      apply list_elem_of_further, IH; [done|]. by intros [?|?]%elem_of_cons.
Qed.

(** X16. The table of codes built from a platform dictionary, whatever
    the dictionary holds: every code of an entry of the dictionary is a key
    of the table, and every key of the table leads to a device id whose
    entry in the dictionary carries that code. *)
Theorem codes_of_inverts_dictionary (items : list (Z * catalog_entry)) :
  (∀ d e, dict_of_items items !! d = Some e → is_Some (codes_of items !! d_code e)) ∧
  (∀ c d, codes_of items !! c = Some d →
          ∃ e, dict_of_items items !! d = Some e ∧ d_code e = c).
Proof.
  split.
  - intros d e Hd. unfold codes_of. apply dict_of_items_is_Some.
    apply list_elem_of_fmap. exists (d_code e, d). split; [done|].
    apply list_elem_of_omap. exists d. split.
    + apply elem_of_keys_in_order; [|by apply not_elem_of_nil].
      apply list_elem_of_fmap. exists (d, e). split; [done|].
      by apply dict_of_items_lookup.
    + by rewrite Hd.
  - intros c d Hc. unfold codes_of in Hc.
    apply dict_of_items_lookup in Hc.
    apply list_elem_of_omap in Hc as (d' & _ & Hd').
    destruct (dict_of_items items !! d') as [e|] eqn:He; [|done].
    cbn in Hd'. injection Hd' as <- <-. by exists e.
Qed.

(** X17. [is_core], [is_server] and [is_atom] leave the object alone and
    at most one of them holds, whatever the platform id is; for a platform
    of [Chipset_Dictionary] exactly one of them holds, except for Quark,
    for which none does. *)
Theorem platform_families_partition (s : Chipset) :
  ∃ c x a,
    is_core s = Ret (Ok c, s) ∧ is_server s = Ret (Ok x, s) ∧
    is_atom s = Ret (Ok a, s) ∧
    (c && x = false) ∧ (c && a = false) ∧ (x && a = false) ∧
    (∀ did e, Chipset_Dictionary !! did = Some e → self.id s = d_id e →
              if bool_decide (d_id e = CHIPSET_ID_QRK)
              then c = false ∧ x = false ∧ a = false
              else c || x || a = true).
Proof.
  exists (bool_decide (self.id s ∈ CHIPSET_FAMILY_CORE)),
         (bool_decide (self.id s ∈ CHIPSET_FAMILY_XEON)),
         (bool_decide (self.id s ∈ CHIPSET_FAMILY_ATOM)).
  split; [done|]. split; [done|]. split; [done|].
  assert (Hex : ∀ id,
            (bool_decide (id ∈ CHIPSET_FAMILY_CORE)
             && bool_decide (id ∈ CHIPSET_FAMILY_XEON) = false) ∧
            (bool_decide (id ∈ CHIPSET_FAMILY_CORE)
             && bool_decide (id ∈ CHIPSET_FAMILY_ATOM) = false) ∧
            (bool_decide (id ∈ CHIPSET_FAMILY_XEON)
             && bool_decide (id ∈ CHIPSET_FAMILY_ATOM) = false)).
  { intros id. rewrite !andb_false_iff, !bool_decide_eq_false.
    unfold CHIPSET_FAMILY_CORE, CHIPSET_FAMILY_XEON, CHIPSET_FAMILY_ATOM.
    rewrite !elem_of_cons, !elem_of_nil.
    unfold CHIPSET_ID_SNB, CHIPSET_ID_JKT, CHIPSET_ID_IVB, CHIPSET_ID_IVT,
      CHIPSET_ID_HSW, CHIPSET_ID_BYT, CHIPSET_ID_BDW, CHIPSET_ID_AVN, CHIPSET_ID_HSX,
      CHIPSET_ID_SKL, CHIPSET_ID_BSW, CHIPSET_ID_KBL, CHIPSET_ID_CHT, CHIPSET_ID_BDX,
      CHIPSET_ID_CFL, CHIPSET_ID_APL, CHIPSET_ID_DNV, CHIPSET_ID_WHL, CHIPSET_ID_SKX.
    lia. }
  destruct (Hex (self.id s)) as (H1 & H2 & H3).
  split; [done|]. split; [done|]. split; [done|].
  intros did e He Hid.
  assert (Hall : forallb (λ de : Z * catalog_entry, family_ok (d_id de.2))
                   Chipset_Dictionary_items = true) by (vm_compute; reflexivity).
  revert He Hall. unfold Chipset_Dictionary. generalize Chipset_Dictionary_items.
  intros items He Hall.
  rewrite forallb_forall in Hall.
  apply dict_of_items_lookup, list_elem_of_In in He.
  specialize (Hall _ He). cbn [snd] in Hall. rewrite <-Hid in *.
  clear He. unfold family_ok in Hall. cbv zeta in Hall.
  replace (bool_decide (self.id s = CHIPSET_ID_QRK))
    with (bool_decide (self.id s ∈ CHIPSET_FAMILY_QUARK)).
  2:{ apply bool_decide_ext. unfold CHIPSET_FAMILY_QUARK.
      by rewrite list_elem_of_singleton. }
  destruct (bool_decide (self.id s ∈ CHIPSET_FAMILY_QUARK)),
    (bool_decide (self.id s ∈ CHIPSET_FAMILY_CORE)),
    (bool_decide (self.id s ∈ CHIPSET_FAMILY_XEON)),
    (bool_decide (self.id s ∈ CHIPSET_FAMILY_ATOM)); done.
Qed.

(** ** Bus resolution and the enumeration *)

Lemma declares_functional device_data dev fn vid did_list dev' fn' vid' did_list' :
  declares device_data dev fn vid did_list →
  declares device_data dev' fn' vid' did_list' →
  dev' = dev ∧ fn' = fn ∧ vid' = vid ∧ did_list' = did_list.
Proof.
  intros (v & x & Hv & _ & Hx & _ & Hl & Hd & Hf & Hi)
         (v' & x' & Hv' & _ & Hx' & _ & Hl' & Hd' & Hf' & Hi').
  rewrite Hv in Hv'. injection Hv' as <-. rewrite Hx in Hx'. injection Hx' as <-.
  rewrite Hl in Hl'. rewrite Hd in Hd'. rewrite Hf in Hf'. rewrite Hi in Hi'.
  by simplify_eq.
Qed.

Lemma declares_truthy device_data dev fn vid did_list :
  declares device_data dev fn vid did_list →
  Py.truthy (device_data !! "vid") && Py.truthy (device_data !! "did") = true.
Proof.
  intros (v & x & Hv & Htv & Hx & Hne & _). rewrite Hv, Htv, Hx. cbn.
  by destruct (String.eqb_spec x "").
Qed.

Lemma matching_buses_found device_data xml_vid did_list enum_devices bus_list :
  matching_buses device_data xml_vid did_list enum_devices [] = Ok bus_list →
  bus_list ≠ [] →
  ∃ dev fn vid,
    (Py.getitem device_data "dev" ≫= Py.int16) = Ok dev ∧
    (Py.getitem device_data "fun" ≫= Py.int16) = Ok fn ∧
    Py.int16 xml_vid = Ok vid ∧
    bus_list = discovered_buses enum_devices dev fn vid did_list.
Proof.
  intros Hm Hne.
  destruct enum_devices as [|[[[[b d] f] v] di] rest].
  { cbn in Hm. by injection Hm as <-. }
  destruct (Py.getitem device_data "dev" ≫= Py.int16) as [dev|e] eqn:Hd.
  2:{ cbn [matching_buses] in Hm. rewrite Hd in Hm. done. }
  destruct (Py.getitem device_data "fun" ≫= Py.int16) as [fn|e] eqn:Hf.
  2:{ cbn [matching_buses] in Hm. rewrite Hd, Hf in Hm. done. }
  destruct (Py.int16 xml_vid) as [vid|e] eqn:Hv.
  2:{ cbn [matching_buses] in Hm. rewrite Hd, Hf, Hv in Hm. done. }
  exists dev, fn, vid. split; [done|]. split; [done|]. split; [done|].
  rewrite (matching_buses_spec _ _ _ _ [] dev fn vid Hd Hf Hv) in Hm.
  cbn [app] in Hm. by injection Hm as <-.
Qed.

(** One visit of the loop: the store is as it was, and then no bus was
    discovered for a device that declares its ids unless the visit raised,
    or the device declares its ids and is bound to the buses discovered
    for it, of which there is one at least. *)
Lemma init_cfg_bus_device_visit enum_devices config_device s :
  ∃ r s', init_cfg_bus_device enum_devices config_device s = Ret (r, s') ∧
    ((s' = s ∧
      (r = Ok tt →
       ∀ device_data dev fn vid did_list,
         CONFIG_PCI (self.Cfg s) !! config_device = Some device_data →
         declares device_data dev fn vid did_list →
         discovered_buses enum_devices dev fn vid did_list = [])) ∨
     (r = Ok tt ∧
      ∃ device_data dev fn vid did_list,
        CONFIG_PCI (self.Cfg s) !! config_device = Some device_data ∧
        declares device_data dev fn vid did_list ∧
        discovered_buses enum_devices dev fn vid did_list ≠ [] ∧
        s' = self.upd_Cfg
               (upd_BUS <[config_device
                            := discovered_buses enum_devices dev fn vid did_list]>) s)).
Proof.
  unfold init_cfg_bus_device.
  unfold bind_ at 1 2, M_bind, bind at 1 2, get, lift. cbn [prog_bind fst snd].
  unfold Py.getitem at 1.
  destruct (CONFIG_PCI (self.Cfg s) !! config_device) as [device_data|] eqn:Hdev.
  2:{ eexists _, _. split; [reflexivity|]. left. split; [done|]. done. }
  cbn [fst snd].
  destruct (Py.truthy (device_data !! "vid") && Py.truthy (device_data !! "did")) eqn:Ht.
  2:{ eexists _, _. split; [reflexivity|]. left. split; [done|].
      intros _ dd dev fn vid dl [= <-] Hdecl.
      apply declares_truthy in Hdecl. congruence. }
  apply andb_true_iff in Ht as [Htv Htd].
  destruct (device_data !! "vid") as [xml_vid|] eqn:Hvid; [|done].
  destruct (device_data !! "did") as [[x| |]|] eqn:Hdid.
  2-4: by (eexists _, _; split; [reflexivity|]; left; split; [done|]).
  assert (Hx : x ≠ "").
  { cbn in Htd. by destruct (String.eqb_spec x ""). }
  unfold bind_ at 1, M_bind, bind at 1, lift. cbn [prog_bind fst snd].
  unfold bind_ at 1, M_bind, bind at 1, lift. cbn [prog_bind fst snd].
  destruct (map_result (λ y, Py.int16 (PStr y)) (Py.split "," x)) as [did_list|e] eqn:Hl.
  2:{ eexists _, _. split; [reflexivity|]. left. split; [done|]. done. }
  cbn [fst snd default from_option id].
  unfold bind_ at 1, M_bind, bind at 1, lift. cbn [prog_bind fst snd].
  destruct (matching_buses device_data xml_vid did_list enum_devices [])
    as [bus_list|e] eqn:Hm.
  2:{ eexists _, _. split; [reflexivity|]. left. split; [done|]. done. }
  cbn [fst snd].
  destruct (decide (bus_list = [])) as [->|Hne].
  - rewrite bool_decide_eq_true_2 by done.
    eexists _, _. split; [reflexivity|]. left. split; [done|].
    intros _ dd dev fn vid dl [= <-] (v & x' & Hv' & _ & Hx' & _ & Hl' & Hd & Hf & Hi).
    rewrite Hvid in Hv'. injection Hv' as <-.
    rewrite Hdid in Hx'. injection Hx' as <-.
    rewrite Hl in Hl'. injection Hl' as <-.
    rewrite (matching_buses_spec _ _ _ _ [] dev fn vid Hd Hf Hi) in Hm.
    cbn [app] in Hm. by injection Hm.
  - rewrite bool_decide_eq_false_2 by done.
    destruct (matching_buses_found _ _ _ _ _ Hm Hne) as (dev & fn & vid & Hd & Hf & Hi & ->).
    eexists _, _. split; [reflexivity|]. right. split; [done|].
    exists device_data, dev, fn, vid, did_list.
    split; [done|]. split; [|done].
    exists xml_vid, x. by rewrite Hvid.
Qed.

Lemma upd_BUS_frame s f :
  self.upd_Cfg (upd_BUS f) s
  = self.upd_Cfg (upd_BUS (λ _, BUS (self.Cfg (self.upd_Cfg (upd_BUS f) s)))) s.
Proof. by destruct s as [? ? ? ? ? ? ? ? ? ? ? ? []]. Qed.

Lemma upd_BUS_id s : s = self.upd_Cfg (upd_BUS (λ _, BUS (self.Cfg s))) s.
Proof. by destruct s as [? ? ? ? ? ? ? ? ? ? ? ? []]. Qed.

Lemma upd_BUS_upd_BUS s f g :
  self.upd_Cfg (upd_BUS g) (self.upd_Cfg (upd_BUS f) s)
  = self.upd_Cfg (upd_BUS (g ∘ f)) s.
Proof. by destruct s as [? ? ? ? ? ? ? ? ? ? ? ? []]. Qed.

Lemma upd_BUS_CONFIG_PCI s f :
  CONFIG_PCI (self.Cfg (self.upd_Cfg (upd_BUS f) s)) = CONFIG_PCI (self.Cfg s).
Proof. by destruct s as [? ? ? ? ? ? ? ? ? ? ? ? []]. Qed.

Lemma upd_BUS_BUS s f :
  BUS (self.Cfg (self.upd_Cfg (upd_BUS f) s)) = f (BUS (self.Cfg s)).
Proof. by destruct s as [? ? ? ? ? ? ? ? ? ? ? ? []]. Qed.

(** The bindings of a store are those of the store it was made from, or
    the discovered buses: what follows for the devices without ids. *)
Lemma bus_bound_no_ids enum_devices (s0 s' : Chipset) :
  (∀ name,
     BUS (self.Cfg s') !! name = BUS (self.Cfg s0) !! name ∨
     ∃ device_data dev fn vid did_list,
       CONFIG_PCI (self.Cfg s0) !! name = Some device_data ∧
       declares device_data dev fn vid did_list ∧
       discovered_buses enum_devices dev fn vid did_list ≠ [] ∧
       BUS (self.Cfg s') !! name
       = Some (discovered_buses enum_devices dev fn vid did_list)) →
  ∀ name device_data,
    CONFIG_PCI (self.Cfg s0) !! name = Some device_data →
    Py.truthy (device_data !! "vid") && Py.truthy (device_data !! "did") = false →
    BUS (self.Cfg s') !! name = BUS (self.Cfg s0) !! name.
Proof.
  intros H name dd Hdd Hno.
  destruct (H name) as [|(dd' & dev & fn & vid & dl & Hdd' & Hdecl & _)]; [done|].
  rewrite Hdd in Hdd'. injection Hdd' as <-.
  apply declares_truthy in Hdecl. congruence.
Qed.

(** The loop over the devices, from any store. *)
Lemma init_cfg_bus_loop enum_devices order s :
  ∃ r s', for_each order (init_cfg_bus_device enum_devices) s = Ret (r, s') ∧
          bus_bound enum_devices order s (r, s').
Proof.
  revert s. induction order as [|x order IH]; intros s.
  { exists (Ok tt), s. split; [done|]. unfold bus_bound. cbn [fst snd].
    split; [apply upd_BUS_id|]. split; [by left|]. split; [done|].
    intros _ name dd dev fn vid dl Hin. by apply elem_of_nil in Hin. }
  cbn [for_each]. unfold bind at 1.
  destruct (init_cfg_bus_device_visit enum_devices x s) as (r1 & s1 & Hrun & Hvisit).
  rewrite Hrun. cbn [prog_bind fst snd].
  assert (Hstep : bus_bound enum_devices [x] s (r1, s1)).
  { unfold bus_bound. cbn [fst snd].
    destruct Hvisit as [[-> Hnone]|(-> & dd & dev & fn & vid & dl & Hdd & Hdecl & Hne & ->)].
    - split; [apply upd_BUS_id|]. split; [by left|]. split; [done|].
      intros Hr name dd dev fn vid dl Hin Hdd Hdecl.
      apply list_elem_of_singleton in Hin as ->.
      by rewrite (Hnone Hr _ _ _ _ _ Hdd Hdecl), bool_decide_eq_true_2.
    - rewrite upd_BUS_BUS. split; [apply upd_BUS_frame|].
      assert (H2 : ∀ name,
        <[x := discovered_buses enum_devices dev fn vid dl]> (BUS (self.Cfg s)) !! name
          = BUS (self.Cfg s) !! name ∨
        ∃ device_data dev0 fn0 vid0 did_list,
          CONFIG_PCI (self.Cfg s) !! name = Some device_data ∧
          declares device_data dev0 fn0 vid0 did_list ∧
          discovered_buses enum_devices dev0 fn0 vid0 did_list ≠ [] ∧
          <[x := discovered_buses enum_devices dev fn vid dl]> (BUS (self.Cfg s)) !! name
          = Some (discovered_buses enum_devices dev0 fn0 vid0 did_list)).
      { intros name. destruct (decide (name = x)) as [->|Hn].
        - right. exists dd, dev, fn, vid, dl. by rewrite lookup_insert_eq.
        - left. by rewrite lookup_insert_ne. }
      split; [done|]. split.
      + intros name dd' Hdd' Hno.
        destruct (decide (name = x)) as [->|Hn]; [|by rewrite lookup_insert_ne].
        rewrite Hdd in Hdd'. injection Hdd' as <-.
        apply declares_truthy in Hdecl. congruence.
      + intros _ name dd' dev' fn' vid' dl' Hin Hdd' Hdecl'.
        apply list_elem_of_singleton in Hin as ->.
        rewrite Hdd in Hdd'. injection Hdd' as <-.
        destruct (declares_functional _ _ _ _ _ _ _ _ _ Hdecl Hdecl')
          as (-> & -> & -> & ->).
        by rewrite lookup_insert_eq, bool_decide_eq_false_2. }
  destruct r1 as [[]|e].
  2:{ exists (Exc e), s1. split; [done|].
      destruct Hstep as (H1 & H2 & H3 & _). split; [done|]. split; [done|].
      split; [done|]. done. }
  destruct (IH s1) as (r & s' & Hrun' & Hrest).
  exists r, s'. split; [done|].
  destruct Hstep as (F1 & E1 & N1 & D1). destruct Hrest as (F2 & E2 & N2 & D2).
  cbn [fst snd] in *.
  assert (Hpci : CONFIG_PCI (self.Cfg s1) = CONFIG_PCI (self.Cfg s)).
  { rewrite F1. apply upd_BUS_CONFIG_PCI. }
  assert (E : ∀ name,
     BUS (self.Cfg s') !! name = BUS (self.Cfg s) !! name ∨
     ∃ device_data dev fn vid did_list,
       CONFIG_PCI (self.Cfg s) !! name = Some device_data ∧
       declares device_data dev fn vid did_list ∧
       discovered_buses enum_devices dev fn vid did_list ≠ [] ∧
       BUS (self.Cfg s') !! name
       = Some (discovered_buses enum_devices dev fn vid did_list)).
  { intros name. destruct (E2 name) as [Heq|Hnew].
    - rewrite Heq. apply E1.
    - right. by rewrite <-Hpci. }
  unfold bus_bound. cbn [fst snd]. split; [|split; [|split]].
  - rewrite F2 at 1. rewrite F1 at 1. by rewrite upd_BUS_upd_BUS.
  - done.
  - by apply bus_bound_no_ids with enum_devices.
  - intros Hr name dd dev fn vid dl Hin Hdd Hdecl.
    assert (Hdd1 : CONFIG_PCI (self.Cfg s1) !! name = Some dd) by by rewrite Hpci.
    set (found := discovered_buses enum_devices dev fn vid dl) in *.
    destruct (decide (found = [])) as [Hnil|Hfound].
    { rewrite bool_decide_eq_true_2 by done.
      destruct (E name) as [|(dd' & dev' & fn' & vid' & dl' & Hdd' & Hdecl' & Hne & _)];
        [done|].
      rewrite Hdd in Hdd'. injection Hdd' as <-.
      destruct (declares_functional _ _ _ _ _ _ _ _ _ Hdecl Hdecl')
        as (-> & -> & -> & ->).
      done. }
    rewrite bool_decide_eq_false_2 by done.
    apply elem_of_cons in Hin as [->|Hin].
    + assert (H1 : BUS (self.Cfg s1) !! x = Some found).
      { rewrite (D1 eq_refl x dd dev fn vid dl) by (try done; apply list_elem_of_here).
        fold found. by rewrite bool_decide_eq_false_2. }
      destruct (E2 x) as [Heq|(dd' & dev' & fn' & vid' & dl' & Hdd' & Hdecl' & _ & Hb)].
      * by rewrite Heq.
      * rewrite Hdd1 in Hdd'. injection Hdd' as <-.
        destruct (declares_functional _ _ _ _ _ _ _ _ _ Hdecl Hdecl')
          as (-> & -> & -> & ->).
        done.
    + rewrite (D2 Hr name dd dev fn vid dl Hin Hdd1 Hdecl). fold found.
      by rewrite bool_decide_eq_false_2.
Qed.

(** C10. Bus resolution in any world and from any store, whatever the
    order in which the loop visits the devices; [init_cfg_bus] visits the
    keys of [CONFIG_PCI].  With the list that [enumerate_devices] returns
    (the empty list when it raises): nothing but [BUS] changes.  The
    binding of every name is what it was before, or it is the list of the
    buses discovered in the enumeration for that name, which then is a
    device of [CONFIG_PCI] that declares a vendor id and a list of device
    ids, and the list has a bus at least: a name without a match is not
    entered.  The binding of a descriptor that lacks the vendor id or the
    device ids is what it was.  When the loop returns, every visited device
    that declares its ids is bound to the buses discovered for it if there
    is one, and has its former binding otherwise. *)
Theorem init_cfg_bus_bindings {W} (h : world W) (w : W) (s : Chipset) :
  let enum_devices := enumerated (h pci_enumerate_devices w).1 in
  (∀ order,
     bus_bound enum_devices order s (run h (init_cfg_bus_visiting order s) w).1) ∧
  bus_bound enum_devices (dict_keys (CONFIG_PCI (self.Cfg s)))
    s (run h (init_cfg_bus s) w).1.
Proof.
  cbv zeta.
  assert (Hrun : ∀ order,
    (run h (init_cfg_bus_visiting order s) w).1
    = (run h (for_each order
                (init_cfg_bus_device (enumerated (h pci_enumerate_devices w).1)) s)
         (h pci_enumerate_devices w).2).1).
  { intros order. unfold init_cfg_bus_visiting, bind_, M_bind, bind, try_except, call.
    cbn [prog_bind run].
    by destruct (h pci_enumerate_devices w) as [[l|e] w']. }
  assert (Hall : ∀ order,
    bus_bound (enumerated (h pci_enumerate_devices w).1) order s
      (run h (init_cfg_bus_visiting order s) w).1).
  { intros order. rewrite Hrun.
    destruct (init_cfg_bus_loop (enumerated (h pci_enumerate_devices w).1) order s)
      as (r & s' & -> & Hb).
    exact Hb. }
  split; [exact Hall|].
  replace (run h (init_cfg_bus s) w)
    with (run h (init_cfg_bus_visiting (dict_keys (CONFIG_PCI (self.Cfg s))) s) w);
    [apply Hall|].
  unfold init_cfg_bus, init_cfg_bus_visiting, bind_, M_bind, bind, try_except, call, get.
  cbn [prog_bind run].
  by destruct (h pci_enumerate_devices w) as [[l|e] w'].
Qed.

Lemma init_cfg_bus_bindings_witness :
  let s := self.upd_Cfg (upd_BUS (λ _, ∅)) demo_cs in
  let rs := (run demo_world (init_cfg_bus s) tt).1 in
  BUS (self.Cfg rs.2) !! "LPC"
    = Some (discovered_buses (enumerated (demo_world pci_enumerate_devices tt).1)
              0x1F 0 0x8086 [0x0100; 0x0101]) ∧
  discovered_buses (enumerated (demo_world pci_enumerate_devices tt).1)
    0x1F 0 0x8086 [0x0100; 0x0101] = [PStr "0x0"] ∧
  BUS (self.Cfg rs.2) !! "HOSTCTRL" = None.
Proof.
  cbv zeta.
  destruct (init_cfg_bus_bindings demo_world tt (self.upd_Cfg (upd_BUS (λ _, ∅)) demo_cs))
    as (_ & _ & _ & Hno & Hdone).
  split; [|split].
  - rewrite (Hdone eq_refl "LPC"
               (default ∅ (CONFIG_PCI (self.Cfg demo_cs) !! "LPC"))
               0x1F 0 0x8086 [0x0100; 0x0101]).
    + reflexivity.
    + apply elem_of_dict_keys. vm_compute. eauto.
    + reflexivity.
    + exists (PStr "0x8086"), "0x0100,0x0101". repeat split; try reflexivity. discriminate.
  - reflexivity.
  - rewrite (Hno "HOSTCTRL" (default ∅ (CONFIG_PCI (self.Cfg demo_cs) !! "HOSTCTRL")));
      reflexivity.
Defined.

(** ** Elements of a document and their attributes *)

Lemma is_prefix_spec p q : is_prefix p q = true ↔ ∃ r, q = p ++ r.
Proof.
  revert q. induction p as [|i p IH]; intros q; cbn.
  - split; [eauto|done].
  - destruct q as [|j q].
    + split; [done|]. by intros [r Hr].
    + rewrite andb_true_iff, Nat.eqb_eq, IH. split.
      * intros [-> [r ->]]. eauto.
      * intros [r [= -> ->]]. eauto.
Qed.

Lemma is_prefix_app p q : is_prefix p (p ++ q) = true.
Proof. apply is_prefix_spec. eauto. Qed.

Lemma is_prefix_refl p : is_prefix p p = true.
Proof. apply is_prefix_spec. exists []. by rewrite app_nil_r. Qed.

Lemma is_prefix_comparable p q x :
  is_prefix p x = true → is_prefix q x = true →
  is_prefix p q = true ∨ is_prefix q p = true.
Proof.
  revert q x. induction p as [|i p IH]; intros q x; [by left|].
  destruct q as [|j q]; [by right|]. destruct x as [|k x]; [done|]. cbn.
  rewrite !andb_true_iff, !Nat.eqb_eq. intros [-> Hp] [-> Hq].
  destruct (IH q x Hp Hq); [left|right]; done.
Qed.

Lemma apart_below p q x :
  apart p q = true → is_prefix p x = true → is_prefix q x = false.
Proof.
  unfold apart. rewrite andb_true_iff, !negb_true_iff. intros [H1 H2] Hp.
  destruct (is_prefix q x) eqn:Hq; [|done].
  destruct (is_prefix_comparable p q x Hp Hq); congruence.
Qed.

Lemma attrib_of_elt t p : attrib_of t p = el_attrib (elt p t).
Proof. unfold attrib_of, elt. by destruct (subelement p t). Qed.

Lemma subelement_app p q t :
  subelement (p ++ q) t = subelement p t ≫= subelement q.
Proof.
  revert t. induction p as [|i p IH]; intros [tg a cs]; cbn; [done|].
  destruct (cs !! i) as [c|]; cbn; [apply IH|done].
Qed.

Lemma attrib_of_nil_elem q : attrib_of (Elem "" ∅ []) q = ∅.
Proof. by destruct q. Qed.

Lemma attrib_of_app p q t : attrib_of t (p ++ q) = attrib_of (elt p t) q.
Proof.
  unfold attrib_of at 1, elt. rewrite subelement_app.
  destruct (subelement p t) as [e|]; cbn; [done|]. by rewrite attrib_of_nil_elem.
Qed.

Lemma attrib_of_name_is_Some t p v :
  attrib_of t p !! "name" = Some v → ∃ e, subelement p t = Some e.
Proof. unfold attrib_of. destruct (subelement p t); [eauto|done]. Qed.

Lemma subelement_upd_attrib_frame f p' p t :
  is_prefix p p' = false → subelement p (upd_attrib f p' t) = subelement p t.
Proof.
  revert p t. induction p' as [|i p' IH]; intros [|j p] [tg a cs] H; cbn in *; try done.
  destruct (decide (i = j)) as [->|Hij].
  - rewrite list_lookup_alter_eq. destruct (cs !! j) as [c|]; cbn; [|done].
    apply IH. by rewrite Nat.eqb_refl in H.
  - by rewrite list_lookup_alter_ne.
Qed.

Lemma iter_unfold tag t a cs :
  iter tag (Elem t a cs)
  = (if String.eqb t tag then [[]] else []) ++ iter_children tag 0 cs.
Proof.
  cbn [iter]. f_equal. generalize 0%nat.
  induction cs as [|c cs IH]; intros i; cbn; [done|]. by rewrite IH.
Qed.

Lemma iter_children_alter tag g k cs i :
  (∀ c, cs !! k = Some c → iter tag (g c) = iter tag c) →
  iter_children tag i (alter g k cs) = iter_children tag i cs.
Proof.
  revert i k. induction cs as [|c cs IH]; intros i [|k] H; cbn; try done.
  - by rewrite (H c).
  - by rewrite IH.
Qed.

Lemma iter_upd_attrib tag f p t : iter tag (upd_attrib f p t) = iter tag t.
Proof.
  revert t. induction p as [|i p IH]; intros [tg a cs]; [done|].
  cbn [upd_attrib el_tag el_attrib el_children]. rewrite !iter_unfold.
  f_equal. apply iter_children_alter. intros c _. apply IH.
Qed.

Lemma iter_elt_upd_attrib tag f p q t :
  iter tag (elt q (upd_attrib f p t)) = iter tag (elt q t).
Proof.
  revert p t. induction q as [|j q IH]; intros p t.
  { apply iter_upd_attrib. }
  destruct p as [|i p], t as [tg a cs]; [done|].
  unfold elt in *. cbn [upd_attrib subelement el_tag el_attrib el_children].
  destruct (decide (i = j)) as [->|Hij].
  - rewrite list_lookup_alter_eq. destruct (cs !! j) as [c|]; cbn; [apply IH|done].
  - by rewrite list_lookup_alter_ne.
Qed.

Lemma Element_ind' (P : Element → Prop) :
  (∀ t a cs, Forall P cs → P (Elem t a cs)) → ∀ e, P e.
Proof.
  intros H. fix IH 1. intros [t a cs]. apply H.
  induction cs as [|c cs IHcs]; constructor; [apply IH|apply IHcs].
Qed.

Lemma iter_children_spec tag cs :
  Forall (λ c, NoDup (iter tag c)) cs →
  ∀ i, NoDup (iter_children tag i cs) ∧
       ∀ q, q ∈ iter_children tag i cs → ∃ j q', q = j :: q' ∧ (i ≤ j)%nat.
Proof.
  induction 1 as [|c cs Hc _ IH]; intros i; cbn.
  { split; [constructor|]. intros q Hq. by apply elem_of_nil in Hq. }
  destruct (IH (S i)) as [Hnd Hge]. split.
  - apply NoDup_app. split; [|split; [|done]].
    + apply NoDup_fmap_2; [|done]. by intros ?? [=].
    + intros q Hq Hq'. apply list_elem_of_fmap in Hq as (q0 & -> & _).
      destruct (Hge _ Hq') as (j & q' & [= -> ->] & Hle). lia.
  - intros q Hq. apply elem_of_app in Hq as [Hq|Hq].
    + apply list_elem_of_fmap in Hq as (q0 & -> & _). eauto.
    + destruct (Hge _ Hq) as (j & q' & -> & Hle). exists j, q'. split; [done|lia].
Qed.

Lemma NoDup_iter tag e : NoDup (iter tag e).
Proof.
  induction e as [t a cs IH] using Element_ind'. rewrite iter_unfold.
  destruct (iter_children_spec tag cs IH 0) as [Hnd Hge].
  apply NoDup_app. split; [|split; [|done]].
  - destruct (String.eqb t tag); [apply NoDup_singleton|constructor].
  - intros q Hq Hq'. destruct (Hge _ Hq') as (j & q' & -> & _).
    destruct (String.eqb t tag); [|by apply elem_of_nil in Hq].
    by apply list_elem_of_singleton in Hq.
Qed.

(** What is kept by attribute updates. *)
Lemma rewritten_mono (P Q : path → Prop) t t' :
  (∀ p, P p → Q p) → rewritten P t t' → rewritten Q t t'.
Proof. intros H. induction 1; [constructor|constructor; auto]. Qed.

Lemma rewritten_trans P t t1 t2 :
  rewritten P t t1 → rewritten P t1 t2 → rewritten P t t2.
Proof. intros H1. induction 1; [done|by constructor]. Qed.

Lemma rewritten_upd P t f p :
  P p → (∀ a, f a !! "platform" = a !! "platform") →
  rewritten P t (upd_attrib f p t).
Proof. intros. constructor; [done|done|constructor]. Qed.

Lemma rewritten_platform P t t' q :
  rewritten P t t' → attrib_of t' q !! "platform" = attrib_of t q !! "platform".
Proof.
  induction 1 as [|t' f p Hp Hf _ IH]; [done|]. rewrite <-IH.
  destruct (decide (p = q)) as [->|Hpq]; [|by rewrite attrib_of_upd_attrib_ne].
  unfold attrib_of. rewrite subelement_upd_attrib.
  destruct (subelement q t') as [e|]; cbn; [apply Hf|done].
Qed.

Ltac keeps_platform :=
  intros ?; first [by rewrite lookup_delete_ne | by rewrite lookup_insert_ne].

Lemma rewritten_attrib_of P t t' q :
  rewritten P t t' → ¬ P q → attrib_of t' q = attrib_of t q.
Proof.
  induction 1 as [|t' f p Hp _ _ IH]; intros Hq; [done|].
  rewrite attrib_of_upd_attrib_ne; [auto|]. by intros ->.
Qed.

Lemma rewritten_subelement P t t' q :
  rewritten P t t' → (∀ p, P p → is_prefix q p = false) →
  subelement q t' = subelement q t.
Proof.
  induction 1 as [|t' f p Hp _ _ IH]; intros Hq; [done|].
  rewrite subelement_upd_attrib_frame; auto.
Qed.

Lemma rewritten_elt P t t' q :
  rewritten P t t' → (∀ p, P p → is_prefix q p = false) → elt q t' = elt q t.
Proof. intros. unfold elt. by rewrite (rewritten_subelement P t t'). Qed.

Lemma rewritten_iter P t t' tag q :
  rewritten P t t' → iter tag (elt q t') = iter tag (elt q t).
Proof. induction 1; [done|]. by rewrite iter_elt_upd_attrib. Qed.

(** ** The loader and the definitions of the entries *)

Lemma load_field_run q flds t :
  ∃ t', rewritten (λ x, x = q) t t' ∧
        ∀ s, load_field q flds (t, s)
             = Ret (match Py.getitem (attrib_of t q) "name" ≫= as_str with
                    | Ok n => Ok (<[n := PDict (field_definition (attrib_of t q))]> flds)
                    | Exc x => Exc x
                    end, (t', s)).
Proof.
  unfold load_field. mred. fold (attrib_of t q).
  destruct (attrib_of t q !! "name") as [[n| |]|] eqn:Hn; cbn.
  2-4: by (exists t; split; [constructor|]).
  destruct (attrib_of_name_is_Some _ _ _ Hn) as [e He].
  fold (attrib_of (upd_attrib (delete "name") q t) q).
  rewrite (attrib_of_upd_attrib _ _ _ _ He), <-(attrib_of_Some _ _ _ He).
  unfold field_definition.
  destruct (bool_decide ("desc" ∈ dom (delete "name" (attrib_of t q)))); cbn.
  - exists (upd_attrib (delete "name") q t). split; [by apply rewritten_upd; [|keeps_platform]|].
    intros s. fold (attrib_of (upd_attrib (delete "name") q t) q).
    by rewrite (attrib_of_upd_attrib _ _ _ _ He), <-(attrib_of_Some _ _ _ He).
  - exists (upd_attrib <["desc" := PStr ""]> q (upd_attrib (delete "name") q t)).
    split; [constructor; [done|keeps_platform|by apply rewritten_upd; [|keeps_platform]]|].
    intros s.
    fold (attrib_of (upd_attrib <["desc" := PStr ""]> q (upd_attrib (delete "name") q t)) q).
    rewrite attrib_of_upd_attrib_is_Some
      by (apply subelement_upd_attrib_is_Some; by rewrite He).
    by rewrite (attrib_of_upd_attrib _ _ _ _ He), <-(attrib_of_Some _ _ _ He).
Qed.

Lemma load_fields_run p qs flds t :
  NoDup qs →
  ∃ t', rewritten (λ x, ∃ q, q ∈ qs ∧ x = p ++ q) t t' ∧
        ∀ s, load_fields p qs flds (t, s)
             = Ret (fields_definition ((λ q, attrib_of t (p ++ q)) <$> qs) flds, (t', s)).
Proof.
  revert flds t. induction qs as [|q qs IH]; intros flds t Hnd; cbn.
  { exists t. split; [constructor|done]. }
  apply NoDup_cons in Hnd as [Hq Hnd].
  destruct (load_field_run (p ++ q) flds t) as (t1 & Hrw & Hrun).
  unfold bind_ at 1, M_bind, bind.
  destruct (Py.getitem (attrib_of t (p ++ q)) "name" ≫= as_str) as [n|x] eqn:Hn.
  2:{ exists t1. split.
      - eapply rewritten_mono; [|done]. intros ? ->. exists q.
        split; [apply list_elem_of_here|done].
      - intros s. by rewrite Hrun. }
  destruct (IH (<[n := PDict (field_definition (attrib_of t (p ++ q)))]> flds) t1 Hnd)
    as (t' & Hrw' & Hrun').
  exists t'. split.
  - eapply rewritten_trans.
    + eapply rewritten_mono; [|exact Hrw]. intros ? ->. exists q.
      split; [apply list_elem_of_here|done].
    + eapply rewritten_mono; [|exact Hrw']. intros ? (q' & Hq' & ->). exists q'.
      split; [by apply list_elem_of_further|done].
  - intros s. rewrite Hrun. cbn. rewrite Hrun'.
    unfold bind_ at 1, result_bind. do 3 f_equal. apply list_fmap_ext. intros i q' Hq'.
    apply (rewritten_attrib_of _ _ _ _ Hrw). intros Heq.
    apply app_inv_head in Heq as ->. apply Hq. by eapply list_elem_of_lookup_2.
Qed.

Lemma rewritten_is_Some P t t' q :
  rewritten P t t' → is_Some (subelement q t) → is_Some (subelement q t').
Proof. induction 1; [done|]. intros. by apply subelement_upd_attrib_is_Some, IHrewritten. Qed.

Lemma fields_definition_Ok fs flds r :
  fields_definition fs flds = Ok r → ∀ a, a ∈ fs → is_Some (a !! "name").
Proof.
  revert flds. induction fs as [|a fs IH]; intros flds H b Hb.
  { by apply elem_of_nil in Hb. }
  cbn in H. unfold Py.getitem in H.
  destruct (a !! "name") as [v|] eqn:Hv; [|done].
  apply elem_of_cons in Hb as [->|Hb]; [by rewrite Hv|].
  unfold bind_ at 1 2, result_bind in H. destruct (as_str v) as [n|]; [|done].
  by apply (IH _ H).
Qed.

Lemma complete_register_run p t e :
  subelement p t = Some e →
  el_attrib e !! "name" = None →
  let a := register_defaults (el_attrib e) in
  let e' := Elem (el_tag e) a (el_children e) in
  let r := match find "field" e with
           | Some _ =>
               reg_fields ← fields_definition (attrib_of e' <$> iter "field" e') ∅;
               Ok (<["FIELDS" := PDict reg_fields]> a)
           | None => Ok a
           end in
  ∃ t', rewritten (λ x, is_prefix p x = true) t t' ∧
        (∀ s, complete_register p (t, s)
              = Ret (match r with Ok _ => Ok tt | Exc x => Exc x end, (t', s))) ∧
        (∀ d, r = Ok d → attrib_of t' p = d).
Proof.
  intros He Hn a e' r.
  assert (A0 : attrib_of t p = el_attrib e) by by apply attrib_of_Some.
  set (t1 := if bool_decide ("size" ∈ dom (attrib_of t p)) then t
             else upd_attrib <["size" := PStr "0x4"]> p t).
  set (a1 := if bool_decide ("size" ∈ dom (el_attrib e)) then el_attrib e
             else <["size" := PStr "0x4"]> (el_attrib e)).
  assert (E1 : subelement p t1 = Some (Elem (el_tag e) a1 (el_children e))).
  { unfold t1, a1. rewrite A0. destruct (bool_decide ("size" ∈ dom (el_attrib e))).
    - rewrite He. by destruct e.
    - by rewrite subelement_upd_attrib, He. }
  assert (R1 : rewritten (λ x, is_prefix p x = true) t t1).
  { unfold t1. destruct (bool_decide ("size" ∈ dom (attrib_of t p))); [constructor|].
    apply rewritten_upd; [apply is_prefix_refl|keeps_platform]. }
  set (t2 := if bool_decide ("desc" ∈ dom (attrib_of t1 p)) then t1
             else upd_attrib <["desc" := PStr ""]> p t1).
  assert (E2 : subelement p t2 = Some e').
  { unfold t2. rewrite (attrib_of_Some _ _ _ E1). cbn [el_attrib].
    unfold e', a, register_defaults. fold a1.
    destruct (bool_decide ("desc" ∈ dom a1)); [done|].
    by rewrite subelement_upd_attrib, E1. }
  assert (R2 : rewritten (λ x, is_prefix p x = true) t t2).
  { unfold t2. destruct (bool_decide ("desc" ∈ dom (attrib_of t1 p))); [done|].
    constructor; [apply is_prefix_refl|keeps_platform|done]. }
  assert (Hpre : ∀ {A} (k : unit → M Doc A) s,
            bind (attrib_at p) (λ a,
              bind (if bool_decide ("size" ∈ dom a) then ret tt
                    else modify_attrib p <["size" := PStr "0x4"]>) (λ _,
              bind (attrib_at p) (λ a,
              bind (if bool_decide ("desc" ∈ dom a) then ret tt
                    else modify_attrib p <["desc" := PStr ""]>) k))) (t, s)
            = k tt (t2, s)).
  { intros A k s. unfold bind, attrib_at, gets. cbn. fold (attrib_of t p).
    unfold t2, t1.
    destruct (bool_decide ("size" ∈ dom (attrib_of t p))); cbn.
    - fold (attrib_of t p). by destruct (bool_decide ("desc" ∈ dom (attrib_of t p))).
    - fold (attrib_of (upd_attrib <["size":=PStr "0x4"]> p t) p).
      by destruct (bool_decide ("desc" ∈ dom (attrib_of (upd_attrib <["size":=PStr "0x4"]> p t) p))). }
  assert (Hcont : ∀ s, complete_register p (t, s)
            = match find "field" e with
              | Some _ =>
                  bind (load_fields p (iter "field" e') ∅)
                    (λ reg_fields, modify_attrib p <["FIELDS" := PDict reg_fields]>)
                    (t2, s)
              | None => Ret (Ok tt, (t2, s))
              end).
  { intros s. unfold complete_register, bind_, M_bind. rewrite Hpre.
    unfold bind at 1, element_at, gets. cbn [prog_bind fst snd]. rewrite E2.
    cbn [default from_option id]. change (find "field" e') with (find "field" e).
    by destruct (find "field" e). }
  assert (N2 : a !! "name" = None).
  { unfold a, register_defaults.
    repeat (destruct (bool_decide _); rewrite ?lookup_insert_ne by done); done. }
  subst r. destruct (find "field" e) as [fe|] eqn:Hfind.
  2:{ exists t2. split; [done|]. split; [done|].
      intros d [= <-]. by rewrite (attrib_of_Some _ _ _ E2). }
  destruct (load_fields_run p (iter "field" e') ∅ t2 (NoDup_iter _ _))
    as (t3 & R3 & Hrun).
  assert (Hfs : (λ q, attrib_of t2 (p ++ q)) <$> iter "field" e'
                = attrib_of e' <$> iter "field" e').
  { apply list_fmap_ext. intros i q _. rewrite attrib_of_app. unfold elt.
    by rewrite E2. }
  rewrite Hfs in Hrun.
  assert (R3' : rewritten (λ x, is_prefix p x = true) t t3).
  { eapply rewritten_trans; [done|]. eapply rewritten_mono; [|exact R3].
    intros x (q & _ & ->). apply is_prefix_app. }
  destruct (fields_definition (attrib_of e' <$> iter "field" e') ∅) as [flds|x] eqn:Hf.
  - exists (upd_attrib <["FIELDS" := PDict flds]> p t3). split; [|split].
    + constructor; [apply is_prefix_refl|keeps_platform|done].
    + intros s. rewrite Hcont. unfold bind. by rewrite Hrun.
    + intros d [= <-].
      rewrite attrib_of_upd_attrib_is_Some
        by (apply (rewritten_is_Some _ _ _ _ R3); by rewrite E2).
      rewrite (rewritten_attrib_of _ _ _ _ R3), (attrib_of_Some _ _ _ E2); [done|].
      intros (q & Hq & Heq).
      rewrite <-(app_nil_r p) in Heq at 1. apply app_inv_head in Heq as <-.
      destruct (fields_definition_Ok _ _ _ Hf a) as [v Hv]; [|congruence].
      apply list_elem_of_fmap. exists []. done.
  - exists t3. split; [done|]. split; [|done].
    intros s. rewrite Hcont. unfold bind. by rewrite Hrun.
Qed.

Lemma load_entry_run c p t :
  ∃ t', rewritten (λ x, is_prefix p x = true) t t' ∧
        ∀ s, load_entry c p (t, s)
             = Ret (match entry_outcome c (elt p t) with
                    | Ok op =>
                        (Ok tt, (t', self.upd_Cfg (cat_upd c (apply_outcome op)) s))
                    | Exc x => (Exc x, (t', s))
                    end).
Proof.
  unfold entry_outcome. rewrite <-attrib_of_elt. unfold Py.getitem.
  destruct (attrib_of t p !! "name") as [[n| |]|] eqn:Hn.
  2-4: by (exists t; split; [constructor|]; intros s; unfold load_entry; mred;
           fold (attrib_of t p); rewrite Hn).
  destruct (attrib_of_name_is_Some _ _ _ Hn) as [e He].
  rewrite (attrib_of_Some _ _ _ He) in Hn |- *.
  pose proof (load_entry_start c p t e n He Hn) as Hstart.
  unfold elt. rewrite He. cbn [default from_option id].
  unfold bind_ at 1 2, result_bind. cbn [as_str].
  set (t0 := upd_attrib (delete "name") p t) in *.
  assert (R0 : rewritten (λ x, is_prefix p x = true) t t0).
  { apply rewritten_upd; [apply is_prefix_refl|keeps_platform]. }
  destruct (bool_decide ("undef" ∈ dom (el_attrib e))).
  { exists t0. split; [done|]. intros s. by rewrite Hstart. }
  set (e0 := Elem (el_tag e) (delete "name" (el_attrib e)) (el_children e)).
  assert (E0 : subelement p t0 = Some e0).
  { unfold t0. by rewrite subelement_upd_attrib, He. }
  assert (Hplain : c ≠ cat_REGISTERS →
            entry_definition c e = Ok (delete "name" (el_attrib e)) ∧
            ∀ s, load_entry c p (t, s)
                 = Ret (Ok tt, (t0, self.upd_Cfg
                                      (cat_upd c <[n := delete "name" (el_attrib e)]>) s))).
  { intros Hc. split; [by destruct c|]. intros s. rewrite Hstart.
    destruct c; try done; cbn; fold (attrib_of t0 p);
      by rewrite (attrib_of_Some _ _ _ E0). }
  destruct (decide (c = cat_REGISTERS)) as [->|Hc].
  2:{ destruct (Hplain Hc) as [-> Hrun]. exists t0. split; [done|].
      intros s. by rewrite Hrun. }
  clear Hplain.
  destruct (complete_register_run p t0 e0 E0) as (t' & R' & Hrun & Hattr).
  { apply lookup_delete_eq. }
  cbn [el_attrib el_tag el_children e0] in Hrun, Hattr.
  change (find "field" e0) with (find "field" e) in Hrun, Hattr.
  unfold entry_definition.
  exists t'. split; [by eapply rewritten_trans|].
  intros s. rewrite Hstart. unfold bind at 1. rewrite Hrun.
  match goal with
  | |- context [match ?r with Ok _ => Ok tt | Exc x => Exc x end] =>
      destruct r as [d|x] eqn:Hr
  end; cbn [prog_bind fst snd]; [|done].
  unfold bind, attrib_at, gets. cbn [prog_bind fst snd].
  fold (attrib_of t' p). by rewrite (Hattr d eq_refl).
Qed.

(** ** Sequences of entries *)

Lemma upd_Cfg_id s : self.upd_Cfg (λ cfg, cfg) s = s.
Proof. by destruct s. Qed.

Lemma upd_Cfg_upd_Cfg f g s :
  self.upd_Cfg g (self.upd_Cfg f s) = self.upd_Cfg (λ cfg, g (f cfg)) s.
Proof. by destruct s. Qed.

Lemma Cfg_upd_Cfg f s : self.Cfg (self.upd_Cfg f s) = f (self.Cfg s).
Proof. by destruct s. Qed.

Lemma cat_get_cat_upd_Cfg c c' f cfg :
  cat_get c (cat_upd c' f cfg)
  = if bool_decide (c' = c) then f (cat_get c cfg) else cat_get c cfg.
Proof. by destruct c, c', cfg. Qed.

Lemma BUS_cat_upd c f cfg : BUS (cat_upd c f cfg) = BUS cfg.
Proof. by destruct c, cfg. Qed.

Lemma XML_CONFIG_LOADED_cat_upd c f cfg :
  XML_CONFIG_LOADED (cat_upd c f cfg) = XML_CONFIG_LOADED cfg.
Proof. by destruct c, cfg. Qed.

Lemma store_all_cons op ops cfg :
  store_all (op :: ops) cfg = store_all ops (cat_upd op.1 (apply_outcome op.2) cfg).
Proof. reflexivity. Qed.

Lemma store_all_frame ops cfg :
  BUS (store_all ops cfg) = BUS cfg ∧
  XML_CONFIG_LOADED (store_all ops cfg) = XML_CONFIG_LOADED cfg.
Proof.
  revert cfg. induction ops as [|op ops IH]; intros cfg; [done|].
  rewrite store_all_cons. destruct (IH (cat_upd op.1 (apply_outcome op.2) cfg)) as [-> ->].
  by rewrite BUS_cat_upd, XML_CONFIG_LOADED_cat_upd.
Qed.

Lemma store_all_app ops1 ops2 cfg :
  store_all (ops1 ++ ops2) cfg = store_all ops2 (store_all ops1 cfg).
Proof. apply fold_left_app. Qed.

(** The last entry of a name decides. *)
Lemma store_all_lookup ops cfg c n :
  cat_get c (store_all ops cfg) !! n
  = match last_outcome c n ops with
    | Some d => d
    | None => cat_get c cfg !! n
    end.
Proof.
  revert cfg. induction ops as [|[c' [n' d]] ops IH]; intros cfg; [done|].
  rewrite store_all_cons. cbn [last_outcome fst snd]. rewrite IH. destruct (last_outcome c n ops) as [r|]; [done|].
  rewrite cat_get_cat_upd_Cfg. unfold apply_outcome. cbn [fst snd].
  destruct (decide (c' = c)) as [->|Hc].
  - rewrite bool_decide_eq_true_2 by done.
    destruct (decide (n' = n)) as [->|Hn].
    + rewrite bool_decide_eq_true_2 by done.
      destruct d; [apply lookup_insert_eq|apply lookup_delete_eq].
    + rewrite bool_decide_eq_false_2 by (by intros [_ ?]).
      destruct d; [by apply lookup_insert_ne|by apply lookup_delete_ne].
  - rewrite bool_decide_eq_false_2 by done.
    by rewrite bool_decide_eq_false_2 by (by intros [? _]).
Qed.

Lemma all_apart_cons p ps :
  all_apart (p :: ps) = true →
  (∀ q, q ∈ ps → apart p q = true) ∧ all_apart ps = true.
Proof.
  cbn. rewrite andb_true_iff, forallb_forall. intros [H1 H2]. split; [|done].
  intros q Hq. apply H1. by apply list_elem_of_In.
Qed.

Lemma load_entries_run vs t :
  all_apart vs.*2 = true →
  ∃ t', rewritten (λ x, ∃ v, v ∈ vs ∧ is_prefix v.2 x = true) t t' ∧
        ∀ s, for_each vs (λ v, load_entry v.1 v.2) (t, s)
             = Ret (raised ((λ v, (v.1, elt v.2 t)) <$> vs),
                    (t', self.upd_Cfg
                           (store_all (loaded ((λ v, (v.1, elt v.2 t)) <$> vs))) s)).
Proof.
  revert t. induction vs as [|[c p] vs IH]; intros t Hap.
  { exists t. split; [constructor|]. intros s. cbn. by rewrite upd_Cfg_id. }
  cbn [fmap list_fmap fst snd] in Hap. apply all_apart_cons in Hap as [Hp Hap].
  destruct (load_entry_run c p t) as (t1 & R1 & Hrun1).
  cbn [for_each fmap list_fmap raised loaded fst snd].
  destruct (entry_outcome c (elt p t)) as [op|x] eqn:Hop.
  2:{ exists t1. split.
      - eapply rewritten_mono; [|exact R1]. intros x' Hx'. exists (c, p).
        split; [apply list_elem_of_here|done].
      - intros s. unfold bind. rewrite Hrun1. cbn. by rewrite upd_Cfg_id. }
  destruct (IH t1 Hap) as (t' & R' & Hrun').
  assert (Hes : (λ v, (v.1, elt v.2 t1)) <$> vs = (λ v, (v.1, elt v.2 t)) <$> vs).
  { apply list_fmap_ext. intros i [c' p'] Hv. cbn. f_equal.
    apply (rewritten_elt _ _ _ _ R1). intros x Hx.
    apply (apart_below p p' x); [|done]. apply Hp.
    apply list_elem_of_fmap. exists (c', p'). split; [done|].
    by eapply list_elem_of_lookup_2. }
  rewrite Hes in Hrun'.
  exists t'. split.
  - eapply rewritten_trans.
    + eapply rewritten_mono; [|exact R1]. intros x' Hx'. exists (c, p).
      split; [apply list_elem_of_here|done].
    + eapply rewritten_mono; [|exact R']. intros x' (v & Hv & Hx'). exists v.
      split; [by apply list_elem_of_further|done].
  - intros s. unfold bind. rewrite Hrun1. cbn [prog_bind fst snd].
    rewrite Hrun'. by rewrite upd_Cfg_upd_Cfg.
Qed.

(** ** Documents as sequences of entries *)

Lemma prog_bind_assoc {A B C} (t : prog A) (f : A → prog B) (g : B → prog C) :
  prog_bind (prog_bind t f) g = prog_bind t (λ a, prog_bind (f a) g).
Proof.
  induction t as [a|c k IH]; cbn; [done|]. f_equal.
  apply functional_extensionality. intros r. apply IH.
Qed.

Lemma bind_assoc {S A B C} (m : M S A) (f : A → M S B) (g : B → M S C) s :
  bind (bind m f) g s = bind m (λ a, bind (f a) g) s.
Proof.
  unfold bind. rewrite prog_bind_assoc. f_equal.
  apply functional_extensionality. intros [[a|x] s']; cbn; done.
Qed.

Lemma for_each_app {S X} (l1 l2 : list X) (body : X → M S unit) s :
  for_each (l1 ++ l2) body s = bind (for_each l1 body) (λ _, for_each l2 body) s.
Proof.
  revert s. induction l1 as [|x l1 IH]; intros s; cbn [app for_each]; [done|].
  rewrite bind_assoc. unfold bind in *. f_equal.
  apply functional_extensionality. intros [[a|x'] s']; cbn; [apply IH|done].
Qed.

Lemma for_each_fmap {S X Y} (f : X → Y) (l : list X) (body : Y → M S unit) :
  for_each (f <$> l) body = for_each l (λ x, body (f x)).
Proof. induction l as [|x l IH]; cbn; [done|]. by rewrite IH. Qed.

Lemma for_each_entries_ret vs t s :
  ∃ r t' s', for_each vs (λ v, load_entry v.1 v.2) (t, s) = Ret (r, (t', s')) ∧
             rewritten (λ _, True) t t'.
Proof.
  revert t s. induction vs as [|[c p] vs IH]; intros t s.
  { exists (Ok tt), t, s. split; [done|constructor]. }
  destruct (load_entry_run c p t) as (t1 & R1 & Hrun).
  apply (rewritten_mono _ (λ _, True)) in R1; [|done].
  cbn [for_each fst snd]. unfold bind. rewrite Hrun.
  destruct (entry_outcome c (elt p t)) as [op|x]; cbn [prog_bind fst snd].
  - destruct (IH t1 (self.upd_Cfg (cat_upd c (apply_outcome op)) s))
      as (r & t' & s' & -> & R').
    exists r, t', s'. split; [done|]. by eapply rewritten_trans.
  - by exists (Exc x), t1, s.
Qed.

Lemma visits_nil t : visits t (ret tt) [].
Proof. by intros t1 s1 _. Qed.

Lemma visits_seq t m1 m2 l1 l2 :
  visits t m1 l1 → visits t m2 l2 → visits t (bind m1 (λ _, m2)) (l1 ++ l2).
Proof.
  intros H1 H2 t1 s1 R. rewrite for_each_app. unfold bind. rewrite (H1 t1 s1 R).
  destruct (for_each_entries_ret l1 t1 s1) as (r & t2 & s2 & -> & R2).
  cbn [prog_bind fst snd]. destruct r; [|done].
  apply H2. by eapply rewritten_trans.
Qed.

Lemma visits_for_each {X} t (xs : list X) (body : X → M Doc unit)
    (ents : X → list (category * path)) :
  (∀ x, x ∈ xs → visits t (body x) (ents x)) →
  visits t (for_each xs body) (mjoin (ents <$> xs)).
Proof.
  induction xs as [|x xs IH]; intros H; [apply visits_nil|].
  cbn [for_each fmap list_fmap mjoin list_join].
  apply visits_seq; [apply H, list_elem_of_here|].
  apply IH. intros y Hy. by apply H, list_elem_of_further.
Qed.

Lemma visits_load_group c group entry pc t :
  visits t (load_group c group entry pc) (group_entries c group entry pc t).
Proof.
  intros t1 s1 R. unfold load_group, group_entries.
  unfold bind_ at 1, M_bind, bind at 1, element_at at 1, gets.
  cbn [prog_bind fst snd]. fold (elt pc t1). rewrite (rewritten_iter _ _ _ _ _ R).
  revert t1 s1 R. apply visits_for_each. intros pg _ t1 s1 R.
  unfold bind_ at 1, M_bind, bind at 1, element_at at 1, gets.
  cbn [prog_bind fst snd]. fold (elt (pc ++ pg) t1).
  rewrite (rewritten_iter _ _ _ _ _ R). by rewrite for_each_fmap.
Qed.

Lemma visits_load_section code pch_code pc t :
  visits t (load_section code pch_code pc)
    (match section_applies code pch_code (attrib_of t pc) with
     | Ok true => section_entries pc t
     | _ => []
     end) ∨
  ∃ x, section_applies code pch_code (attrib_of t pc) = Exc x.
Proof.
  destruct (section_applies code pch_code (attrib_of t pc)) as [b|x] eqn:Hs;
    [left|right; eauto].
  assert (Hcur : ∀ t1, rewritten (λ _, True) t t1 →
            section_applies code pch_code (attrib_of t1 pc) = Ok b).
  { intros t1 R. rewrite <-Hs. unfold section_applies.
    by rewrite (rewritten_platform _ _ _ _ R). }
  assert (Hstart : ∀ t1 s1, rewritten (λ _, True) t t1 →
            load_section code pch_code pc (t1, s1)
            = (if b then
                 bind (load_group cat_CONFIG_PCI "pci" "device" pc) (λ _,
                 bind (load_group cat_MMIO_BARS "mmio" "bar" pc) (λ _,
                 bind (load_group cat_IO_BARS "io" "bar" pc) (λ _,
                 bind (load_group cat_MEMORY_RANGES "memory" "range" pc) (λ _,
                 bind (load_group cat_REGISTERS "registers" "register" pc) (λ _,
                 load_group cat_CONTROLS "controls" "control" pc)))))
               else ret tt) (t1, s1)).
  { intros t1 s1 R. unfold load_section.
    unfold bind_ at 1 2, M_bind, bind at 1 2, attrib_at, gets, lift.
    cbn [prog_bind fst snd]. fold (attrib_of t1 pc). rewrite (Hcur t1 R).
    cbn [prog_bind fst snd]. by destruct b. }
  intros t1 s1 R. rewrite (Hstart t1 s1 R). revert t1 s1 R.
  change (visits t (if b then
                 bind (load_group cat_CONFIG_PCI "pci" "device" pc) (λ _,
                 bind (load_group cat_MMIO_BARS "mmio" "bar" pc) (λ _,
                 bind (load_group cat_IO_BARS "io" "bar" pc) (λ _,
                 bind (load_group cat_MEMORY_RANGES "memory" "range" pc) (λ _,
                 bind (load_group cat_REGISTERS "registers" "register" pc) (λ _,
                 load_group cat_CONTROLS "controls" "control" pc)))))
               else ret tt) (if b then section_entries pc t else [])).
  destruct b; [|apply visits_nil].
  unfold section_entries.
  repeat (apply visits_seq; [apply visits_load_group|]).
  apply visits_load_group.
Qed.

Lemma visits_document code pch_code root :
  forallb (λ pc, match section_applies code pch_code (attrib_of root pc) with
                 | Ok _ => true
                 | Exc _ => false
                 end) (iter "configuration" root) = true →
  visits root (for_each (iter "configuration" root) (load_section code pch_code))
    (document_entries code pch_code root).
Proof.
  intros Hok. apply visits_for_each. intros pc Hpc.
  destruct (visits_load_section code pch_code pc root) as [H|[x Hx]]; [done|].
  rewrite forallb_forall in Hok. specialize (Hok pc).
  rewrite Hx in Hok. discriminate Hok. by apply list_elem_of_In.
Qed.

(** Loading a plain document. *)
Lemma load_document_run code pch_code root s :
  plain_document code pch_code root = true →
  with_tree root (for_each (iter "configuration" root) (load_section code pch_code)) s
  = Ret (raised (documents_entries code pch_code [root]),
         self.upd_Cfg (store_all (loaded (documents_entries code pch_code [root]))) s).
Proof.
  unfold plain_document. rewrite andb_true_iff. intros [Hok Hap].
  unfold with_tree. rewrite (visits_document code pch_code root Hok root s)
    by constructor.
  destruct (load_entries_run _ root Hap) as (t' & _ & Hrun). rewrite Hrun.
  unfold documents_entries. cbn [fmap list_fmap mjoin list_join].
  by rewrite app_nil_r.
Qed.

Lemma init_cfg_xml_absent {W} (h : world W) f code pch_code s w :
  (h (os_path_exists f) w).1 = Returned false →
  (run h (init_cfg_xml f code pch_code s) w).1 = (Ok tt, s).
Proof.
  intros Hexists.
  unfold init_cfg_xml, bind_, M_bind, bind, call. cbn [prog_bind run].
  destruct (h (os_path_exists f) w) as [r1 w1]. cbn [fst snd] in *. by subst r1.
Qed.

Lemma init_cfg_xml_present {W} (h : world W) f code pch_code s w root :
  (h (os_path_exists f) w).1 = Returned true →
  (h (ET_parse f) (h (os_path_exists f) w).2).1 = Returned root →
  plain_document code pch_code root = true →
  (run h (init_cfg_xml f code pch_code s) w).1
  = (raised (documents_entries code pch_code [root]),
     self.upd_Cfg (store_all (loaded (documents_entries code pch_code [root]))) s).
Proof.
  intros Hexists Hparse Hplain.
  unfold init_cfg_xml, bind_, M_bind, bind, call. cbn [prog_bind run].
  destruct (h (os_path_exists f) w) as [r1 w1]. cbn [fst snd] in *. subst r1.
  cbn [prog_bind run fst snd].
  destruct (h (ET_parse f) w1) as [r2 w2]. cbn [fst snd] in *. subst r2.
  cbn [prog_bind run fst snd]. by rewrite (load_document_run _ _ _ _ Hplain).
Qed.

(** C4. Entries of a document loaded one after the other, each into its
    category, where no entry lies inside another one; and [init_cfg_xml]
    on a file that exists and holds a plain document, whose entries are
    those that its sections and their six loops visit.  Loading stops at
    the first entry that raises, which an entry without a name does, and a
    register with a field without a name; it raises what that entry raises,
    and the entries before it are loaded.  An entry with the key [undef]
    removes its name from its category, whether or not the name is there;
    any other entry binds its name to its complete definition: its
    attributes without the name, and for a register also the size [0x4]
    and an empty description unless it has them, and the [FIELDS] of its
    fields, each with an empty description unless it has one.  So after
    the sequence every category maps a name to what the last loaded entry
    of that name in that category gives it: nothing when that entry
    carries [undef], its complete definition otherwise, and what the
    category held before when there is no such entry.  Nothing but the six
    categories changes. *)
Theorem loads_keep_last_definition :
  (∀ (vs : list (category * path)) (t : Element) (s : Chipset),
     all_apart vs.*2 = true →
     let es := (λ v, (v.1, elt v.2 t)) <$> vs in
     ∃ t' s',
       for_each vs (λ v, load_entry v.1 v.2) (t, s) = Ret (raised es, (t', s')) ∧
       s' = self.upd_Cfg (λ _, self.Cfg s') s ∧
       BUS (self.Cfg s') = BUS (self.Cfg s) ∧
       XML_CONFIG_LOADED (self.Cfg s') = XML_CONFIG_LOADED (self.Cfg s) ∧
       ∀ c n,
         cat_get c (self.Cfg s') !! n
         = match last_outcome c n (loaded es) with
           | Some d => d
           | None => cat_get c (self.Cfg s) !! n
           end) ∧
  (∀ (W : Type) (h : world W) (w : W) (fxml code pch_code : string)
     (root : Element) (s : Chipset),
     (h (os_path_exists fxml) w).1 = Returned true →
     (h (ET_parse fxml) (h (os_path_exists fxml) w).2).1 = Returned root →
     plain_document code pch_code root = true →
     let es := (λ v, (v.1, elt v.2 root)) <$> document_entries code pch_code root in
     let rs := (run h (init_cfg_xml fxml code pch_code s) w).1 in
     rs.1 = raised es ∧
     rs.2 = self.upd_Cfg (λ _, self.Cfg rs.2) s ∧
     BUS (self.Cfg rs.2) = BUS (self.Cfg s) ∧
     XML_CONFIG_LOADED (self.Cfg rs.2) = XML_CONFIG_LOADED (self.Cfg s) ∧
     ∀ c n,
       cat_get c (self.Cfg rs.2) !! n
       = match last_outcome c n (loaded es) with
         | Some d => d
         | None => cat_get c (self.Cfg s) !! n
         end).
Proof.
  split.
  - intros vs t s Hap es.
    destruct (load_entries_run vs t Hap) as (t' & _ & Hrun).
    exists t', (self.upd_Cfg (store_all (loaded es)) s).
    split; [apply Hrun|]. rewrite Cfg_upd_Cfg.
    destruct (store_all_frame (loaded es) (self.Cfg s)) as [Hbus Hxml].
    split; [by destruct s|]. split; [done|]. split; [done|].
    intros c n. apply store_all_lookup.
  - intros W h w fxml code pch_code root s Hexists Hparse Hplain es rs.
    assert (Hes : documents_entries code pch_code [root] = es).
    { unfold documents_entries. cbn [fmap list_fmap mjoin list_join].
      by rewrite app_nil_r. }
    assert (Hrs : rs = (raised es, self.upd_Cfg (store_all (loaded es)) s)).
    { subst rs. rewrite <-Hes. by apply init_cfg_xml_present. }
    rewrite Hrs. cbn [fst snd]. rewrite Cfg_upd_Cfg.
    destruct (store_all_frame (loaded es) (self.Cfg s)) as [Hbus Hxml].
    split; [done|]. split; [by destruct s|]. split; [done|]. split; [done|].
    intros c n. apply store_all_lookup.
Qed.

Lemma loads_keep_last_definition_witness :
  (∃ t' s',
     for_each [(cat_CONFIG_PCI, [0; 0]%nat); (cat_CONFIG_PCI, [0; 1]%nat);
               (cat_CONFIG_PCI, [0; 2]%nat); (cat_REGISTERS, [1; 0]%nat)]
       (λ v, load_entry v.1 v.2) (override_xml, demo_cs)
     = Ret (Ok tt, (t', s')) ∧
     CONFIG_PCI (self.Cfg s') !! "LPC"
     = Some (attrs [("bus", "1"); ("dev", "0x1F"); ("fun", "0")]) ∧
     CONFIG_PCI (self.Cfg s') !! "HOSTCTRL" = None ∧
     REGISTERS (self.Cfg s') !! "FEATCTL"
     = Some (<["FIELDS" := PDict {["LOCK" := PDict (attrs [("bit", "0"); ("size", "1");
                                                           ("desc", "")])]}]>
               (attrs [("type", "msr"); ("msr", "0x3A"); ("size", "0x4");
                       ("desc", "")])) ∧
     REGISTERS (self.Cfg s') !! "QW" = REGISTERS (self.Cfg demo_cs) !! "QW") ∧
  let rs := (run override_world
               (init_cfg_xml "/chipsec/cfg/override.xml" "" "" demo_cs) tt).1 in
  rs.1 = Ok tt ∧
  cat_get cat_CONFIG_PCI (self.Cfg rs.2) !! "LPC"
  = Some (attrs [("bus", "1"); ("dev", "0x1F"); ("fun", "0")]) ∧
  cat_get cat_CONFIG_PCI (self.Cfg rs.2) !! "HOSTCTRL" = None ∧
  cat_get cat_REGISTERS (self.Cfg rs.2) !! "QW"
  = cat_get cat_REGISTERS (self.Cfg demo_cs) !! "QW".
Proof.
  split.
  - destruct (proj1 loads_keep_last_definition
                [(cat_CONFIG_PCI, [0; 0]%nat); (cat_CONFIG_PCI, [0; 1]%nat);
                 (cat_CONFIG_PCI, [0; 2]%nat); (cat_REGISTERS, [1; 0]%nat)]
                override_xml demo_cs eq_refl)
      as (t' & s' & Hrun & _ & _ & _ & Hlast).
    exists t', s'. split; [exact Hrun|].
    split; [exact (Hlast cat_CONFIG_PCI "LPC")|].
    split; [exact (Hlast cat_CONFIG_PCI "HOSTCTRL")|].
    split; [exact (Hlast cat_REGISTERS "FEATCTL")|].
    exact (Hlast cat_REGISTERS "QW").
  - cbv zeta.
    destruct (proj2 loads_keep_last_definition unit override_world tt
                "/chipsec/cfg/override.xml" "" "" override_xml demo_cs
                eq_refl eq_refl eq_refl)
      as (Hr & _ & _ & _ & Hlast).
    split; [exact Hr|].
    split; [exact (Hlast cat_CONFIG_PCI "LPC")|].
    split; [exact (Hlast cat_CONFIG_PCI "HOSTCTRL")|].
    exact (Hlast cat_REGISTERS "QW").
Defined.

Lemma raised_app es1 es2 :
  raised (es1 ++ es2) = match raised es1 with Ok _ => raised es2 | Exc x => Exc x end.
Proof.
  induction es1 as [|[c e] es1 IH]; cbn; [done|].
  by destruct (entry_outcome c e).
Qed.

Lemma loaded_app es1 es2 :
  loaded (es1 ++ es2)
  = loaded es1 ++ match raised es1 with Ok _ => loaded es2 | Exc _ => [] end.
Proof.
  induction es1 as [|[c e] es1 IH]; cbn; [done|].
  destruct (entry_outcome c e); [|done]. by rewrite IH.
Qed.

Lemma documents_entries_cons code pch_code root docs :
  documents_entries code pch_code (root :: docs)
  = documents_entries code pch_code [root] ++ documents_entries code pch_code docs.
Proof.
  unfold documents_entries. cbn [fmap list_fmap mjoin list_join].
  by rewrite app_nil_r.
Qed.

Lemma init_cfg_xml_run {W} (h : world W) walk fs f code pch_code s w :
  serves h walk fs →
  (∀ root, fs f = Some root → plain_document code pch_code root = true) →
  (run h (init_cfg_xml f code pch_code s) w).1
  = (raised (documents_entries code pch_code (omap fs [f])),
     self.upd_Cfg (store_all (loaded (documents_entries code pch_code (omap fs [f])))) s).
Proof.
  intros (_ & Hexists & Hparse) Hplain.
  specialize (Hexists w f). cbn [omap list_omap].
  destruct (fs f) as [root|] eqn:Hf.
  - by apply init_cfg_xml_present; [|apply Hparse|apply Hplain].
  - rewrite init_cfg_xml_absent by done. by rewrite upd_Cfg_id.
Qed.

Lemma upd_Cfg_ext f g s :
  (∀ cfg, f cfg = g cfg) → self.upd_Cfg f s = self.upd_Cfg g s.
Proof. intros H. destruct s. unfold self.upd_Cfg. cbn. f_equal. apply H. Qed.

Lemma code_upd_Cfg f s :
  self.code (self.upd_Cfg f s) = self.code s ∧
  self.pch_code (self.upd_Cfg f s) = self.pch_code s.
Proof. by destruct s. Qed.

Lemma load_files_run {W} (h : world W) walk fs (fl : list string) code pch_code s w :
  serves h walk fs →
  (∀ f root, fs f = Some root → plain_document code pch_code root = true) →
  self.code s = code → self.pch_code s = pch_code →
  (run h (for_each fl (λ _xml, s ← get;
                         init_cfg_xml _xml (self.code s) (self.pch_code s)) s) w).1
  = (raised (documents_entries code pch_code (omap fs fl)),
     self.upd_Cfg (store_all (loaded (documents_entries code pch_code (omap fs fl)))) s).
Proof.
  intros Hserves Hplain. revert s w.
  induction fl as [|f fl IH]; intros s w Hcode Hpch.
  { cbn. by rewrite upd_Cfg_id. }
  cbn [for_each]. unfold bind at 1. rewrite run_prog_bind.
  assert (Hbody : (s0 ← get; init_cfg_xml f (self.code s0) (self.pch_code s0)) s
                  = init_cfg_xml f code pch_code s).
  { unfold bind_ at 1, M_bind, bind, get. cbn [prog_bind fst snd]. by rewrite Hcode, Hpch. }
  rewrite Hbody.
  pose proof (init_cfg_xml_run h walk fs f code pch_code s w Hserves
                (λ root, Hplain f root)) as Hrun.
  destruct (run h (init_cfg_xml f code pch_code s) w) as [rs1 w1].
  cbn [fst snd] in *. subst rs1. cbn [fst snd].
  assert (Hsplit : documents_entries code pch_code (omap fs (f :: fl))
                   = documents_entries code pch_code (omap fs [f])
                     ++ documents_entries code pch_code (omap fs fl)).
  { cbn [omap list_omap]. destruct (fs f); [apply documents_entries_cons|done]. }
  rewrite Hsplit, raised_app, loaded_app.
  destruct (raised (documents_entries code pch_code (omap fs [f]))) as [[]|x].
  - rewrite IH.
    + rewrite upd_Cfg_upd_Cfg. f_equal. apply upd_Cfg_ext. intros cfg.
      by rewrite store_all_app.
    + by rewrite (proj1 (code_upd_Cfg _ _)).
    + by rewrite (proj2 (code_upd_Cfg _ _)).
  - cbn [run fst snd]. by rewrite app_nil_r.
Qed.

Lemma init_cfg_bus_run {W} (h : world W) s w :
  ∃ r s' w', run h (init_cfg_bus s) w = ((r, s'), w') ∧
             s' = self.upd_Cfg (upd_BUS (λ _, BUS (self.Cfg s'))) s.
Proof.
  unfold init_cfg_bus, bind_, M_bind, bind, try_except, call, get, ret.
  cbn [prog_bind run].
  destruct (h pci_enumerate_devices w) as [[l|e] w']; cbn [prog_bind run fst snd].
  - destruct (init_cfg_bus_loop l (dict_keys (CONFIG_PCI (self.Cfg s))) s)
      as (r & s' & -> & Hb & _).
    by exists r, s', w'.
  - destruct (init_cfg_bus_loop [] (dict_keys (CONFIG_PCI (self.Cfg s))) s)
      as (r & s' & -> & Hb & _).
    by exists r, s', w'.
Qed.

Lemma cat_get_upd_BUS c f s :
  cat_get c (self.Cfg (self.upd_Cfg (upd_BUS f) s)) = cat_get c (self.Cfg s).
Proof. by destruct c, s as [? ? ? ? ? ? ? ? ? ? ? ? []]. Qed.

Lemma cat_get_upd_XML_CONFIG_LOADED c f s :
  cat_get c (self.Cfg (self.upd_Cfg (upd_XML_CONFIG_LOADED f) s))
  = cat_get c (self.Cfg s).
Proof. by destruct c, s as [? ? ? ? ? ? ? ? ? ? ? ? []]. Qed.

Lemma run_bind {S A B W} (h : world W) (m : M S A) (f : A → M S B) s w :
  run h ((m ≫= f) s) w
  = match (run h (m s) w).1.1 with
    | Ok a => run h (f a (run h (m s) w).1.2) (run h (m s) w).2
    | Exc e => ((Exc e, (run h (m s) w).1.2), (run h (m s) w).2)
    end.
Proof.
  unfold bind_, M_bind, bind. rewrite run_prog_bind.
  by destruct (run h (m s) w) as [[[a|e] s1] w1].
Qed.

Lemma run_call {S W} (h : world W) (c : hal_op) (s : S) w :
  run h (call c s) w
  = (match (h c w).1 with
     | Returned x => (Ok x, s)
     | Raised e => (Exc (External e), s)
     end, (h c w).2).
Proof. unfold call. cbn [run]. by destruct (h c w) as [[x|e] w']. Qed.

(** What [init_xml_configuration] leaves in the six categories. *)
Lemma init_xml_configuration_run {W} (h : world W) walk fs s w :
  serves h walk fs →
  (∀ f root, fs f = Some root →
             plain_document (self.code s) (self.pch_code s) root = true) →
  let es := documents_entries (self.code s) (self.pch_code s)
              (omap fs (loaded_files (self.code s) (self.pch_code s)
                          (cfg_files_of walk))) in
  let rs := (run h (init_xml_configuration s) w).1 in
  (∀ x, raised es = Exc x → rs.1 = Exc x) ∧
  ∀ c n, cat_get c (self.Cfg rs.2) !! n
         = match last_outcome c n (loaded es) with
           | Some d => d
           | None => cat_get c (self.Cfg s) !! n
           end.
Proof.
  intros Hserves Hplain es rs.
  assert (Hrs : ∃ r s', rs = (r, s') ∧
            (∀ x, raised es = Exc x → r = Exc x) ∧
            ∀ c, cat_get c (self.Cfg s')
                 = cat_get c (self.Cfg (self.upd_Cfg (store_all (loaded es)) s))).
  2:{ destruct Hrs as (r & s' & -> & Hraise & Hcat). split; [done|].
      intros c n. cbn [snd]. rewrite Hcat, Cfg_upd_Cfg. apply store_all_lookup. }
  subst rs es. unfold init_xml_configuration.
  rewrite run_bind, run_call, (proj1 Hserves w). cbn [fst snd].
  generalize ((h os_walk_cfg w).2). intros w0.
  rewrite run_bind. cbn [get run fst snd].
  pose proof (load_files_run h walk fs
                (loaded_files (self.code s) (self.pch_code s) (cfg_files_of walk))
                _ _ s w0 Hserves Hplain eq_refl eq_refl) as Hfiles.
  revert Hfiles.
  generalize (loaded_files (self.code s) (self.pch_code s) (cfg_files_of walk)).
  intros fl Hfiles. rewrite run_bind.
  destruct (run h (for_each fl _ s) w0) as [rs1 w1].
  cbn [fst snd] in Hfiles. subst rs1. cbn [fst snd].
  destruct (raised (documents_entries (self.code s) (self.pch_code s) (omap fs fl)))
    as [[]|x].
  2:{ do 2 eexists. split; [reflexivity|]. split; [|done]. by intros ? [= ->]. }
  rewrite run_bind.
  destruct (init_cfg_bus_run h
              (self.upd_Cfg
                 (store_all (loaded (documents_entries (self.code s) (self.pch_code s)
                                       (omap fs fl)))) s) w1)
    as (r & s' & w' & -> & Hs').
  cbn [fst snd]. destruct r as [[]|x]; cbn [modify run fst snd].
  - do 2 eexists. split; [reflexivity|]. split; [done|].
    intros c. rewrite cat_get_upd_XML_CONFIG_LOADED, Hs'. apply cat_get_upd_BUS.
  - do 2 eexists. split; [reflexivity|]. split; [done|].
    intros c. rewrite Hs'. apply cat_get_upd_BUS.
Qed.

(** C3. [init_xml_configuration] in a world whose files do not change
    while they are loaded and whose documents are plain.  The sorted file
    list splits into four parts that are loaded one after the other: the
    files whose basename matches [common*.xml]; then, unless the chipset
    code is empty, the files that match [<code>*.xml]; then, unless the PCH
    code is empty, the files that match [<pch_code>*.xml]; then the
    remaining files that are not yet in the list, match no [<c>*.xml] for a
    code [c] of the catalog and do not begin with the PCH code prefix
    [pch_]; each part is in the lexicographic order of the file list.  The
    documents of the files that exist are applied in exactly this order,
    entry after entry: when an entry raises, so does
    [init_xml_configuration], and in each of the six categories a name is
    bound to what the last loaded entry of that name gives it, in the last
    document that has one.  A later source thus overrides the definition
    of an earlier one, as a whole, and a name without any entry keeps what
    the store held for it. *)
Theorem documents_applied_in_order {W} (h : world W) (w : W) (s : Chipset)
    (walk : list (string * list string)) (fs : string → option Element) :
  serves h walk fs →
  (∀ f root, fs f = Some root →
             plain_document (self.code s) (self.pch_code s) root = true) →
  let code := self.code s in
  let pch_code := self.pch_code s in
  ∃ common platform pch rest,
    loaded_files code pch_code (cfg_files_of walk)
      = common ++ platform ++ pch ++ rest ∧
    (∀ x, x ∈ common ↔
          x ∈ cfg_files_of walk ∧ matches x "common*.xml" = true) ∧
    (∀ x, x ∈ platform ↔
          code ≠ "" ∧ x ∈ cfg_files_of walk ∧ matches x (code +:+ "*.xml") = true) ∧
    (∀ x, x ∈ pch ↔
          pch_code ≠ "" ∧ x ∈ cfg_files_of walk
          ∧ matches x (pch_code +:+ "*.xml") = true) ∧
    (∀ x, x ∈ rest ↔
          x ∈ cfg_files_of walk ∧ (x ∉ common ++ platform ++ pch) ∧
          (∀ c, is_Some (Chipset_Code !! c) →
                matches x (Py.lower c +:+ "*.xml") = false) ∧
          Py.startswith (Py.basename x) (Py.lower PCH_CODE_PREFIX) = false) ∧
    StronglySorted String.le common ∧ StronglySorted String.le platform ∧
    StronglySorted String.le pch ∧ StronglySorted String.le rest ∧
    let es := documents_entries code pch_code
                (omap fs (common ++ platform ++ pch ++ rest)) in
    let rs := (run h (init_xml_configuration s) w).1 in
    (∀ x, raised es = Exc x → rs.1 = Exc x) ∧
    ∀ c n, cat_get c (self.Cfg rs.2) !! n
           = match last_outcome c n (loaded es) with
             | Some d => d
             | None => cat_get c (self.Cfg s) !! n
             end.
Proof.
  intros Hserves Hplain code pch_code.
  destruct (loaded_files_parts code pch_code walk)
    as (common & platform & pch & rest & Hlist & Hc & Hp & Hpch & Hr & S1 & S2 & S3 & S4).
  exists common, platform, pch, rest.
  do 9 (split; [assumption|]).
  rewrite <-Hlist. apply init_xml_configuration_run; assumption.
Qed.

Lemma documents_applied_in_order_witness :
  let rs := (run override_world
               (init_xml_configuration (self.set_code "snb" Chipset_new)) tt).1 in
  cat_get cat_CONFIG_PCI (self.Cfg rs.2) !! "LPC"
    = Some (attrs [("bus", "1"); ("dev", "0x1F"); ("fun", "0")]) ∧
  cat_get cat_CONFIG_PCI (self.Cfg rs.2) !! "IGD"
    = Some (attrs [("bus", "0"); ("dev", "2"); ("fun", "0")]) ∧
  cat_get cat_CONFIG_PCI (self.Cfg rs.2) !! "HOSTCTRL" = None ∧
  cat_get cat_REGISTERS (self.Cfg rs.2) !! "QW"
    = Some (attrs [("type", "pcicfg"); ("device", "LPC"); ("offset", "0x10");
                   ("size", "8"); ("desc", "")]).
Proof.
  cbv zeta.
  destruct (documents_applied_in_order override_world tt
              (self.set_code "snb" Chipset_new)
              [("/chipsec/cfg", ["common.xml"; "override.xml"; "snb.xml"])] override_fs)
    as (common & platform & pch & rest & Hlist & _ & _ & _ & _ & _ & _ & _ & _ & _ & Hlast).
  - split; [|split].
    + intros w. reflexivity.
    + intros w f. reflexivity.
    + intros w f root [= <-]. reflexivity.
  - intros f root [= <-].
    destruct (String.eqb _ _); [|destruct (String.eqb _ _)]; vm_compute; reflexivity.
  - rewrite <-Hlist in Hlast. clear Hlist.
    split; [|split; [|split]].
    + rewrite (Hlast cat_CONFIG_PCI "LPC"). vm_compute. reflexivity.
    + rewrite (Hlast cat_CONFIG_PCI "IGD"). vm_compute. reflexivity.
    + rewrite (Hlast cat_CONFIG_PCI "HOSTCTRL"). vm_compute. reflexivity.
    + rewrite (Hlast cat_REGISTERS "QW"). vm_compute. reflexivity.
Defined.
